(** * vrc_print_upload: session handling, resilient transport and image
      preparation, embedded from the Go sources

    The development follows the packages of the repository:
    - [imaging], [url], [base64], [resty]: the behaviour of the external
      libraries the code calls, as far as the properties below need it;
    - [upload]: [resizeImage] and [prepareImage] of internal/upload/upload.go;
    - [auth]: the session client of internal/auth/auth.go;
    - [client]: the retrying transport of internal/client/client.go;
    - [utf8], [utf16], [calendar], [rfc3339], [strconv], [encjson]: the
      standard library of Go as far as the cookie file needs it (the JSON
      text of a cookie map and its reading).

    Definitions come first, the theorems about them afterwards. *)

From Stdlib Require Import ZArith NArith Lia List String Ascii Bool.
From stdpp Require Import base option gmap strings sorting.

Import ListNotations.
Local Open Scope Z_scope.

(** ** Images and the resampling library *)

Module image.

(** An [image.Image] is observed by the code only through the extent of its
    bounds, [Bounds().Dx()] and [Bounds().Dy()]. *)
Record Image : Type := mkImage { Dx : Z; Dy : Z }.

Definition dims (img : Image) : Z * Z := (Dx img, Dy img).

End image.

Module imaging.
Import image.

(** [math.Floor(n/d + 0.5)] for [0 <= n], [0 < d].  The library computes the
    quotient in float64; for the extents an image decoder can deliver
    (below 2^31) and the targets used here (at most 2048) the quotient is
    at least 2^-32 away from every half-integer it is not equal to, while
    the float64 rounding error is below 2^-42, so the floating-point value
    of the floor is the exact one. *)
Definition round_half_up (n d : Z) : Z := (2 * n + d) / (2 * d).

(** The size of the result of [imaging.Resize(img, width, height, filter)]
    (github.com/disintegration/imaging): a negative request, a request of
    0x0 and an empty source give an empty image; a zero width or height is
    computed from the other side so that the aspect ratio is kept, with a
    minimum of one pixel. *)
Definition Resize (img : Image) (width height : Z) : Image :=
  if (width <? 0) || (height <? 0) then mkImage 0 0
  else if (width =? 0) && (height =? 0) then mkImage 0 0
  else
    let srcW := Dx img in
    let srcH := Dy img in
    if (srcW <=? 0) || (srcH <=? 0) then mkImage 0 0
    else
      let dstW :=
        if width =? 0 then Z.max 1 (round_half_up (height * srcW) srcH)
        else width in
      let dstH :=
        if height =? 0 then Z.max 1 (round_half_up (dstW * srcH) srcW)
        else height in
      mkImage dstW dstH.

End imaging.

(** ** internal/upload/upload.go *)

Module upload.
Import image.

Definition MaxImageSize : Z := 32 * 1024 * 1024.
Definition MaxResolution : Z := 2048.
Definition Print1080pWidth : Z := 1920.
Definition Print1080pHeight : Z := 1080.

(** [resizeImage] (upload.go, lines 316-342). *)
Definition resizeImage (img : Image) (noResize : bool) : Image :=
  let width := Dx img in
  let height := Dy img in
  if negb noResize then
    if width >? height
    then imaging.Resize img Print1080pWidth Print1080pHeight
    else imaging.Resize img Print1080pHeight Print1080pWidth
  else
    if (width >? MaxResolution) || (height >? MaxResolution) then
      if width >? height
      then imaging.Resize img MaxResolution 0
      else imaging.Resize img 0 MaxResolution
    else img.

(** The resizing steps written inline in the first [prepareImage] of the
    file (upload.go, lines 165-192): the clamp to [MaxResolution] is applied
    first, then the 1080p conversion unless [noResize]; [width] and
    [height] are read once, before the clamp. *)
Definition resizeInline (img0 : Image) (noResize : bool) : Image :=
  let width := Dx img0 in
  let height := Dy img0 in
  let img1 :=
    if (width >? MaxResolution) || (height >? MaxResolution) then
      if width >? height
      then imaging.Resize img0 MaxResolution 0
      else imaging.Resize img0 0 MaxResolution
    else img0 in
  if negb noResize then
    if width >? height
    then imaging.Resize img1 1920 1080
    else imaging.Resize img1 1080 1920
  else img1.

(** What [prepareImage] can report. *)
Inductive PrepareError : Type :=
| StatFailed
| ImageFileTooLarge (size : Z)
| OpenFailed
| DecodeFailed
| EncodeFailed
| EncodedImageTooLarge (len : Z).

Inductive result (A : Type) : Type :=
| Ok (a : A)
| Failed (e : PrepareError).
Arguments Ok {A} a.
Arguments Failed {A} e.

(** The image file as [prepareImage] meets it: [os.Stat] gives its size,
    [os.Open] may fail, [image.Decode] gives an image or fails. *)
Record SourceFile : Type := mkSourceFile {
  Size : Z;
  opens : bool;
  decoded : option Image
}.

(** A PNG byte buffer, by its length and the image it encodes. *)
Record Png : Type := mkPng { Len : Z; Pixels : Image }.

Section PrepareImage.
(** [png.Encode]: the length of the encoding, or a failure. *)
Variable png_Encode : Image -> option Z.

Definition encodeAndCheck (img : Image) : result Png :=
  match png_Encode img with
  | None => Failed EncodeFailed
  | Some len =>
      if len >? MaxImageSize then Failed (EncodedImageTooLarge len)
      else Ok (mkPng len img)
  end.

Definition decodeThen (resize : Image -> bool -> Image)
    (file : option SourceFile) (noResize : bool) : result Png :=
  match file with
  | None => Failed StatFailed
  | Some info =>
      if Size info >? MaxImageSize then Failed (ImageFileTooLarge (Size info))
      else if negb (opens info) then Failed OpenFailed
      else match decoded info with
           | None => Failed DecodeFailed
           | Some img => encodeAndCheck (resize img noResize)
           end
  end.

(** [prepareImage] (upload.go, lines 375-416). *)
Definition prepareImage (file : option SourceFile) (noResize : bool) : result Png :=
  decodeThen resizeImage file noResize.

(** The first [prepareImage] of the file (upload.go, lines 141-208). *)
Definition prepareImageInline (file : option SourceFile) (noResize : bool) : result Png :=
  decodeThen resizeInline file noResize.

End PrepareImage.

End upload.


(** ** Errors, time, cookies *)

(** Reasons for which a system call on an existing path can fail; "the file
    does not exist" is kept apart because the code tests for it. *)
Inductive fault : Type := EACCES | EPERM | EIO | ENOSPC | EROFS.

(** Go [error] values met in this development. *)
Inductive error : Type :=
| ErrNotExist                               (* os.IsNotExist holds *)
| PathError (f : fault)                     (* any other failure of a system call *)
| JSONError                                 (* encoding/json refused the data *)
| NetError                                  (* the round trip itself failed *)
| Errorf (prefix : string) (cause : error). (* fmt.Errorf("prefix: %w", cause) *)

Module time.

(** A [time.Time], as the instant it denotes: nanoseconds since the zero
    time (January 1, year 1, 00:00:00 UTC). *)
Definition Time : Type := Z.

Definition IsZero (t : Time) : bool := t =? 0.
Definition Before (t u : Time) : bool := t <? u.

Definition Second : Z := 1000000000.

End time.

Module http.

(** [http.Cookie]. *)
Record Cookie : Type := mkCookie {
  Name : string;
  Value : string;
  Path : string;
  Domain : string;
  Expires : time.Time;
  RawExpires : string;
  MaxAge : Z;
  Secure : bool;
  HttpOnly : bool;
  SameSite : Z;
  Raw : string;
  Unparsed : list string
}.

End http.

(** ** The HTTP client library (github.com/go-resty/resty/v2) *)

Module resty.

Record Response : Type := mkResponse { StatusCode : Z }.

Definition RetryConditionFunc : Type := Response -> option error -> bool.

(** The fields of [resty.Client] the repository sets or reads. *)
Record Client : Type := mkClient {
  BaseURL : string;
  UserAgent : string;               (* Header["User-Agent"] *)
  Cookies : list http.Cookie;
  Timeout : Z;
  RetryCount : nat;
  RetryWaitTime : Z;
  RetryMaxWaitTime : Z;
  RetryConditions : list RetryConditionFunc
}.

(** [resty.New()]: no retries, 100ms and 2s as waiting times. *)
Definition New : Client :=
  mkClient "" "" [] 0 0 (100 * 1000000) (2000 * 1000000) [].

Definition SetBaseURL (url : string) (c : Client) : Client :=
  mkClient url (UserAgent c) (Cookies c) (Timeout c) (RetryCount c)
           (RetryWaitTime c) (RetryMaxWaitTime c) (RetryConditions c).

Definition SetUserAgent (v : string) (c : Client) : Client :=
  mkClient (BaseURL c) v (Cookies c) (Timeout c) (RetryCount c)
           (RetryWaitTime c) (RetryMaxWaitTime c) (RetryConditions c).

(** [Client.SetCookies] (resty v2, client.go) adds the cookies it is given
    to the ones the client already holds,
    [c.Cookies = append(c.Cookies, cs...)]; it never removes one, so a call
    with [nil] leaves the list as it is. *)
Definition SetCookies (cs : list http.Cookie) (c : Client) : Client :=
  mkClient (BaseURL c) (UserAgent c) (Cookies c ++ cs) (Timeout c) (RetryCount c)
           (RetryWaitTime c) (RetryMaxWaitTime c) (RetryConditions c).

Definition SetTimeout (d : Z) (c : Client) : Client :=
  mkClient (BaseURL c) (UserAgent c) (Cookies c) d (RetryCount c)
           (RetryWaitTime c) (RetryMaxWaitTime c) (RetryConditions c).

Definition SetRetryCount (n : nat) (c : Client) : Client :=
  mkClient (BaseURL c) (UserAgent c) (Cookies c) (Timeout c) n
           (RetryWaitTime c) (RetryMaxWaitTime c) (RetryConditions c).

Definition SetRetryWaitTime (d : Z) (c : Client) : Client :=
  mkClient (BaseURL c) (UserAgent c) (Cookies c) (Timeout c) (RetryCount c)
           d (RetryMaxWaitTime c) (RetryConditions c).

Definition SetRetryMaxWaitTime (d : Z) (c : Client) : Client :=
  mkClient (BaseURL c) (UserAgent c) (Cookies c) (Timeout c) (RetryCount c)
           (RetryWaitTime c) d (RetryConditions c).

Definition AddRetryCondition (f : RetryConditionFunc) (c : Client) : Client :=
  mkClient (BaseURL c) (UserAgent c) (Cookies c) (Timeout c) (RetryCount c)
           (RetryWaitTime c) (RetryMaxWaitTime c) (RetryConditions c ++ [f]).

(** What one execution of a request gives: a response and, when the round
    trip failed, an error. *)
Record Outcome : Type := mkOutcome { resp : Response; err : option error }.

(** The decision taken after an attempt: without conditions an error asks
    for a retry; with conditions the first one that holds does. *)
Fixpoint runConditions (conds : list RetryConditionFunc) (needsRetry : bool)
    (r : Response) (e : option error) : bool :=
  match conds with
  | [] => needsRetry
  | condition :: rest =>
      if condition r e then true else runConditions rest false r e
  end.

Definition needsRetry (conds : list RetryConditionFunc) (o : Outcome) : bool :=
  runConditions conds (match err o with Some _ => true | None => false end)
                (resp o) (err o).

(** Modelled from the spec: the retry loop of the HTTP library (resty's
    [Backoff]), whose code is not part of the repository: attempts are made
    one after the other, a retry follows an attempt only when the retry
    predicate holds and the maximum retry count is not used up, and the
    outcome of the last attempt is returned.  [operation n] is the outcome
    of attempt number [n] (counted from 0); the result also reports the
    number of the last attempt, which is the number of retries made.  The
    pause before a retry is not represented. *)
Fixpoint attemptsFrom (operation : nat -> Outcome) (conds : list RetryConditionFunc)
    (retriesLeft attempt : nat) : Outcome * nat :=
  let o := operation attempt in
  if negb (needsRetry conds o) then (o, attempt)
  else match retriesLeft with
       | O => (o, attempt)
       | S retries => attemptsFrom operation conds retries (S attempt)
       end.

Definition Backoff (operation : nat -> Outcome) (maxRetries : nat)
    (conds : list RetryConditionFunc) : Outcome * nat :=
  attemptsFrom operation conds maxRetries 0.

(** [Request.Execute]: a client without retries sends once. *)
Definition Execute (c : Client) (operation : nat -> Outcome) : Outcome * nat :=
  match RetryCount c with
  | O => (operation O, O)
  | S _ => Backoff operation (RetryCount c) (RetryConditions c)
  end.

End resty.

(** ** internal/client/client.go *)

Module client.

Definition defaultTimeout : Z := 30 * time.Second.
Definition maxRetries : nat := 3.
Definition retryWaitTime : Z := 1 * time.Second.
Definition maxRetryWait : Z := 10 * time.Second.

(** The retry condition installed by [New] (client.go, lines 30-37). *)
Definition retryCondition : resty.RetryConditionFunc :=
  fun r err =>
    match err with
    | Some _ => true
    | None => (resty.StatusCode r =? 429) || (resty.StatusCode r >=? 500)
    end.

(** [New] (client.go, lines 16-49).  The response middleware it adds
    changes nothing and returns [nil]. *)
Definition New (authClient : resty.Client) : resty.Client :=
  let client := resty.New in
  let client := resty.SetBaseURL (resty.BaseURL authClient) client in
  let client := resty.SetCookies (resty.Cookies authClient) client in
  let client := resty.SetUserAgent (resty.UserAgent authClient) client in
  let client := resty.SetTimeout defaultTimeout client in
  let client := resty.SetRetryCount maxRetries client in
  let client := resty.SetRetryWaitTime retryWaitTime client in
  let client := resty.SetRetryMaxWaitTime maxRetryWait client in
  resty.AddRetryCondition retryCondition client.

End client.

(** ** Percent-encoding and base64 (Go's net/url and encoding/base64) *)

Module url.

Definition between (lo c hi : ascii) : bool :=
  ((N_of_ascii lo <=? N_of_ascii c) && (N_of_ascii c <=? N_of_ascii hi))%N.

Fixpoint oneOf (c : ascii) (s : string) : bool :=
  match s with
  | EmptyString => false
  | String d rest => Ascii.eqb c d || oneOf c rest
  end.

(** [shouldEscape(c, encodeQueryComponent)]: letters, digits and the marks
    [-_.~] are kept, the reserved characters and everything else are
    escaped. *)
Definition shouldEscape (c : ascii) : bool :=
  if between "a" c "z" || between "A" c "Z" || between "0" c "9" then false
  else if oneOf c "-_.~" then false
  else if oneOf c "$&+,/:;=?@" then true
  else true.

Definition upperhex : string := "0123456789ABCDEF".

Definition hexdigit (n : N) : ascii :=
  match String.get (N.to_nat n) upperhex with
  | Some d => d
  | None => "0"%char
  end.

(** [escape(s, encodeQueryComponent)]: a space becomes [+], a byte to
    escape becomes [%] and its two upper-case hexadecimal digits. *)
Fixpoint escape (s : string) : string :=
  match s with
  | EmptyString => EmptyString
  | String c rest =>
      if Ascii.eqb c " " then String "+" (escape rest)
      else if shouldEscape c then
        String "%" (String (hexdigit (N.shiftr (N_of_ascii c) 4))
                   (String (hexdigit (N.land (N_of_ascii c) 15)) (escape rest)))
      else String c (escape rest)
  end.

Definition QueryEscape (s : string) : string := escape s.

End url.

Module base64.

Definition encodeStd : string :=
  "ABCDEFGHIJKLMNOPQRSTUVWXYZabcdefghijklmnopqrstuvwxyz0123456789+/".

Definition StdPadding : ascii := "="%char.

(** [enc.encode[v & 0x3F]]. *)
Definition encode (v : N) : ascii :=
  match String.get (N.to_nat (N.land v 63)) encodeStd with
  | Some c => c
  | None => "A"%char
  end.

(** [StdEncoding.Encode]: three bytes give four characters; a last block
    of one or two bytes is padded with [=]. *)
Fixpoint Encode (src : string) : string :=
  match src with
  | EmptyString => EmptyString
  | String a EmptyString =>
      let val := N.shiftl (N_of_ascii a) 16 in
      String (encode (N.shiftr val 18)) (String (encode (N.shiftr val 12))
        (String StdPadding (String StdPadding EmptyString)))
  | String a (String b EmptyString) =>
      let val := N.lor (N.shiftl (N_of_ascii a) 16) (N.shiftl (N_of_ascii b) 8) in
      String (encode (N.shiftr val 18)) (String (encode (N.shiftr val 12))
        (String (encode (N.shiftr val 6)) (String StdPadding EmptyString)))
  | String a (String b (String c rest)) =>
      let val := N.lor (N.lor (N.shiftl (N_of_ascii a) 16) (N.shiftl (N_of_ascii b) 8))
                       (N_of_ascii c) in
      String (encode (N.shiftr val 18)) (String (encode (N.shiftr val 12))
        (String (encode (N.shiftr val 6)) (String (encode val) (Encode rest))))
  end.

Definition EncodeToString (src : string) : string := Encode src.

End base64.

(** ** The file system and the JSON codec *)

Module os.

Record File : Type := mkFile { data : string; perm : Z }.

(** The world the session client acts on: the files by path, the umask of
    the process, and the failures the system is going to answer with, one
    entry for each call to come ([None], or no entry: the call is carried
    out). *)
Record World : Type := mkWorld {
  files : gmap string File;
  umask : Z;
  faults : list (option fault)
}.

Definition M (A : Type) : Type := World -> A * World.

Definition ret {A : Type} (a : A) : M A := fun w => (a, w).

Definition bind {A B : Type} (m : M A) (k : A -> M B) : M B :=
  fun w => let (a, w') := m w in k a w'.

Definition answer : M (option fault) :=
  fun w =>
    match faults w with
    | [] => (None, w)
    | f :: rest => (f, mkWorld (files w) (umask w) rest)
    end.

(** No failure is going to be answered. *)
Definition calm (w : World) : Prop := Forall (fun f => f = None) (faults w).

Definition IsNotExist (e : error) : bool :=
  match e with ErrNotExist => true | _ => false end.

(** [os.Create]: open with O_RDWR|O_CREATE|O_TRUNC and mode 0666 (before
    umask); an existing file is emptied and keeps its mode. *)
Definition Create (name : string) : M (option error) :=
  bind answer (fun f =>
    match f with
    | Some e => ret (Some (PathError e))
    | None => fun w =>
        let mode :=
          match files w !! name with
          | Some old => perm old
          | None => Z.land 438 (Z.lnot (umask w))
          end in
        (None, mkWorld (<[name := mkFile EmptyString mode]> (files w)) (umask w) (faults w))
    end).

Definition Chmod (name : string) (mode : Z) : M (option error) :=
  bind answer (fun f =>
    match f with
    | Some e => ret (Some (PathError e))
    | None => fun w =>
        match files w !! name with
        | None => (Some ErrNotExist, w)
        | Some file =>
            (None, mkWorld (<[name := mkFile (data file) mode]> (files w)) (umask w) (faults w))
        end
    end).

Definition Remove (name : string) : M (option error) :=
  bind answer (fun f =>
    match f with
    | Some e => ret (Some (PathError e))
    | None => fun w =>
        match files w !! name with
        | None => (Some ErrNotExist, w)
        | Some _ => (None, mkWorld (delete name (files w)) (umask w) (faults w))
        end
    end).

Definition Open (name : string) : M (option error) :=
  bind answer (fun f =>
    match f with
    | Some e => ret (Some (PathError e))
    | None => fun w =>
        match files w !! name with
        | None => (Some ErrNotExist, w)
        | Some _ => (None, w)
        end
    end).

(** Reading an open file to its end. *)
Definition Read (name : string) : M (error + string) :=
  bind answer (fun f =>
    match f with
    | Some e => ret (inl (PathError e))
    | None => fun w =>
        match files w !! name with
        | None => (inl ErrNotExist, w)
        | Some file => (inr (data file), w)
        end
    end).

(** Writing to a file just opened by [Create]; a write that fails leaves
    the file as it is. *)
Definition Write (name : string) (bytes : string) : M (option error) :=
  bind answer (fun f =>
    match f with
    | Some e => ret (Some (PathError e))
    | None => fun w =>
        match files w !! name with
        | None => (Some ErrNotExist, w)
        | Some file =>
            (None, mkWorld (<[name := mkFile (String.append (data file) bytes) (perm file)]> (files w))
                           (umask w) (faults w))
        end
    end).

End os.

Notation "x <- m ;; k" := (os.bind m (fun x => k))
  (at level 62, m at next level, right associativity).

Module json.

(** encoding/json at the type [map[string]*http.Cookie]: [Encode] gives the
    bytes an [Encoder] writes for a map, or fails; [Decode] stores the
    cookies of a document into the map it is given, which it may have
    changed even when it reports an error. *)
Class Codec : Type := mkCodec {
  Encode : gmap string http.Cookie -> error + string;
  Decode : string -> gmap string http.Cookie -> gmap string http.Cookie * option error
}.

End json.

(** ** internal/config/config.go *)

Module config.

Record Config : Type := mkConfig { APIBaseURL : string; configDir : string }.

(** [filepath.Join] of a directory and a file name. *)
Definition Join (dir name : string) : string :=
  match dir with
  | EmptyString => name
  | _ => String.append dir (String "/" name)
  end.

Definition CookieFile (c : Config) : string := Join (configDir c) "cookies.json".





End config.

(** ** Requests and replies *)

Module wire.

(** The body of a request: none, the JSON object with the one field [code],
    or a multipart form, given by its parts. *)
Inductive Content : Type :=
| Text (value : string)
| Timestamp (instant : time.Time)       (* formatted with time.RFC3339 *)
| Image (png : upload.Png).

Record Part : Type := mkPart {
  FieldName : string;
  FileName : option string;
  PartType : option string;             (* the Content-Type of the part *)
  PartContent : Content
}.

Inductive Body : Type :=
| NoBody
| CodeBody (code : string)              (* {"code": code} *)
| FormBody (parts : list Part).

(** What a function of the repository puts into a request; the cookies and
    headers the client adds on its own are not listed. *)
Record Request : Type := mkRequest {
  Method : string;
  Path : string;
  Authorization : option string;
  ContentType : option string;
  Payload : Body
}.

(** A response as the functions read it: status code and status line, the
    cookies it sets, its body as text, and the value the client has decoded
    into the result the request was given (left at its zero value when the
    client decodes nothing). *)
Record Reply (A : Type) : Type := mkReply {
  StatusCode : Z;
  Status : string;
  Cookies : list http.Cookie;
  BodyString : string;                  (* resp.String() *)
  Result : A
}.
Arguments mkReply {A}.
Arguments StatusCode {A}.
Arguments Status {A}.
Arguments Cookies {A}.
Arguments BodyString {A}.
Arguments Result {A}.

(** The server and the network, for one request: an error of the round
    trip, or a reply. *)
Definition RoundTrip (A : Type) : Type := Request -> error + Reply A.

End wire.

(** ** internal/auth/auth.go *)

Module auth.
Import os.

(** The session client.  The Go map holds pointers to cookies; they come
    from responses and from decoded objects and are taken to be non-nil. *)
Record Client : Type := mkClient {
  config : config.Config;
  httpClient : resty.Client;
  cookies : gmap string http.Cookie
}.

(** The cookies of the map as a slice; Go leaves the order of the
    iteration over a map open. *)
Definition cookieSlice (m : gmap string http.Cookie) : list http.Cookie :=
  (map_to_list m).*2.

(** [IsAuthenticated] (auth.go, lines 141-152); [now] is [time.Now()]. *)
Definition IsAuthenticated (c : Client) (now : time.Time) : bool :=
  match cookies c !! "auth"%string with
  | None => false
  | Some authCookie =>
      if String.eqb (http.Value authCookie) "" then false
      else if negb (time.IsZero (http.Expires authCookie))
              && time.Before (http.Expires authCookie) now then false
      else true
  end.

(** [createAuthHeader] (auth.go, lines 185-191). *)
Definition createAuthHeader (username password : string) : string :=
  let encodedUsername := url.QueryEscape username in
  let encodedPassword := url.QueryEscape password in
  let credentials := String.append encodedUsername (String ":" encodedPassword) in
  let encoded := base64.EncodeToString credentials in
  String.append "Basic " encoded.

(** [saveCookies] (auth.go, lines 193-205), the hook run after every
    response, on the cookies of that response. *)
Definition saveCookies (c : Client) (respCookies : list http.Cookie) : Client :=
  let merged :=
    fold_left (fun m cookie => <[http.Name cookie := cookie]> m) respCookies (cookies c) in
  mkClient (config c) (resty.SetCookies (cookieSlice merged) (httpClient c)) merged.

(** [Logout] (auth.go, lines 170-179). *)
Definition Logout (c : Client) : M (option error * Client) :=
  let c := mkClient (config c) (httpClient c) ∅ in
  let c := mkClient (config c) (resty.SetCookies [] (httpClient c)) (cookies c) in
  e <- Remove (config.CookieFile (config c)) ;;
  match e with
  | Some err =>
      if negb (IsNotExist err)
      then ret (Some (Errorf "failed to remove cookie file" err), c)
      else ret (None, c)
  | None => ret (None, c)
  end.

Section Persistence.
Context {codec : json.Codec}.

(** [saveCookiesToFile] (auth.go, lines 207-221). *)
Definition saveCookiesToFile (c : Client) : M (option error) :=
  let cookieFile := config.CookieFile (config c) in
  e <- Create cookieFile ;;
  match e with
  | Some err => ret (Some err)
  | None =>
      e <- Chmod cookieFile 384 ;;      (* 0600 *)
      match e with
      | Some err => ret (Some err)
      | None =>
          match json.Encode (cookies c) with
          | inl err => ret (Some err)
          | inr bytes => Write cookieFile bytes
          end
      end
  end.

(** [loadCookies] (auth.go, lines 223-244). *)
Definition loadCookies (c : Client) : M (option error * Client) :=
  let cookieFile := config.CookieFile (config c) in
  e <- Open cookieFile ;;
  match e with
  | Some err =>
      if IsNotExist err then ret (None, c) else ret (Some err, c)
  | None =>
      r <- Read cookieFile ;;
      match r with
      | inl err => ret (Some err, c)
      | inr bytes =>
          let (m, e) := json.Decode bytes (cookies c) in
          let c := mkClient (config c) (httpClient c) m in
          match e with
          | Some err => ret (Some err, c)
          | None =>
              ret (None, mkClient (config c)
                                  (resty.SetCookies (cookieSlice (cookies c)) (httpClient c))
                                  (cookies c))
          end
      end
  end.

(** [NewClient] (auth.go, lines 47-60).  The hook registered with
    [OnAfterResponse] is [saveCookies]; the value [loadCookies] returns
    is not used. *)
Definition NewClient (cfg : config.Config) : M Client :=
  let client := mkClient cfg resty.New ∅ in
  let client :=
    mkClient (config client)
             (resty.SetBaseURL (config.APIBaseURL cfg) (httpClient client))
             (cookies client) in
  let client :=
    mkClient (config client)
             (resty.SetUserAgent "vrc-print-upload/1.0" (httpClient client))
             (cookies client) in
  r <- loadCookies client ;;
  ret (snd r).

(** The client [NewClient] has built when it calls [loadCookies]. *)
Definition unloaded (cfg : config.Config) : Client :=
  mkClient cfg
           (resty.SetUserAgent "vrc-print-upload/1.0"
              (resty.SetBaseURL (config.APIBaseURL cfg) resty.New))
           ∅.

End Persistence.

(** *** The remote operations *)

(** [User]; the field [RequiresTwoFactorAuth] of Go is [UserRequiresTwoFactorAuth]. *)
Record User : Type := mkUser {
  ID : string;
  Username : string;
  DisplayName : string;
  TwoFactorAuthEnabled : bool;
  UserRequiresTwoFactorAuth : list string
}.

(** [AuthResponse]; the field [User] of Go is [ResponseUser]. *)
Record AuthResponse : Type := mkAuthResponse {
  ResponseUser : option User;
  RequiresTwoFactorAuth : list string;
  Error : string
}.

(** [TwoFactorAuthResponse]; the field [Error] of Go is [VerifyError]. *)
Record TwoFactorAuthResponse : Type := mkTwoFactorAuthResponse {
  Verified : bool;
  VerifyError : string
}.

(** [LoginOptions]; the fields [Username] and [Password] of Go are
    [LoginUsername] and [LoginPassword]. *)
Record LoginOptions : Type := mkLoginOptions {
  LoginUsername : string;
  LoginPassword : string;
  RecoveryCode : bool
}.

(** The errors of the remote operations: an [error] (among them
    [fmt.Errorf] with the verb %w around a cause), or [fmt.Errorf] with a
    text alone. *)
Inductive failure : Type :=
| Caused (e : error)
| Stated (text : string).

Definition nonEmpty {A : Type} (l : list A) : bool :=
  match l with [] => false | _ :: _ => true end.

(** [GetCurrentUser] (auth.go, lines 154-168).  The hook [saveCookies] has
    run on the reply when the request returns. *)
Definition GetCurrentUser (c : Client) (send : wire.RoundTrip User)
    : (failure + User) * Client :=
  match send (wire.mkRequest "GET" "/auth/user" None None wire.NoBody) with
  | inl err => (inl (Caused err), c)
  | inr resp =>
      let c := saveCookies c (wire.Cookies resp) in
      if negb (wire.StatusCode resp =? 200)
      then (inl (Stated (String.append "failed to get user info: " (wire.Status resp))), c)
      else (inr (wire.Result resp), c)
  end.

(** [GetHTTPClient] (auth.go, lines 181-183). *)
Definition GetHTTPClient (c : Client) : resty.Client := httpClient c.

Section Remote.
Context {codec : json.Codec}.

(** [Login] (auth.go, lines 62-89). *)
Definition Login (c : Client) (opts : LoginOptions) (send : wire.RoundTrip AuthResponse)
    : M (option failure * Client) :=
  let authHeader := createAuthHeader (LoginUsername opts) (LoginPassword opts) in
  match send (wire.mkRequest "GET" "/auth/user" (Some authHeader) None wire.NoBody) with
  | inl err => ret (Some (Caused (Errorf "authentication request failed" err)), c)
  | inr resp =>
      let c := saveCookies c (wire.Cookies resp) in
      let authResp := wire.Result resp in
      if negb (String.eqb (Error authResp) "")
      then ret (Some (Stated (String.append "authentication failed: " (Error authResp))), c)
      else if nonEmpty (RequiresTwoFactorAuth authResp)
              || match ResponseUser authResp with
                 | Some user => nonEmpty (UserRequiresTwoFactorAuth user)
                 | None => false
                 end
      then ret (Some (Stated "2FA required - use VerifyTOTPCode or VerifyRecoveryCode methods"), c)
      else
        e <- saveCookiesToFile c ;;
        match e with
        | Some err => ret (Some (Caused (Errorf "failed to save cookies" err)), c)
        | None => ret (None, c)
        end
  end.

(** [VerifyTOTPCode] (auth.go, lines 93-114). *)
Definition VerifyTOTPCode (c : Client) (code : string)
    (send : wire.RoundTrip TwoFactorAuthResponse) : M (option failure * Client) :=
  match send (wire.mkRequest "POST" "/auth/twofactorauth/totp/verify" None None
                             (wire.CodeBody code)) with
  | inl err => ret (Some (Caused (Errorf "2FA verification failed" err)), c)
  | inr resp =>
      let c := saveCookies c (wire.Cookies resp) in
      let twoFAResp := wire.Result resp in
      if negb (Verified twoFAResp)
      then ret (Some (Stated "2FA verification failed: invalid code"), c)
      else
        e <- saveCookiesToFile c ;;
        match e with
        | Some err => ret (Some (Caused (Errorf "failed to save cookies" err)), c)
        | None => ret (None, c)
        end
  end.

(** [VerifyRecoveryCode] (auth.go, lines 118-139). *)
Definition VerifyRecoveryCode (c : Client) (code : string)
    (send : wire.RoundTrip TwoFactorAuthResponse) : M (option failure * Client) :=
  match send (wire.mkRequest "POST" "/auth/twofactorauth/recoverycode/verify" None None
                             (wire.CodeBody code)) with
  | inl err => ret (Some (Caused (Errorf "recovery code verification failed" err)), c)
  | inr resp =>
      let c := saveCookies c (wire.Cookies resp) in
      let twoFAResp := wire.Result resp in
      if negb (Verified twoFAResp)
      then ret (Some (Stated "recovery code verification failed: invalid code"), c)
      else
        e <- saveCookiesToFile c ;;
        match e with
        | Some err => ret (Some (Caused (Errorf "failed to save cookies" err)), c)
        | None => ret (None, c)
        end
  end.

End Remote.

(** The request that [Login] sends, and its test for a second factor. *)
Definition loginRequest (opts : LoginOptions) : wire.Request :=
  wire.mkRequest "GET" "/auth/user"
    (Some (createAuthHeader (LoginUsername opts) (LoginPassword opts))) None wire.NoBody.

Definition needsTwoFactor (authResp : AuthResponse) : bool :=
  nonEmpty (RequiresTwoFactorAuth authResp)
  || match ResponseUser authResp with
     | Some user => nonEmpty (UserRequiresTwoFactorAuth user)
     | None => false
     end.

(** The requests that the two verifications send. *)
Definition totpRequest (code : string) : wire.Request :=
  wire.mkRequest "POST" "/auth/twofactorauth/totp/verify" None None (wire.CodeBody code).

Definition recoveryRequest (code : string) : wire.Request :=
  wire.mkRequest "POST" "/auth/twofactorauth/recoverycode/verify" None None
                 (wire.CodeBody code).

Definition userRequest : wire.Request :=
  wire.mkRequest "GET" "/auth/user" None None wire.NoBody.

(** What the operations that save return, from what saving returns. *)
Definition afterSave (c : Client) (saved : option error * os.World)
    : option failure * Client * os.World :=
  match saved with
  | (Some err, w) => (Some (Caused (Errorf "failed to save cookies" err)), c, w)
  | (None, w) => (None, c, w)
  end.

End auth.

(** ** The encodings as their standards describe them

    These definitions follow the descriptions of percent-encoding (RFC 3986)
    and of base64 (RFC 4648), not the code; the source is compared with them
    below. *)

Module standard.

(** RFC 3986, section 2.3: letters, digits, hyphen, period, underscore and
    tilde are never encoded. *)
Definition unreserved (c : ascii) : bool :=
  let n := N_of_ascii c in
  (((65 <=? n) && (n <=? 90)) || ((97 <=? n) && (n <=? 122)) || ((48 <=? n) && (n <=? 57))
   || (n =? 45) || (n =? 46) || (n =? 95) || (n =? 126))%N.

Definition hexDigit (n : N) : ascii :=
  if (n <? 10)%N then ascii_of_N (48 + n) else ascii_of_N (55 + n).

(** RFC 3986, section 2.1: a byte that is not unreserved is written as a
    percent sign and its two hexadecimal digits, in upper case; so a space
    is written as %20. *)
Definition percentEncodeByte (c : ascii) : string :=
  let n := N_of_ascii c in
  if unreserved c then String c EmptyString
  else String "%" (String (hexDigit (n / 16)) (String (hexDigit (n mod 16)) EmptyString)).

Fixpoint percentEncode (s : string) : string :=
  match s with
  | EmptyString => EmptyString
  | String c rest => String.append (percentEncodeByte c) (percentEncode rest)
  end.

(** The encoding of form data (application/x-www-form-urlencoded):
    percent-encoding, but with a space written as a plus sign. *)
Definition formEncodeByte (c : ascii) : string :=
  if Ascii.eqb c " " then "+"%string else percentEncodeByte c.

Fixpoint formEncode (s : string) : string :=
  match s with
  | EmptyString => EmptyString
  | String c rest => String.append (formEncodeByte c) (formEncode rest)
  end.

(** RFC 4648, table 1: the base 64 alphabet. *)
Definition base64Digit (n : N) : ascii :=
  if (n <? 26)%N then ascii_of_N (65 + n)
  else if (n <? 52)%N then ascii_of_N (97 + (n - 26))
  else if (n <? 62)%N then ascii_of_N (48 + (n - 52))
  else if (n =? 62)%N then "+"%char
  else "/"%char.

(** The [i]-th of the four 6-bit groups of a 24-bit group. *)
Definition sextet (group i : N) : ascii :=
  base64Digit ((group / 64 ^ (3 - i)) mod 64)%N.

(** RFC 4648, section 4: three bytes form a 24-bit group that is written as
    four digits; a final group of one or two bytes is filled with zero bits
    and written as two or three digits followed by padding. *)
Fixpoint base64 (s : string) : string :=
  match s with
  | EmptyString => EmptyString
  | String a EmptyString =>
      let group := (N_of_ascii a * 65536)%N in
      String (sextet group 0) (String (sextet group 1) "==")
  | String a (String b EmptyString) =>
      let group := (N_of_ascii a * 65536 + N_of_ascii b * 256)%N in
      String (sextet group 0) (String (sextet group 1) (String (sextet group 2) "="))
  | String a (String b (String c rest)) =>
      let group := (N_of_ascii a * 65536 + N_of_ascii b * 256 + N_of_ascii c)%N in
      String (sextet group 0) (String (sextet group 1)
        (String (sextet group 2) (String (sextet group 3) (base64 rest))))
  end.

(** The header of HTTP Basic authentication over credentials that are
    encoded one by one with [encode], joined by a colon, and then written
    in base64. *)
Definition basicOver (encode : string -> string) (username password : string) : string :=
  String.append "Basic "
    (base64 (String.append (encode username) (String ":" (encode password)))).

(** The header over percent-encoded credentials. *)
Definition basicAuthorization (username password : string) : string :=
  basicOver percentEncode username password.

End standard.

(** ** Sample data *)

Module sample.

(** A session cookie as the service sets it. *)
Definition authCookie (value : string) (expires : time.Time) : http.Cookie :=
  http.mkCookie "auth" value "/" "" expires "" 0 false true 0 "" [].

Definition stripPrefix (prefix s : string) : option string :=
  if String.prefix prefix s
  then Some (String.substring (String.length prefix)
                              (String.length s - String.length prefix) s)
  else None.

(** A codec on which the model can be run.  It stands for encoding/json on
    cookie sets that hold at most a session cookie without expiry: such a
    set is written as the value of that cookie, and any document that does
    not have this form is refused. *)
Definition codec : json.Codec :=
  json.mkCodec
    (fun m =>
       match m !! "auth"%string with
       | None => inr "{}"%string
       | Some c => inr (String.append "auth=" (http.Value c))
       end)
    (fun bytes m =>
       if String.eqb bytes "{}" then (m, None)
       else match stripPrefix "auth=" bytes with
            | Some v => (<["auth"%string := authCookie v 0]> m, None)
            | None => (m, Some JSONError)
            end).

Definition cfg : config.Config := config.mkConfig "https://api.vrchat.cloud/api/1" "/home/u/.vrc-print".

Definition cookieFile : string := config.CookieFile cfg.

(** A world with the given content in the cookie file (or without the
    file) and the given answers of the system. *)
Definition world (content : option string) (faults : list (option fault)) : os.World :=
  os.mkWorld
    match content with
    | Some data => {[ cookieFile := os.mkFile data 420 ]}    (* 0644 *)
    | None => ∅
    end
    18                                                       (* 0022 *)
    faults.

(** A client holding a session cookie, in its map and in its transport. *)
Definition loggedIn : auth.Client :=
  auth.mkClient cfg
    (resty.SetCookies [authCookie "test_token" 0] resty.New)
    {[ "auth"%string := authCookie "test_token" 0 ]}.

End sample.

(** ** Paths (Go's path/filepath, with the separator of Unix) *)

Module filepath.

Definition IsPathSeparator (c : ascii) : bool := Ascii.eqb c "/".

(** The loop of [filepath.Ext]: it walks from the last byte towards the
    first, stops with nothing at a separator, and returns the path from the
    first dot it meets.  [before] holds the bytes not yet seen, last one
    first; [seen] is the part of the path behind them. *)
Fixpoint scanExt (before : list ascii) (seen : string) : string :=
  match before with
  | [] => EmptyString
  | c :: before' =>
      if IsPathSeparator c then EmptyString
      else if Ascii.eqb c "." then String c seen
      else scanExt before' (String c seen)
  end.

Definition Ext (path : string) : string :=
  scanExt (rev (list_ascii_of_string path)) EmptyString.

(** The loops of [filepath.Base], on the bytes of the path, last one first:
    trailing separators are dropped, then the bytes behind the last
    separator are kept. *)
Fixpoint dropSeparators (before : list ascii) : list ascii :=
  match before with
  | [] => []
  | c :: before' => if IsPathSeparator c then dropSeparators before' else before
  end.

Fixpoint lastElement (before : list ascii) (seen : string) : string :=
  match before with
  | [] => seen
  | c :: before' =>
      if IsPathSeparator c then seen else lastElement before' (String c seen)
  end.

Definition Base (path : string) : string :=
  match path with
  | EmptyString => "."
  | _ =>
      match lastElement (dropSeparators (rev (list_ascii_of_string path))) EmptyString with
      | EmptyString => "/"
      | element => element
      end
  end.

(** The bytes hold no separator. *)
Definition noSeparator (l : list ascii) : Prop :=
  Forall (fun c => IsPathSeparator c = false) l.

End filepath.

(** ** vrc-print-gui/app.go: the check of the selected file *)

Module app.

(** The map that [ValidateImageFile] returns: valid with the type, or not
    valid with an error text. *)
Inductive Validation : Type :=
| Valid (type : string)
| NotValid (error : string).

Definition supportedExts : list string := [".png"; ".jpg"; ".jpeg"; ".gif"]%string.

(** [ValidateImageFile] (app.go). *)
Definition ValidateImageFile (filePath : string) : Validation :=
  if String.eqb filePath "" then NotValid "No file path provided"
  else
    let ext := filepath.Ext filePath in
    if existsb (String.eqb ext) supportedExts then Valid ext
    else NotValid (String.append "Unsupported file format: " ext).

End app.

(** ** internal/upload/upload.go: the form and the upload *)

Module uploader.

Definition UploadEndpoint : string := "/prints".

Record Uploader : Type := mkUploader { client : resty.Client }.

Record Options : Type := mkOptions {
  ImagePath : string;
  Note : string;
  WorldID : string;
  WorldName : string;
  NoResize : bool
}.

(** [UploadResult]; the fields [WorldID] and [WorldName] of Go are
    [ResultWorldID] and [ResultWorldName]. *)
Record UploadResult : Type := mkUploadResult {
  FileID : string;
  AuthorID : string;
  AuthorName : string;
  CreatedAt : time.Time;
  ResultWorldID : string;
  ResultWorldName : string
}.

(** [New] (upload.go, lines 258-262). *)
Definition New (client : resty.Client) : Uploader := mkUploader client.

(** [createMultipartForm] (upload.go, lines 265-313): the parts of the form
    in the order they are written, and the content type of the form.  [now]
    is [time.Now()]; [boundary] is the boundary the writer has drawn.  The
    writer writes into a buffer in memory, which does not fail. *)
Definition createMultipartForm (imageData : upload.Png) (opts : Options)
    (now : time.Time) (boundary : string) : list wire.Part * string :=
  let body :=
    [wire.mkPart "image" (Some (filepath.Base (ImagePath opts))) (Some "image/png"%string)
                 (wire.Image imageData)] in
  let body := body ++ [wire.mkPart "timestamp" None None (wire.Timestamp now)] in
  let body :=
    if negb (String.eqb (Note opts) "")
    then body ++ [wire.mkPart "note" None None (wire.Text (Note opts))] else body in
  let body :=
    if negb (String.eqb (WorldID opts) "")
    then body ++ [wire.mkPart "worldId" None None (wire.Text (WorldID opts))] else body in
  let body :=
    if negb (String.eqb (WorldName opts) "")
    then body ++ [wire.mkPart "worldName" None None (wire.Text (WorldName opts))] else body in
  let contentType := String.append "multipart/form-data; boundary=" boundary in
  (body, contentType).

(** What [Upload] reports: the preparation failed, the request failed, or
    the reply has a status other than 200 (with the status and the body of
    the reply). *)
Inductive UploadError : Type :=
| PrepareFailed (e : upload.PrepareError)
| RequestFailed (e : error)
| StatusFailed (status : Z) (body : string).

(** The request that [Upload] sends. *)
Definition uploadRequest (body : list wire.Part) (contentType : string) : wire.Request :=
  wire.mkRequest "POST" UploadEndpoint None (Some contentType) (wire.FormBody body).

(** [Upload] (upload.go, lines 344-373).  [images] gives, for a path, the
    file that [prepareImage] meets there. *)
Definition Upload (u : Uploader) (opts : Options)
    (png_Encode : image.Image -> option Z) (images : string -> option upload.SourceFile)
    (now : time.Time) (boundary : string) (send : wire.RoundTrip UploadResult)
    : UploadError + UploadResult :=
  match upload.prepareImage png_Encode (images (ImagePath opts)) (NoResize opts) with
  | upload.Failed e => inl (PrepareFailed e)
  | upload.Ok imageData =>
      let (body, contentType) := createMultipartForm imageData opts now boundary in
      match send (uploadRequest body contentType) with
      | inl err => inl (RequestFailed err)
      | inr resp =>
          if negb (wire.StatusCode resp =? 200)
          then inl (StatusFailed (wire.StatusCode resp) (wire.BodyString resp))
          else inr (wire.Result resp)
      end
  end.

End uploader.

(** ** Texts (Go's strings, and the text of an error) *)

Module strings.

(** [strings.Contains]. *)
Fixpoint Contains (s substr : string) : bool :=
  String.prefix substr s
  || match s with
     | EmptyString => false
     | String _ rest => Contains rest substr
     end.

End strings.

Section ErrorText.
(** The text of the errors that do not come from [fmt.Errorf]. *)
Variable describe : error -> string.

(** [err.Error()]: [fmt.Errorf("prefix: %w", cause)] reads "prefix: " and
    the text of the cause. *)
Fixpoint errorText (e : error) : string :=
  match e with
  | Errorf prefix cause => String.append prefix (String.append ": " (errorText cause))
  | _ => describe e
  end.

Definition failureText (f : auth.failure) : string :=
  match f with
  | auth.Caused e => errorText e
  | auth.Stated text => text
  end.

End ErrorText.

(** ** vrc-print-gui/app.go: the session of the application *)

Module gui.

Record App : Type := mkApp {
  config : config.Config;
  authClient : auth.Client;
  uploadService : option uploader.Uploader
}.

Record LoginRequest : Type := mkLoginRequest { Username : string; Password : string }.

Record LoginResponse : Type := mkLoginResponse {
  Success : bool;
  Message : string;
  RequiresTwoFactor : bool;
  UserDisplayName : string
}.

(** [App.IsAuthenticated] (app.go): the local check first, then the
    question to the service. *)
Definition IsAuthenticated (a : App) (now : time.Time) (send : wire.RoundTrip auth.User)
    : bool * App :=
  if negb (auth.IsAuthenticated (authClient a) now) then (false, a)
  else
    let (r, client) := auth.GetCurrentUser (authClient a) send in
    (match r with inl _ => false | inr _ => true end,
     mkApp (config a) client (uploadService a)).

(** [App.startup] (app.go). *)
Definition startup (a : App) (now : time.Time) (send : wire.RoundTrip auth.User) : App :=
  let (authenticated, a) := IsAuthenticated a now send in
  if authenticated
  then mkApp (config a) (authClient a)
             (Some (uploader.New (auth.GetHTTPClient (authClient a))))
  else a.

Section Session.
Context {codec : json.Codec}.
Variable describe : error -> string.

(** [App.Login] (app.go). *)
Definition Login (a : App) (req : LoginRequest)
    (sendLogin : wire.RoundTrip auth.AuthResponse) (sendUser : wire.RoundTrip auth.User)
    : os.M (LoginResponse * App) :=
  let opts := auth.mkLoginOptions (Username req) (Password req) false in
  r <- auth.Login (authClient a) opts sendLogin ;;
  let a := mkApp (config a) (snd r) (uploadService a) in
  match fst r with
  | Some err =>
      let errMsg := failureText describe err in
      if strings.Contains errMsg "2FA" || strings.Contains errMsg "two-factor"
      then os.ret (mkLoginResponse false "Two-factor authentication required" true "", a)
      else os.ret (mkLoginResponse false (String.append "Login failed: " errMsg) false "", a)
  | None =>
      let (user, client) := auth.GetCurrentUser (authClient a) sendUser in
      let displayName :=
        match user with
        | inr user => auth.DisplayName user
        | inl _ => ""%string
        end in
      os.ret (mkLoginResponse true "Login successful" false displayName,
              mkApp (config a) client (Some (uploader.New (auth.GetHTTPClient client))))
  end.

(** [App.Logout] (app.go). *)
Definition Logout (a : App) : os.M (LoginResponse * App) :=
  r <- auth.Logout (authClient a) ;;
  let a := mkApp (config a) (snd r) (uploadService a) in
  match fst r with
  | Some err =>
      os.ret (mkLoginResponse false
                (String.append "Logout failed: " (errorText describe err)) false "", a)
  | None =>
      os.ret (mkLoginResponse true "Logged out successfully" false "",
              mkApp (config a) (authClient a) None)
  end.

End Session.

End gui.

(** ** Sample replies of the service *)

Module scenario.

Definition credentials : auth.LoginOptions :=
  auth.mkLoginOptions "user" "p@ss w0rd!" false.

Definition user : auth.User := auth.mkUser "usr_12345" "testuser" "Test User" true [].

(** The service accepts the credentials and sets the session cookie. *)
Definition accepted : wire.RoundTrip auth.AuthResponse :=
  fun _ => inr (wire.mkReply 200 "200 OK" [sample.authCookie "test_token" 0] ""
                  (auth.mkAuthResponse (Some user) [] "")).

(** The service sets a session cookie and asks for a second factor. *)
Definition secondFactorWanted : wire.RoundTrip auth.AuthResponse :=
  fun _ => inr (wire.mkReply 200 "200 OK" [sample.authCookie "pending_token" 0] ""
                  (auth.mkAuthResponse None ["totp"%string] "")).

(** The service refuses the credentials; nothing is decoded into the result. *)
Definition unauthorized : wire.RoundTrip auth.AuthResponse :=
  fun _ => inr (wire.mkReply 401 "401 Unauthorized" [] "Unauthorized"
                  (auth.mkAuthResponse None [] "")).

Definition verified : wire.RoundTrip auth.TwoFactorAuthResponse :=
  fun _ => inr (wire.mkReply 200 "200 OK" [sample.authCookie "test_token" 0] ""
                  (auth.mkTwoFactorAuthResponse true "")).

Definition serverError : wire.RoundTrip auth.TwoFactorAuthResponse :=
  fun _ => inr (wire.mkReply 500 "500 Internal Server Error" [] "Server error"
                  (auth.mkTwoFactorAuthResponse false "")).

Definition currentUser : wire.RoundTrip auth.User :=
  fun _ => inr (wire.mkReply 200 "200 OK" [] "" user).

Definition sessionExpired : wire.RoundTrip auth.User :=
  fun _ => inr (wire.mkReply 401 "401 Unauthorized" [] "" (auth.mkUser "" "" "" false [])).

End scenario.

(** ** Go's unicode/utf8 and unicode/utf16 *)

Module utf8.
Local Open Scope N_scope.

Definition RuneError : N := 0xFFFD.
Definition RuneSelf : N := 0x80.
Definition MaxRune : N := 0x10FFFF.

Definition surrogateMin : N := 0xD800.
Definition surrogateMax : N := 0xDFFF.

Definition t2 : N := 0xC0.
Definition t3 : N := 0xE0.
Definition t4 : N := 0xF0.
Definition tx : N := 0x80.

Definition maskx : N := 0x3F.
Definition mask2 : N := 0x1F.
Definition mask3 : N := 0x0F.
Definition mask4 : N := 0x07.

Definition rune1Max : N := 0x7F.
Definition rune2Max : N := 0x7FF.
Definition rune3Max : N := 0xFFFF.

Definition locb : N := 0x80.
Definition hicb : N := 0xBF.

(** The entries of the table [first]: [xx] marks a byte that starts no
    sequence, [as] an ASCII byte; the other entries hold the length of the
    sequence in their low bits and the index of the range of the second
    byte in their high bits. *)
Definition xx : N := 0xF1.
Definition as' : N := 0xF0.

(** [first[b]], the table written by its ranges. *)
Definition first (b : N) : N :=
  if b <? 0x80 then as'
  else if b <? 0xC2 then xx
  else if b <? 0xE0 then 0x02
  else if b =? 0xE0 then 0x13
  else if b <? 0xED then 0x03
  else if b =? 0xED then 0x23
  else if b <? 0xF0 then 0x03
  else if b =? 0xF0 then 0x34
  else if b <? 0xF4 then 0x04
  else if b =? 0xF4 then 0x44
  else xx.

(** [acceptRanges[i]]: the bounds of the second byte of a sequence. *)
Definition acceptRanges (i : N) : N * N :=
  match i with
  | 0 => (locb, hicb)
  | 1 => (0xA0, hicb)
  | 2 => (locb, 0x9F)
  | 3 => (0x90, hicb)
  | 4 => (locb, 0x8F)
  | _ => (0, 0)
  end.

(** [s[i]]. *)
Definition at' (s : string) (i : nat) : N :=
  match String.get i s with
  | Some c => N_of_ascii c
  | None => 0
  end.

(** [DecodeRuneInString] (and [DecodeRune]): the first rune of [s] and the
    number of bytes it takes; [(RuneError, 1)] for a byte that starts no
    well-formed sequence. *)
Definition DecodeRuneInString (s : string) : N * nat :=
  let n := String.length s in
  if (n <? 1)%nat then (RuneError, 0%nat)
  else
    let s0 := at' s 0 in
    let x := first s0 in
    if as' <=? x then ((if x =? xx then RuneError else s0), 1%nat)
    else
      let sz := N.to_nat (N.land x 7) in
      let accept := acceptRanges (N.shiftr x 4) in
      if (n <? sz)%nat then (RuneError, 1%nat)
      else
        let s1 := at' s 1 in
        if (s1 <? fst accept) || (snd accept <? s1) then (RuneError, 1%nat)
        else if (sz <=? 2)%nat then
          (N.lor (N.shiftl (N.land s0 mask2) 6) (N.land s1 maskx), 2%nat)
        else
          let s2 := at' s 2 in
          if (s2 <? locb) || (hicb <? s2) then (RuneError, 1%nat)
          else if (sz <=? 3)%nat then
            (N.lor (N.lor (N.shiftl (N.land s0 mask3) 12) (N.shiftl (N.land s1 maskx) 6))
                   (N.land s2 maskx), 3%nat)
          else
            let s3 := at' s 3 in
            if (s3 <? locb) || (hicb <? s3) then (RuneError, 1%nat)
            else
              (N.lor (N.lor (N.lor (N.shiftl (N.land s0 mask4) 18)
                                   (N.shiftl (N.land s1 maskx) 12))
                            (N.shiftl (N.land s2 maskx) 6))
                     (N.land s3 maskx), 4%nat).

(** [byte(x)]: the low eight bits. *)
Definition byte (x : N) : N := x mod 256.

Definition bytes (l : list N) : string :=
  string_of_list_ascii (map ascii_of_N l).

(** [AppendRune] (and [EncodeRune]): the bytes of a rune; a rune out of
    range or in the range of the surrogates is written as [RuneError]. *)
Definition AppendRune (r : N) : string :=
  if r <=? rune1Max then bytes [byte r]
  else if r <=? rune2Max then
    bytes [N.lor t2 (byte (N.shiftr r 6)); N.lor tx (N.land (byte r) maskx)]
  else
    let r := if (MaxRune <? r) || ((surrogateMin <=? r) && (r <=? surrogateMax))
             then RuneError else r in
    if r <=? rune3Max then
      bytes [N.lor t3 (byte (N.shiftr r 12));
             N.lor tx (N.land (byte (N.shiftr r 6)) maskx);
             N.lor tx (N.land (byte r) maskx)]
    else
      bytes [N.lor t4 (byte (N.shiftr r 18));
             N.lor tx (N.land (byte (N.shiftr r 12)) maskx);
             N.lor tx (N.land (byte (N.shiftr r 6)) maskx);
             N.lor tx (N.land (byte r) maskx)].

Definition within (accept : N * N) (c : ascii) : bool :=
  negb ((N_of_ascii c <? fst accept) || (snd accept <? N_of_ascii c)).

(** [ValidString]: whether [s] consists of well-formed sequences only. *)
Fixpoint ValidString (s : string) : bool :=
  match s with
  | EmptyString => true
  | String c0 rest =>
      let si := N_of_ascii c0 in
      if si <? RuneSelf then ValidString rest
      else
        let x := first si in
        if x =? xx then false
        else
          let accept := acceptRanges (N.shiftr x 4) in
          match N.land x 7, rest with
          | 2, String c1 r1 => within accept c1 && ValidString r1
          | 3, String c1 (String c2 r2) =>
              within accept c1 && within (locb, hicb) c2 && ValidString r2
          | 4, String c1 (String c2 (String c3 r3)) =>
              within accept c1 && within (locb, hicb) c2 && within (locb, hicb) c3
              && ValidString r3
          | _, _ => false
          end
  end.

(** The rune of a sequence of two, three and four bytes, and the bounds
    of the second byte of a sequence, by its first byte. *)
Definition rune2 (c0 c1 : ascii) : N :=
  N.lor (N.shiftl (N.land (N_of_ascii c0) mask2) 6) (N.land (N_of_ascii c1) maskx).

Definition second3 (c0 c1 : ascii) : Prop :=
  (N_of_ascii c0 = 0xE0 /\ 0xA0 <= N_of_ascii c1 <= 0xBF) \/
  ((0xE1 <= N_of_ascii c0 <= 0xEC \/ 0xEE <= N_of_ascii c0 <= 0xEF)
   /\ 0x80 <= N_of_ascii c1 <= 0xBF) \/
  (N_of_ascii c0 = 0xED /\ 0x80 <= N_of_ascii c1 <= 0x9F).

Definition rune3 (c0 c1 c2 : ascii) : N :=
  N.lor (N.lor (N.shiftl (N.land (N_of_ascii c0) mask3) 12)
               (N.shiftl (N.land (N_of_ascii c1) maskx) 6))
        (N.land (N_of_ascii c2) maskx).

Definition second4 (c0 c1 : ascii) : Prop :=
  (N_of_ascii c0 = 0xF0 /\ 0x90 <= N_of_ascii c1 <= 0xBF) \/
  (0xF1 <= N_of_ascii c0 <= 0xF3 /\ 0x80 <= N_of_ascii c1 <= 0xBF) \/
  (N_of_ascii c0 = 0xF4 /\ 0x80 <= N_of_ascii c1 <= 0x8F).

Definition rune4 (c0 c1 c2 c3 : ascii) : N :=
  N.lor (N.lor (N.lor (N.shiftl (N.land (N_of_ascii c0) mask4) 18)
                      (N.shiftl (N.land (N_of_ascii c1) maskx) 12))
               (N.shiftl (N.land (N_of_ascii c2) maskx) 6))
        (N.land (N_of_ascii c3) maskx).

End utf8.

Module utf16.
Local Open Scope N_scope.

Definition replacementChar : N := 0xFFFD.
Definition surr1 : N := 0xd800.
Definition surr2 : N := 0xdc00.
Definition surr3 : N := 0xe000.
Definition surrSelf : N := 0x10000.

Definition IsSurrogate (r : N) : bool := (surr1 <=? r) && (r <? surr3).

(** [DecodeRune]: the rune of a surrogate pair, or [replacementChar]. *)
Definition DecodeRune (r1 r2 : N) : N :=
  if (surr1 <=? r1) && (r1 <? surr2) && (surr2 <=? r2) && (r2 <? surr3)
  then N.lor (N.shiftl (r1 - surr1) 10) (r2 - surr2) + surrSelf
  else replacementChar.

End utf16.

(** ** Go's package time: the calendar and the RFC 3339 text of a time *)

Module calendar.

Definition secondsPerDay : Z := 86400.
Definition daysPer400Years : Z := 365 * 400 + 97.
Definition daysPer100Years : Z := 365 * 100 + 24.
Definition daysPer4Years : Z := 365 * 4 + 1.

Definition isLeap (year : Z) : bool :=
  (year mod 4 =? 0) && (negb (year mod 100 =? 0) || (year mod 400 =? 0)).

(** [daysBefore[m]]: the days of a year that is not a leap year before the
    month after the [m]-th. *)
Definition daysBefore (m : Z) : Z :=
  nth (Z.to_nat m) [0; 31; 59; 90; 120; 151; 181; 212; 243; 273; 304; 334; 365] 0.

Definition daysIn (month year : Z) : Z :=
  if (month =? 2) && isLeap year then 29
  else daysBefore month - daysBefore (month - 1).

(** [absDate] without its second half ([full] not set): the year and
    the day of the year.  Go counts the days from an epoch that lies a
    multiple of 400 years before the year 1, so that the count is never
    negative; here the days are counted from January 1 of the year 1, and
    the divisions round down. *)
Definition absYearDay (days : Z) : Z * Z :=
  let d := days in
  let n := d / daysPer400Years in
  let y := 400 * n in
  let d := d - daysPer400Years * n in
  let n := d / daysPer100Years in
  let n := n - Z.shiftr n 2 in
  let y := y + 100 * n in
  let d := d - daysPer100Years * n in
  let n := d / daysPer4Years in
  let y := y + 4 * n in
  let d := d - daysPer4Years * n in
  let n := d / 365 in
  let n := n - Z.shiftr n 2 in
  let y := y + n in
  let d := d - 365 * n in
  (y + 1, d).

(** The second half of [absDate]: the month and the day of the month of
    a day of the year. *)
Definition monthDay (leap : bool) (yday : Z) : Z * Z :=
  let fromDay (day : Z) :=
    let month := day / 31 in
    let end' := daysBefore (month + 1) in
    if day >=? end' then (month + 1 + 1, day - end' + 1)
    else (month + 1, day - daysBefore month + 1) in
  if leap && (yday >? 31 + 29 - 1) then fromDay (yday - 1)
  else if leap && (yday =? 31 + 29 - 1) then (2, 29)
  else fromDay yday.

(** Whether [monthDay] gives a month and a day of that month, from which
    the day of the year is found again as [Date] counts it. *)
Definition monthDayOK (leap : bool) (yday : Z) : bool :=
  let '(m, d) := monthDay leap yday in
  (1 <=? m) && (m <=? 12) && (1 <=? d)
  && (d <=? (if (m =? 2) && leap then 29 else daysBefore m - daysBefore (m - 1)))
  && (daysBefore (m - 1) + (if leap && (m >=? 3) then 1 else 0) + (d - 1) =? yday).

(** [absDate]: the year, the month and the day of the month of a day. *)
Definition absDate (days : Z) : Z * Z * Z :=
  let '(year, yday) := absYearDay days in
  (year, fst (monthDay (isLeap year) yday), snd (monthDay (isLeap year) yday)).

(** [daysSinceEpoch]: the days before January 1 of [year]. *)
Definition daysSinceEpoch (year : Z) : Z :=
  let y := year - 1 in
  let n := y / 400 in
  let y := y - 400 * n in
  let d := daysPer400Years * n in
  let n := y / 100 in
  let y := y - 100 * n in
  let d := d + daysPer100Years * n in
  let n := y / 4 in
  let y := y - 4 * n in
  let d := d + daysPer4Years * n in
  let n := y in
  d + 365 * n.

(** [Date], for a month, a day and a time of day in their ranges (which is
    how [parseRFC3339] calls it; out of them, Go first carries the excess
    over), in UTC: the instant. *)
Definition Date (year month day hour min sec nsec : Z) : time.Time :=
  let d := daysSinceEpoch year in
  let d := d + daysBefore (month - 1) in
  let d := if isLeap year && (month >=? 3) then d + 1 else d in
  let d := d + (day - 1) in
  let abs := d * secondsPerDay in
  let abs := abs + (hour * 3600 + min * 60 + sec) in
  abs * 1000000000 + nsec.

(** The fields of an instant, read in UTC. *)
Definition abs (t : time.Time) : Z := t / 1000000000.
Definition Nanosecond (t : time.Time) : Z := t mod 1000000000.
Definition Year (t : time.Time) : Z := fst (fst (absDate (abs t / secondsPerDay))).
Definition Month (t : time.Time) : Z := snd (fst (absDate (abs t / secondsPerDay))).
Definition Day (t : time.Time) : Z := snd (absDate (abs t / secondsPerDay)).
Definition Hour (t : time.Time) : Z := (abs t mod secondsPerDay) / 3600.
Definition Minute (t : time.Time) : Z := (abs t mod 3600) / 60.
Definition Second (t : time.Time) : Z := abs t mod 60.

End calendar.

Module rfc3339.
Import calendar.

Definition digit (n : Z) : ascii := ascii_of_N (48 + Z.to_N n).

(** [appendInt(b, x, width)] for [0 <= x]: the last [width] decimal digits
    of [x], most significant first. *)
Fixpoint appendInt (x : Z) (width : nat) : string :=
  match width with
  | O => EmptyString
  | S w => String (digit ((x / 10 ^ Z.of_nat w) mod 10)) (appendInt x w)
  end.

(** The digits without the zeros at their end. *)
Fixpoint trimZeros (digits : string) : string :=
  match digits with
  | EmptyString => EmptyString
  | String c rest =>
      match trimZeros rest with
      | EmptyString => if Ascii.eqb c "0" then EmptyString else String c EmptyString
      | kept => String c kept
      end
  end.

(** [appendNano] for the layout [.999999999]: nothing when there are no
    nanoseconds, else the point and the nine digits without the zeros at
    their end. *)
Definition appendNano (nanosec : Z) : string :=
  if nanosec =? 0 then EmptyString
  else String "." (trimZeros (appendInt nanosec 9)).

(** [appendFormatRFC3339] with nanoseconds, for a time in UTC. *)
Definition appendFormatRFC3339 (t : time.Time) : string :=
  String.concat ""
    [appendInt (Year t) 4; "-"; appendInt (Month t) 2; "-"; appendInt (Day t) 2; "T";
     appendInt (Hour t) 2; ":"; appendInt (Minute t) 2; ":"; appendInt (Second t) 2;
     appendNano (Nanosecond t); "Z"]%string.

(** [appendStrictRFC3339]: the text, unless the year does not take exactly
    four digits. *)
Definition appendStrictRFC3339 (t : time.Time) : option string :=
  if (Year t <? 0) || (9999 <? Year t) then None
  else Some (appendFormatRFC3339 t).

Definition isDigit (c : ascii) : bool :=
  ((48 <=? N_of_ascii c) && (N_of_ascii c <=? 57))%N.

Fixpoint atoi (s : string) (x : Z) : option Z :=
  match s with
  | EmptyString => Some x
  | String c rest =>
      if isDigit c then atoi rest (x * 10 + (Z.of_N (N_of_ascii c) - 48)) else None
  end.

(** [parseUint]: the number [s] spells, when [s] holds digits only and the
    number is between [min] and [max]. *)
Definition parseUint (s : string) (min max : Z) : option Z :=
  match atoi s 0 with
  | Some x => if (x <? min) || (max <? x) then None else Some x
  | None => None
  end.

Fixpoint digitsOf (s : string) : string * string :=
  match s with
  | EmptyString => (EmptyString, EmptyString)
  | String c rest =>
      if isDigit c then (String c (fst (digitsOf rest)), snd (digitsOf rest))
      else (EmptyString, s)
  end.

(** [parseNanoseconds] on the digits behind the point: the first nine
    count, and missing ones are zeros. *)
Definition parseNanoseconds (digits : string) : Z :=
  let digits := String.substring 0 9 digits in
  match atoi digits 0 with
  | Some ns => ns * 10 ^ Z.of_nat (9 - String.length digits)
  | None => 0
  end.

Definition isAt (c : ascii) (s : string) (i : nat) : bool :=
  match String.get i s with
  | Some d => Ascii.eqb d c
  | None => false
  end.

(** [parseRFC3339]. *)
Definition parseRFC3339 (s : string) : option time.Time :=
  if (String.length s <? 19)%nat then None
  else
    year ← parseUint (String.substring 0 4 s) 0 9999;
    month ← parseUint (String.substring 5 2 s) 1 12;
    day ← parseUint (String.substring 8 2 s) 1 (daysIn month year);
    hour ← parseUint (String.substring 11 2 s) 0 23;
    min ← parseUint (String.substring 14 2 s) 0 59;
    sec ← parseUint (String.substring 17 2 s) 0 59;
    if negb (isAt "-" s 4 && isAt "-" s 7 && isAt "T" s 10 && isAt ":" s 13 && isAt ":" s 16)
    then None
    else
      let s := String.substring 19 (String.length s - 19) s in
      let '(nsec, s) :=
        match s with
        | String "." (String c rest) =>
            if isDigit c
            then (parseNanoseconds (fst (digitsOf (String c rest))),
                  snd (digitsOf (String c rest)))
            else (0, s)
        | _ => (0, s)
        end in
      let t := Date year month day hour min sec nsec in
      if String.eqb s "Z" then Some t
      else if negb (String.length s =? 6)%nat then None
      else
        hr ← parseUint (String.substring 1 2 s) 0 23;
        mm ← parseUint (String.substring 4 2 s) 0 59;
        if negb ((isAt "-" s 0 || isAt "+" s 0) && isAt ":" s 3) then None
        else
          let zoneOffset := (hr * 60 + mm) * 60 in
          let zoneOffset := if isAt "-" s 0 then - zoneOffset else zoneOffset in
          Some (t - zoneOffset * 1000000000).

End rfc3339.

(** ** Go's strconv: integers in decimal *)

Module strconv.

(** [formatBits] in base 10: the digits of [u], the last one first. *)
Fixpoint formatBits (fuel : nat) (u : Z) (a : string) : string :=
  match fuel with
  | O => a
  | S fuel =>
      if 10 <=? u
      then formatBits fuel (u / 10) (String (rfc3339.digit (u mod 10)) a)
      else String (rfc3339.digit u) a
  end.

(** [AppendInt(dst, i, 10)] for a 64-bit integer, which has at most 20
    digits. *)
Definition AppendInt (i : Z) : string :=
  if i <? 0 then String "-" (formatBits 20 (- i) EmptyString)
  else formatBits 20 i EmptyString.

(** [ParseInt(s, 10, 64)]: the integer [s] spells, with an optional sign;
    nothing for any other text and for an integer out of the range of 64
    bits. *)
Definition ParseInt (s : string) : option Z :=
  let '(neg, digits) :=
    match s with
    | String "-" rest => (true, rest)
    | String "+" rest => (false, rest)
    | _ => (false, s)
    end in
  match digits with
  | EmptyString => None
  | _ =>
      match rfc3339.atoi digits 0 with
      | Some n =>
          let i := if neg then - n else n in
          if (i <? - 2 ^ 63) || (2 ^ 63 - 1 <? i) then None else Some i
      | None => None
      end
  end.

End strconv.

(** ** Go's encoding/json at the type of the cookie map *)

Module encjson.

(** The quote (byte 34) and the backslash (byte 92). *)
Notation quote := ("034"%char) (only parsing).
Notation backslash := ("092"%char) (only parsing).

Definition hex (n : N) : ascii :=
  match String.get (N.to_nat n) "0123456789abcdef" with
  | Some c => c
  | None => "0"%char
  end.

(** [htmlSafeSet[b]]: the ASCII bytes that are written as they are: the
    printable ones (and DEL), without the quote, the backslash and the
    characters [<], [>] and [&]. *)
Definition htmlSafeSet (b : N) : bool :=
  ((0x20 <=? b) && (b <? 0x80)
   && negb ((b =? 34) || (b =? 92) || (b =? 60) || (b =? 62) || (b =? 38)))%N.

(** [s[n:]]. *)
Fixpoint from (n : nat) (s : string) : string :=
  match n, s with
  | S n, String _ rest => from n rest
  | _, _ => s
  end.

(** The escape of an ASCII byte that is not written as it is. *)
Definition escapeByte (b : N) : string :=
  (if (b =? 92) || (b =? 34) then String backslash (String (ascii_of_N b) EmptyString)
   else if b =? 8 then String backslash "b"
   else if b =? 12 then String backslash "f"
   else if b =? 10 then String backslash "n"
   else if b =? 13 then String backslash "r"
   else if b =? 9 then String backslash "t"
   else String backslash
          (String "u" (String "0" (String "0"
             (String (hex (N.shiftr b 4)) (String (hex (N.land b 0xF)) EmptyString))))))%N.

(** What is written for an ASCII byte. *)
Definition written (c : ascii) : string :=
  if htmlSafeSet (N_of_ascii c) then String c EmptyString else escapeByte (N_of_ascii c).

(** The loop of [appendString], with [escapeHTML] set as the [Encoder]
    has it: what is written for [src], between the quotes.  A byte that
    is not valid UTF-8 is written as the escape of U+FFFD. *)
Fixpoint appendStringFrom (fuel : nat) (src : string) : string :=
  match fuel with
  | O => EmptyString
  | S fuel =>
      match src with
      | EmptyString => EmptyString
      | String c rest =>
          let b := N_of_ascii c in
          if (b <? utf8.RuneSelf)%N then
            if htmlSafeSet b then String c (appendStringFrom fuel rest)
            else String.append (escapeByte b) (appendStringFrom fuel rest)
          else
            let '(r, size) := utf8.DecodeRuneInString (String.substring 0 4 src) in
            if (r =? utf8.RuneError)%N && (size =? 1)%nat then
              String backslash
                (String.append "ufffd" (appendStringFrom fuel (from size src)))
            else if (r =? 0x2028)%N || (r =? 0x2029)%N then
              String backslash
                (String.append "u202"
                   (String (hex (N.land r 0xF)) (appendStringFrom fuel (from size src))))
            else
              String.append (String.substring 0 size src)
                            (appendStringFrom fuel (from size src))
      end
  end.

Definition quoted (body : string) : string :=
  String quote (String.append body (String quote EmptyString)).

(** What is written for a string, between the quotes. *)
Definition escaped (src : string) : string := appendStringFrom (String.length src) src.

(** [appendString]. *)
Definition appendString (src : string) : string := quoted (escaped src).

(** *** Encoding *)

Definition member (name value : string) : string :=
  String.append (quoted name) (String ":" value).

Definition encodeBool (b : bool) : string := if b then "true" else "false".

(** A slice of strings: [null] for the slice without elements. *)
Definition encodeStrings (l : list string) : string :=
  match l with
  | [] => "null"
  | _ => String "[" (String.append (String.concat "," (map appendString l)) "]")
  end.

(** [Time.MarshalJSON]. *)
Definition MarshalJSON (t : time.Time) : error + string :=
  match rfc3339.appendStrictRFC3339 t with
  | Some text => inr (quoted text)
  | None => inl JSONError
  end.

(** The struct [http.Cookie]: its fields in their order. *)
Definition encodeCookie (c : http.Cookie) : error + string :=
  match MarshalJSON (http.Expires c) with
  | inl e => inl e
  | inr expires =>
      inr (String "{" (String.append (String.concat ","
             [member "Name" (appendString (http.Name c));
              member "Value" (appendString (http.Value c));
              member "Path" (appendString (http.Path c));
              member "Domain" (appendString (http.Domain c));
              member "Expires" expires;
              member "RawExpires" (appendString (http.RawExpires c));
              member "MaxAge" (strconv.AppendInt (http.MaxAge c));
              member "Secure" (encodeBool (http.Secure c));
              member "HttpOnly" (encodeBool (http.HttpOnly c));
              member "SameSite" (strconv.AppendInt (http.SameSite c));
              member "Raw" (appendString (http.Raw c));
              member "Unparsed" (encodeStrings (http.Unparsed c))]) "}"))
  end.

Definition keyLe (x y : string * http.Cookie) : Prop := Is_true (String.leb (fst x) (fst y)).

#[local] Instance keyLe_dec (x y : string * http.Cookie) : Decision (keyLe x y) :=
  Is_true_dec _.

(** The entries of a map, in the order of their keys. *)
Definition sortedEntries (m : gmap string http.Cookie) : list (string * http.Cookie) :=
  merge_sort keyLe (map_to_list m).

Fixpoint encodeEntries (l : list (string * http.Cookie)) : error + list string :=
  match l with
  | [] => inr []
  | (key, c) :: rest =>
      match encodeCookie c with
      | inl e => inl e
      | inr text =>
          match encodeEntries rest with
          | inl e => inl e
          | inr texts => inr (member (escaped key) text :: texts)
          end
      end
  end.

(** [Encoder.Encode] of a cookie map: the object of its entries and a
    line feed, or the error of the first cookie that cannot be written. *)
Definition Encode (m : gmap string http.Cookie) : error + string :=
  match encodeEntries (sortedEntries m) with
  | inl e => inl e
  | inr texts =>
      inr (String "{" (String.append (String.concat "," texts) (String "}" (String "010" EmptyString))))
  end.

(** What follows a value inside an object or an array: a comma or the
    closing brace or bracket. *)
Definition delimited (rest : string) : Prop :=
  exists r, rest = String "," r \/ rest = String "}" r \/ rest = String "]" r.

(** *** The syntax of a document *)

(** A value as the scanner delimits it: strings and keys are kept as they
    are spelled between their quotes, numbers as their literal. *)
Inductive Value : Type :=
| Null
| Bool (b : bool)
| Number (literal : string)
| Str (raw : string)
| Array (items : list Value)
| Object (members : list (string * Value)).

Definition isSpace (c : ascii) : bool :=
  Ascii.eqb c " " || Ascii.eqb c "009" || Ascii.eqb c "013" || Ascii.eqb c "010".

Fixpoint skipSpace (s : string) : string :=
  match s with
  | String c rest => if isSpace c then skipSpace rest else s
  | EmptyString => s
  end.

Definition isHex (c : ascii) : bool :=
  let n := N_of_ascii c in
  (((48 <=? n) && (n <=? 57)) || ((97 <=? n) && (n <=? 102)) || ((65 <=? n) && (n <=? 70)))%N.

Definition prepend (front : string) (r : option (string * string)) : option (string * string) :=
  match r with
  | Some (body, rest) => Some (String.append front body, rest)
  | None => None
  end.

(** The states of the scanner inside a string: the text up to the closing
    quote, and what follows it.  A control character, an escape that JSON
    does not have, and the end of the input are refused. *)
Fixpoint scanString (s : string) : option (string * string) :=
  match s with
  | EmptyString => None
  | String c rest =>
      if Ascii.eqb c quote then Some (EmptyString, rest)
      else if Ascii.eqb c backslash then
        match rest with
        | String e rest' =>
            if Ascii.eqb e "b" || Ascii.eqb e "f" || Ascii.eqb e "n" || Ascii.eqb e "r"
               || Ascii.eqb e "t" || Ascii.eqb e backslash || Ascii.eqb e "/"
               || Ascii.eqb e quote
            then prepend (String c (String e EmptyString)) (scanString rest')
            else if Ascii.eqb e "u" then
              match rest' with
              | String h1 (String h2 (String h3 (String h4 rest''))) =>
                  if isHex h1 && isHex h2 && isHex h3 && isHex h4
                  then prepend (String c (String e (String h1 (String h2 (String h3
                                 (String h4 EmptyString))))))
                               (scanString rest'')
                  else None
              | _ => None
              end
            else None
        | EmptyString => None
        end
      else if (N_of_ascii c <? 0x20)%N then None
      else prepend (String c EmptyString) (scanString rest)
  end.

Definition digits1 (s : string) : option (string * string) :=
  match rfc3339.digitsOf s with
  | (EmptyString, _) => None
  | r => Some r
  end.

(** The states of the scanner inside a number: an optional minus sign, a
    zero or a number without a zero in front, an optional fraction, an
    optional exponent. *)
Definition scanNumber (s : string) : option (string * string) :=
  let '(sign, s) :=
    match s with
    | String "-" rest => ("-"%string, rest)
    | _ => (EmptyString, s)
    end in
  whole ←
    match s with
    | String "0" rest => Some ("0"%string, rest)
    | _ => digits1 s
    end;
  fraction ←
    match snd whole with
    | String "." rest => prepend "." (digits1 rest)
    | _ => Some (EmptyString, snd whole)
    end;
  exponent ←
    match snd fraction with
    | String e rest =>
        if Ascii.eqb e "e" || Ascii.eqb e "E" then
          match rest with
          | String sg rest' =>
              if Ascii.eqb sg "+" || Ascii.eqb sg "-"
              then prepend (String e (String sg EmptyString)) (digits1 rest')
              else prepend (String e EmptyString) (digits1 rest)
          | EmptyString => None
          end
        else Some (EmptyString, snd fraction)
    | EmptyString => Some (EmptyString, snd fraction)
    end;
  Some (String.append sign (String.append (fst whole)
          (String.append (fst fraction) (fst exponent))), snd exponent).

Fixpoint startsWith (word s : string) : bool :=
  match word with
  | EmptyString => true
  | String a word' =>
      match s with
      | String b s' => Ascii.eqb a b && startsWith word' s'
      | EmptyString => false
      end
  end.

(** The states of the scanner inside [true], [false] and [null]. *)
Definition literal (word : string) (v : Value) (s : string) : option (Value * string) :=
  if startsWith word s then Some (v, from (String.length word) s) else None.

Definition maxNestingDepth : N := 10000.

(** The scanner on a value, on the members of an object behind its brace
    and on the elements of an array behind its bracket: the value and what
    follows it, or nothing for a text that is not JSON.  [depth] counts
    the objects and arrays around. *)
Fixpoint value (fuel : nat) (depth : N) (s : string) : option (Value * string) :=
  match fuel with
  | O => None
  | S fuel =>
      match s with
      | EmptyString => None
      | String c rest =>
          if Ascii.eqb c "{" then
            if (maxNestingDepth <? depth + 1)%N then None
            else
              match skipSpace rest with
              | String "}" rest' => Some (Object [], rest')
              | rest' =>
                  match members fuel (depth + 1)%N rest' with
                  | Some (ms, rest'') => Some (Object ms, rest'')
                  | None => None
                  end
              end
          else if Ascii.eqb c "[" then
            if (maxNestingDepth <? depth + 1)%N then None
            else
              match skipSpace rest with
              | String "]" rest' => Some (Array [], rest')
              | rest' =>
                  match elements fuel (depth + 1)%N rest' with
                  | Some (vs, rest'') => Some (Array vs, rest'')
                  | None => None
                  end
              end
          else if Ascii.eqb c quote then
            match scanString rest with
            | Some (raw, rest') => Some (Str raw, rest')
            | None => None
            end
          else if Ascii.eqb c "-" || rfc3339.isDigit c then
            match scanNumber s with
            | Some (lit, rest') => Some (Number lit, rest')
            | None => None
            end
          else if Ascii.eqb c "t" then literal "true" (Bool true) s
          else if Ascii.eqb c "f" then literal "false" (Bool false) s
          else if Ascii.eqb c "n" then literal "null" Null s
          else None
      end
  end
with members (fuel : nat) (depth : N) (s : string)
    : option (list (string * Value) * string) :=
  match fuel with
  | O => None
  | S fuel =>
      match s with
      | String c rest =>
          if Ascii.eqb c quote then
            match scanString rest with
            | Some (key, rest1) =>
                match skipSpace rest1 with
                | String ":" rest2 =>
                    match value fuel depth (skipSpace rest2) with
                    | Some (v, rest3) =>
                        match skipSpace rest3 with
                        | String "," rest4 =>
                            match members fuel depth (skipSpace rest4) with
                            | Some (ms, rest5) => Some ((key, v) :: ms, rest5)
                            | None => None
                            end
                        | String "}" rest4 => Some ([(key, v)], rest4)
                        | _ => None
                        end
                    | None => None
                    end
                | _ => None
                end
            | None => None
            end
          else None
      | EmptyString => None
      end
  end
with elements (fuel : nat) (depth : N) (s : string) : option (list Value * string) :=
  match fuel with
  | O => None
  | S fuel =>
      match value fuel depth s with
      | Some (v, rest1) =>
          match skipSpace rest1 with
          | String "," rest2 =>
              match elements fuel depth (skipSpace rest2) with
              | Some (vs, rest3) => Some (v :: vs, rest3)
              | None => None
              end
          | String "]" rest2 => Some ([v], rest2)
          | _ => None
          end
      | None => None
      end
  end.

(** A text without quote, backslash and control character. *)
Definition plainChar (c : ascii) : bool :=
  negb (Ascii.eqb c quote) && negb (Ascii.eqb c backslash) && negb (N_of_ascii c <? 0x20)%N.

Fixpoint plain (s : string) : bool :=
  match s with
  | EmptyString => true
  | String c rest => plainChar c && plain rest
  end.

(** The scanner reads [text], when a delimiter follows it, as the value
    [v]. *)
Definition reads (fuel : nat) (depth : N) (text : string) (v : Value) : Prop :=
  forall more, delimited more ->
    skipSpace (String.append text more) = String.append text more /\
    value fuel depth (String.append text more) = Some (v, more).

(** The value that the scanner finds in what [encodeStrings] writes. *)
Definition stringsValue (l : list string) : Value :=
  match l with
  | [] => Null
  | _ => Array (map (fun s => Str (escaped s)) l)
  end.

(** The members that the scanner finds in what [encodeCookie] writes. *)
Definition cookieMembers (c : http.Cookie) : list (string * Value) :=
  [("Name", Str (escaped (http.Name c)));
   ("Value", Str (escaped (http.Value c)));
   ("Path", Str (escaped (http.Path c)));
   ("Domain", Str (escaped (http.Domain c)));
   ("Expires", Str (rfc3339.appendFormatRFC3339 (http.Expires c)));
   ("RawExpires", Str (escaped (http.RawExpires c)));
   ("MaxAge", Number (strconv.AppendInt (http.MaxAge c)));
   ("Secure", Bool (http.Secure c));
   ("HttpOnly", Bool (http.HttpOnly c));
   ("SameSite", Number (strconv.AppendInt (http.SameSite c)));
   ("Raw", Str (escaped (http.Raw c)));
   ("Unparsed", stringsValue (http.Unparsed c))]%string.

(** The members that the scanner finds in what [Encode] writes for the
    entries of a map, and the fuel that finding them takes at most. *)
Definition entryMember (entry : string * http.Cookie) : string * Value :=
  (escaped (fst entry), Object (cookieMembers (snd entry))).

Fixpoint entriesFuel (l : list (string * http.Cookie)) : nat :=
  match l with
  | [] => O
  | entry :: rest => 16 + length (http.Unparsed (snd entry)) + entriesFuel rest
  end.

(** *** Unquoting *)

Definition hexValue (c : ascii) : option N :=
  let n := N_of_ascii c in
  (if (48 <=? n) && (n <=? 57) then Some (n - 48)
   else if (97 <=? n) && (n <=? 102) then Some (n - 97 + 10)
   else if (65 <=? n) && (n <=? 70) then Some (n - 65 + 10)
   else None)%N.

(** [getu4]: the number that the four hexadecimal digits of an escape
    [\uXXXX] at the start of [s] spell. *)
Definition getu4 (s : string) : option N :=
  match s with
  | String b (String u (String h1 (String h2 (String h3 (String h4 _))))) =>
      if Ascii.eqb b backslash && Ascii.eqb u "u" then
        d1 ← hexValue h1; d2 ← hexValue h2; d3 ← hexValue h3; d4 ← hexValue h4;
        Some (((d1 * 16 + d2) * 16 + d3) * 16 + d4)%N
      else None
  | _ => None
  end.

Definition consTo (c : ascii) (r : option string) : option string :=
  match r with
  | Some s => Some (String c s)
  | None => None
  end.

Definition appendTo (front : string) (r : option string) : option string :=
  match r with
  | Some s => Some (String.append front s)
  | None => None
  end.

(** The loop of [unquoteBytes] on the text between the quotes: escapes are
    replaced by what they stand for, and bytes that are not valid UTF-8 by
    U+FFFD.  (The shortcut of Go for a text without escapes returns the
    same bytes.) *)
Fixpoint unquoteFrom (fuel : nat) (s : string) : option string :=
  match fuel with
  | O => match s with EmptyString => Some EmptyString | _ => None end
  | S fuel =>
      match s with
      | EmptyString => Some EmptyString
      | String c rest =>
          if Ascii.eqb c backslash then
            match rest with
            | EmptyString => None
            | String e rest' =>
                if Ascii.eqb e quote || Ascii.eqb e backslash || Ascii.eqb e "/"
                   || Ascii.eqb e "'"
                then consTo e (unquoteFrom fuel rest')
                else if Ascii.eqb e "b" then consTo "008" (unquoteFrom fuel rest')
                else if Ascii.eqb e "f" then consTo "012" (unquoteFrom fuel rest')
                else if Ascii.eqb e "n" then consTo "010" (unquoteFrom fuel rest')
                else if Ascii.eqb e "r" then consTo "013" (unquoteFrom fuel rest')
                else if Ascii.eqb e "t" then consTo "009" (unquoteFrom fuel rest')
                else if Ascii.eqb e "u" then
                  match getu4 s with
                  | None => None
                  | Some rr =>
                      let after := from 6 s in
                      if utf16.IsSurrogate rr then
                        let dec :=
                          match getu4 after with
                          | Some rr1 => utf16.DecodeRune rr rr1
                          | None => utf16.replacementChar
                          end in
                        if negb (dec =? utf16.replacementChar)%N
                        then appendTo (utf8.AppendRune dec) (unquoteFrom fuel (from 6 after))
                        else appendTo (utf8.AppendRune utf16.replacementChar)
                                      (unquoteFrom fuel after)
                      else appendTo (utf8.AppendRune rr) (unquoteFrom fuel after)
                  end
                else None
            end
          else if Ascii.eqb c quote || (N_of_ascii c <? 0x20)%N then None
          else if (N_of_ascii c <? utf8.RuneSelf)%N then consTo c (unquoteFrom fuel rest)
          else
            let '(rr, size) := utf8.DecodeRuneInString s in
            appendTo (utf8.AppendRune rr) (unquoteFrom fuel (from size s))
      end
  end.

Definition unquote (s : string) : option string := unquoteFrom (String.length s) s.

(** *** Storing a value *)

(** A string: [null] changes nothing, a value that is no string is an
    error and changes nothing. *)
Definition storeString (v : Value) (old : string) : string * option error :=
  match v with
  | Str raw =>
      match unquote raw with
      | Some s => (s, None)
      | None => (old, Some JSONError)
      end
  | Null => (old, None)
  | _ => (old, Some JSONError)
  end.

Definition storeInt (v : Value) (old : Z) : Z * option error :=
  match v with
  | Number lit =>
      match strconv.ParseInt lit with
      | Some i => (i, None)
      | None => (old, Some JSONError)
      end
  | Null => (old, None)
  | _ => (old, Some JSONError)
  end.

Definition storeBool (v : Value) (old : bool) : bool * option error :=
  match v with
  | Bool b => (b, None)
  | Null => (old, None)
  | _ => (old, Some JSONError)
  end.

(** [Time.UnmarshalJSON]: the text between the quotes is read as it is
    spelled, without unquoting.  A text that [parseRFC3339] refuses goes to
    the general parser of layouts in Go, which accepts a few spellings
    more; here it is an error. *)
Definition UnmarshalJSON (v : Value) (old : time.Time) : time.Time * option error :=
  match v with
  | Null => (old, None)
  | Str raw =>
      match rfc3339.parseRFC3339 raw with
      | Some t => (t, None)
      | None => (old, Some JSONError)
      end
  | _ => (old, Some JSONError)
  end.

Definition firstError (e1 e2 : option error) : option error :=
  match e1 with
  | Some e => Some e
  | None => e2
  end.

(** A slice of strings: an array gives its elements, [null] the slice
    without elements. *)
Fixpoint storeItems (items : list Value) : list string * option error :=
  match items with
  | [] => ([], None)
  | v :: rest =>
      let '(s, e1) := storeString v EmptyString in
      let '(l, e2) := storeItems rest in
      (s :: l, firstError e1 e2)
  end.

Definition storeStrings (v : Value) (old : list string) : list string * option error :=
  match v with
  | Array items => storeItems items
  | Null => ([], None)
  | _ => (old, Some JSONError)
  end.

Inductive Field : Type :=
| FName | FValue | FPath | FDomain | FExpires | FRawExpires | FMaxAge | FSecure
| FHttpOnly | FSameSite | FRaw | FUnparsed.

Definition fields : list (string * Field) :=
  [("Name", FName); ("Value", FValue); ("Path", FPath); ("Domain", FDomain);
   ("Expires", FExpires); ("RawExpires", FRawExpires); ("MaxAge", FMaxAge);
   ("Secure", FSecure); ("HttpOnly", FHttpOnly); ("SameSite", FSameSite);
   ("Raw", FRaw); ("Unparsed", FUnparsed)]%string.

(** [foldName]: ASCII letters in upper case; of the other runes, the two
    that are equal to an ASCII letter when case is ignored become that
    letter (U+017F an S, U+212A a K); the fold of any other rune is a rune
    outside ASCII again, for which the rune itself is written here. *)
Fixpoint foldNameFrom (fuel : nat) (s : string) : string :=
  match fuel with
  | O => EmptyString
  | S fuel =>
      match s with
      | EmptyString => EmptyString
      | String c rest =>
          let n := N_of_ascii c in
          if (n <? utf8.RuneSelf)%N then
            String (if (97 <=? n) && (n <=? 122) then ascii_of_N (n - 32) else c)%N
                   (foldNameFrom fuel rest)
          else
            let '(r, size) := utf8.DecodeRuneInString s in
            String.append
              (if (r =? 0x17F)%N then "S"%string
               else if (r =? 0x212A)%N then "K"%string
               else utf8.AppendRune r)
              (foldNameFrom fuel (from size s))
      end
  end.

Definition foldName (s : string) : string := foldNameFrom (String.length s) s.

(** The field for a key: the one of that very name, or else the first one
    whose name is the key when case is ignored. *)
Definition fieldFor (key : string) : option Field :=
  match find (fun f => String.eqb (fst f) key) fields with
  | Some f => Some (snd f)
  | None =>
      match find (fun f => String.eqb (foldName (fst f)) (foldName key)) fields with
      | Some f => Some (snd f)
      | None => None
      end
  end.

Definition zero : http.Cookie :=
  http.mkCookie EmptyString EmptyString EmptyString EmptyString 0 EmptyString 0 false false 0
                EmptyString [].

Definition store (f : Field) (v : Value) (c : http.Cookie) : http.Cookie * option error :=
  let '(http.mkCookie name value path domain expires rawExpires maxAge secure httpOnly
                      sameSite raw unparsed) := c in
  match f with
  | FName => let '(x, e) := storeString v name in
      (http.mkCookie x value path domain expires rawExpires maxAge secure httpOnly
                     sameSite raw unparsed, e)
  | FValue => let '(x, e) := storeString v value in
      (http.mkCookie name x path domain expires rawExpires maxAge secure httpOnly
                     sameSite raw unparsed, e)
  | FPath => let '(x, e) := storeString v path in
      (http.mkCookie name value x domain expires rawExpires maxAge secure httpOnly
                     sameSite raw unparsed, e)
  | FDomain => let '(x, e) := storeString v domain in
      (http.mkCookie name value path x expires rawExpires maxAge secure httpOnly
                     sameSite raw unparsed, e)
  | FExpires => let '(x, e) := UnmarshalJSON v expires in
      (http.mkCookie name value path domain x rawExpires maxAge secure httpOnly
                     sameSite raw unparsed, e)
  | FRawExpires => let '(x, e) := storeString v rawExpires in
      (http.mkCookie name value path domain expires x maxAge secure httpOnly
                     sameSite raw unparsed, e)
  | FMaxAge => let '(x, e) := storeInt v maxAge in
      (http.mkCookie name value path domain expires rawExpires x secure httpOnly
                     sameSite raw unparsed, e)
  | FSecure => let '(x, e) := storeBool v secure in
      (http.mkCookie name value path domain expires rawExpires maxAge x httpOnly
                     sameSite raw unparsed, e)
  | FHttpOnly => let '(x, e) := storeBool v httpOnly in
      (http.mkCookie name value path domain expires rawExpires maxAge secure x
                     sameSite raw unparsed, e)
  | FSameSite => let '(x, e) := storeInt v sameSite in
      (http.mkCookie name value path domain expires rawExpires maxAge secure httpOnly
                     x raw unparsed, e)
  | FRaw => let '(x, e) := storeString v raw in
      (http.mkCookie name value path domain expires rawExpires maxAge secure httpOnly
                     sameSite x unparsed, e)
  | FUnparsed => let '(x, e) := storeStrings v unparsed in
      (http.mkCookie name value path domain expires rawExpires maxAge secure httpOnly
                     sameSite raw x, e)
  end.

(** The members of an object, stored one after the other into a struct;
    a key that names no field is passed over. *)
Fixpoint storeMembers (ms : list (string * Value)) (c : http.Cookie)
    : http.Cookie * option error :=
  match ms with
  | [] => (c, None)
  | (key, v) :: rest =>
      match unquote key with
      | None => (c, Some JSONError)
      | Some key =>
          match fieldFor key with
          | Some f =>
              let '(c, e1) := store f v c in
              let '(c, e2) := storeMembers rest c in
              (c, firstError e1 e2)
          | None => storeMembers rest c
          end
      end
  end.

(** An element of the map: an object is stored into a new cookie; any
    other value but [null] is an error and leaves a new cookie as it is.
    For [null] Go stores a pointer that points nowhere, which the map of
    this development, a map of cookies, cannot hold: the entry is left out
    here, and reported. *)
Definition storeCookie (v : Value) : option http.Cookie * option error :=
  match v with
  | Object ms => let '(c, e) := storeMembers ms zero in (Some c, e)
  | Null => (None, Some JSONError)
  | _ => (Some zero, Some JSONError)
  end.

Fixpoint storeEntries (ms : list (string * Value)) (m : gmap string http.Cookie)
    : gmap string http.Cookie * option error :=
  match ms with
  | [] => (m, None)
  | (key, v) :: rest =>
      match unquote key with
      | None => (m, Some JSONError)
      | Some key =>
          let '(c, e1) := storeCookie v in
          let m := match c with Some c => <[key := c]> m | None => m end in
          let '(m, e2) := storeEntries rest m in
          (m, firstError e1 e2)
      end
  end.

(** [Decoder.Decode] into a cookie map: the first value of the document
    is read; when it is not JSON, or is neither an object nor [null], the
    map is left as it is; [null] empties the map; the members of an object
    are stored into it, and the first error met on the way is reported
    after all of them have been stored. *)
Definition Decode (data : string) (m : gmap string http.Cookie)
    : gmap string http.Cookie * option error :=
  match value (S (String.length data)) 0 (skipSpace data) with
  | None => (m, Some JSONError)
  | Some (Object ms, _) => storeEntries ms m
  | Some (Null, _) => (∅, None)
  | Some (_, _) => (m, Some JSONError)
  end.

(** *** The cookies that are written without loss *)

Definition int64 (i : Z) : bool := (- 2 ^ 63 <=? i) && (i <=? 2 ^ 63 - 1).

(** A cookie whose texts are valid UTF-8 and whose numbers are in the range
    of Go's [int]. *)
Definition representable (c : http.Cookie) : bool :=
  utf8.ValidString (http.Name c) && utf8.ValidString (http.Value c)
  && utf8.ValidString (http.Path c) && utf8.ValidString (http.Domain c)
  && utf8.ValidString (http.RawExpires c) && utf8.ValidString (http.Raw c)
  && forallb utf8.ValidString (http.Unparsed c)
  && int64 (http.MaxAge c) && int64 (http.SameSite c).

Definition representableEntry (entry : string * http.Cookie) : bool :=
  utf8.ValidString (fst entry) && representable (snd entry).

Definition allRepresentable (m : gmap string http.Cookie) : Prop :=
  forall key c, m !! key = Some c -> representableEntry (key, c) = true.

(** The codec of the cookie file. *)
Definition codec : json.Codec := json.mkCodec Encode Decode.

End encjson.

(** * Properties *)

Section UploadDimensions.
Import image upload.

Lemma Resize_exact (img : Image) (w h : Z) :
  0 < Dx img -> 0 < Dy img -> 0 < w -> 0 < h ->
  imaging.Resize img w h = mkImage w h.
Proof.
  intros Hx Hy Hw Hh. unfold imaging.Resize.
  destruct (Z.ltb_spec w 0); [lia|]. destruct (Z.ltb_spec h 0); [lia|].
  destruct (Z.eqb_spec w 0); [lia|]. destruct (Z.eqb_spec h 0); [lia|].
  destruct (Z.leb_spec (Dx img) 0); [lia|].
  destruct (Z.leb_spec (Dy img) 0); [lia|].
  reflexivity.
Qed.

End UploadDimensions.

Section UploadProofs.
Import image upload.

Lemma round_half_up_spec (n d : Z) :
  0 < d ->
  2 * d * imaging.round_half_up n d <= 2 * n + d < 2 * d * (imaging.round_half_up n d + 1).
Proof.
  intros Hd. unfold imaging.round_half_up.
  pose proof (Z.div_mod (2 * n + d) (2 * d) ltac:(lia)) as Hdm.
  pose proof (Z.mod_pos_bound (2 * n + d) (2 * d) ltac:(lia)) as Hm.
  lia.
Qed.

(** The side computed by [imaging.Resize] when the other one is fixed to
    [target]: [short] and [long] are the matching sides of the source. *)
Lemma kept_side_bounds (target short long : Z) :
  0 < short -> short <= long -> 0 < target ->
  let side := Z.max 1 (imaging.round_half_up (target * short) long) in
  1 <= side <= target /\
  Z.abs (side * long - target * short) < long /\
  ((target * short) mod long = 0 -> side * long = target * short).
Proof.
  intros Hs Hl Ht side.
  pose proof (round_half_up_spec (target * short) long ltac:(lia)) as Hr.
  set (q := imaging.round_half_up (target * short) long) in *.
  assert (Hp0 : 0 < target * short) by nia.
  assert (Hpl : target * short <= target * long) by nia.
  set (p := target * short) in *. clearbody p q.
  assert (Hq0 : 0 <= q).
  { destruct (Z.le_gt_cases 0 q) as [|Hneg]; [assumption|].
    assert (long * (q + 1) <= 0) by (apply Z.mul_nonneg_nonpos; lia). lia. }
  assert (Hqt : q <= target).
  { destruct (Z.le_gt_cases q target) as [|Hbig]; [assumption|].
    assert (long * (target + 1) <= long * q) by nia. lia. }
  repeat split.
  - subst side. lia.
  - subst side. lia.
  - subst side. destruct (Z.max_spec 1 q) as [[Hlt ->] | [Hle ->]].
    + apply Z.abs_lt. lia.
    + assert (Hq : q = 0 \/ q = 1) by lia.
      apply Z.abs_lt. destruct Hq; subst q; lia.
  - intros Hmod.
    apply Z.mod_divide in Hmod; [|lia]. destruct Hmod as [k Hk].
    assert (Hk1 : 1 <= k) by nia.
    assert (q = k).
    { rewrite Hk in Hr.
      assert (long * (2 * q) <= long * (2 * k + 1)) by lia.
      assert (long * (2 * k + 1) < long * (2 * q + 2)) by lia.
      assert (2 * q <= 2 * k + 1) by nia.
      assert (2 * k + 1 < 2 * q + 2) by nia.
      lia. }
    subst side. rewrite Z.max_r by lia. lia.
Qed.

Lemma Resize_width (img : Image) (w : Z) :
  0 < Dx img -> 0 < Dy img -> 0 < w ->
  imaging.Resize img w 0 =
    mkImage w (Z.max 1 (imaging.round_half_up (w * Dy img) (Dx img))).
Proof.
  intros Hx Hy Hw. unfold imaging.Resize.
  destruct (Z.ltb_spec w 0); [lia|]. destruct (Z.eqb_spec w 0); [lia|].
  destruct (Z.leb_spec (Dx img) 0); [lia|].
  destruct (Z.leb_spec (Dy img) 0); [lia|].
  reflexivity.
Qed.

Lemma Resize_height (img : Image) (h : Z) :
  0 < Dx img -> 0 < Dy img -> 0 < h ->
  imaging.Resize img 0 h =
    mkImage (Z.max 1 (imaging.round_half_up (h * Dx img) (Dy img))) h.
Proof.
  intros Hx Hy Hh. unfold imaging.Resize.
  destruct (Z.ltb_spec h 0); [lia|]. destruct (Z.eqb_spec h 0); [lia|].
  destruct (Z.leb_spec (Dx img) 0); [lia|].
  destruct (Z.leb_spec (Dy img) 0); [lia|].
  reflexivity.
Qed.

(** Both versions of the resizing agree on the size of their result. *)
Lemma resizeInline_resizeImage (img : Image) (noResize : bool) :
  0 < Dx img -> 0 < Dy img ->
  resizeInline img noResize = resizeImage img noResize.
Proof.
  intros Hx Hy. unfold resizeInline, resizeImage, MaxResolution,
    Print1080pWidth, Print1080pHeight.
  destruct noResize; simpl; [reflexivity|].
  destruct ((Dx img >? 2048) || (Dy img >? 2048)) eqn:Hbig;
    destruct (Z.gtb_spec (Dx img) (Dy img)).
  - rewrite Resize_width by lia. rewrite !Resize_exact; simpl; lia || reflexivity.
  - rewrite Resize_height by lia. rewrite !Resize_exact; simpl; lia || reflexivity.
  - reflexivity.
  - reflexivity.
Qed.

(** What a successful [prepareImage] has gone through. *)
Lemma decodeThen_Ok (png_Encode : Image -> option Z) (resize : Image -> bool -> Image)
    (file : option SourceFile) (noResize : bool) (out : Png) :
  decodeThen png_Encode resize file noResize = Ok out <->
  exists info img,
    file = Some info /\ Size info <= MaxImageSize /\ opens info = true /\
    decoded info = Some img /\
    png_Encode (resize img noResize) = Some (Len out) /\ Len out <= MaxImageSize /\
    Pixels out = resize img noResize.
Proof.
  unfold decodeThen, encodeAndCheck. split.
  - destruct file as [info|]; [|discriminate].
    destruct (Z.gtb_spec (Size info) MaxImageSize); [discriminate|].
    destruct (opens info) eqn:Hopen; [|discriminate]. simpl.
    destruct (decoded info) as [img|] eqn:Hdec; [|discriminate].
    destruct (png_Encode (resize img noResize)) as [len|] eqn:Henc; [|discriminate].
    destruct (Z.gtb_spec len MaxImageSize); [discriminate|].
    intros [= <-]. exists info, img. simpl. repeat split; auto; lia.
  - intros (info & img & -> & Hsize & Hopen & Hdec & Henc & Hlen & Hpix).
    destruct (Z.gtb_spec (Size info) MaxImageSize); [lia|].
    rewrite Hopen, Hdec, Henc. simpl.
    destruct (Z.gtb_spec (Len out) MaxImageSize); [lia|].
    destruct out as [len pix]. simpl in *. now subst.
Qed.

Lemma resizeImage_1080p (img : Image) :
  0 < Dx img -> 0 < Dy img ->
  resizeImage img false =
    if Dx img >? Dy img then mkImage 1920 1080 else mkImage 1080 1920.
Proof.
  intros Hx Hy. unfold resizeImage, Print1080pWidth, Print1080pHeight. simpl.
  destruct (Dx img >? Dy img); apply Resize_exact; lia.
Qed.

(** C1, as amended: an image with positive extents that goes through the
    resizing with [noResize = false] comes out as exactly 1920x1080 when
    its width is strictly greater than its height, and as exactly 1080x1920
    when its width is less than or equal to its height (a square image is
    treated as portrait).  This holds for [resizeImage], for the inline
    resizing of the first [prepareImage], and for the image encoded by
    every successful run of either [prepareImage]. *)
Theorem resize_to_print_target (png_Encode : Image -> option Z)
    (info : SourceFile) (img : Image) :
  decoded info = Some img -> 0 < Dx img -> 0 < Dy img ->
  (Dx img > Dy img ->
     dims (resizeImage img false) = (1920, 1080) /\
     dims (resizeInline img false) = (1920, 1080)) /\
  (Dx img <= Dy img ->
     dims (resizeImage img false) = (1080, 1920) /\
     dims (resizeInline img false) = (1080, 1920)) /\
  (forall out : Png,
     prepareImage png_Encode (Some info) false = Ok out \/
     prepareImageInline png_Encode (Some info) false = Ok out ->
     dims (Pixels out) = if Dx img >? Dy img then (1920, 1080) else (1080, 1920)).
Proof.
  intros Hdec Hx Hy.
  pose proof (resizeImage_1080p img Hx Hy) as Hnew.
  pose proof (resizeInline_resizeImage img false Hx Hy) as Hold.
  split; [|split].
  - intros Hgt. rewrite Hold, Hnew.
    destruct (Z.gtb_spec (Dx img) (Dy img)); [|lia]. split; reflexivity.
  - intros Hle. rewrite Hold, Hnew.
    destruct (Z.gtb_spec (Dx img) (Dy img)); [lia|]. split; reflexivity.
  - intros out Hout.
    assert (Hpix : Pixels out = resizeImage img false).
    { unfold prepareImage, prepareImageInline in Hout.
      destruct Hout as [Hout | Hout];
        apply decodeThen_Ok in Hout;
        destruct Hout as (info' & img' & [= <-] & _ & _ & Hdec' & _ & _ & Hpix);
        rewrite Hdec in Hdec'; injection Hdec' as <-.
      - exact Hpix.
      - rewrite Hpix. now apply resizeInline_resizeImage. }
    rewrite Hpix, Hnew. now destruct (Dx img >? Dy img).
Qed.

Lemma resize_to_print_target_witness :
  let img := mkImage 800 1200 in
  let info := mkSourceFile 4096 true (Some img) in
  (decoded info = Some img /\ 0 < Dx img /\ 0 < Dy img) /\
  dims (resizeImage img false) = (1080, 1920) /\
  prepareImage (fun _ => Some 2048) (Some info) false = Ok (mkPng 2048 (mkImage 1080 1920)).
Proof.
  intros img info.
  assert (Hdec : decoded info = Some img) by reflexivity.
  assert (Hx : 0 < Dx img) by reflexivity.
  assert (Hy : 0 < Dy img) by reflexivity.
  split; [auto|].
  destruct (resize_to_print_target (fun _ => Some 2048) info img Hdec Hx Hy)
    as (_ & Hportrait & _).
  split; [|reflexivity].
  apply Hportrait. simpl. lia.
Defined.

(** C1 as stated fails on a square image: its width is greater than or
    equal to its height, and it comes out as 1080x1920. *)
Lemma square_image_is_resized_as_portrait :
  let img := mkImage 1000 1000 in
  ~ (Dx img >= Dy img -> dims (resizeImage img false) = (1920, 1080)) /\
  ~ (Dx img >= Dy img -> dims (resizeInline img false) = (1920, 1080)) /\
  dims (resizeImage img false) = (1080, 1920).
Proof.
  intros img. split; [|split].
  - intros H. specialize (H ltac:(simpl; lia)). discriminate H.
  - intros H. specialize (H ltac:(simpl; lia)). discriminate H.
  - reflexivity.
Qed.



End UploadProofs.

Section TransportProofs.
Import resty.

(** The outcomes after which the transport built by [client.New] asks for
    another attempt. *)
Lemma retryCondition_spec (r : Response) (e : option error) :
  client.retryCondition r e = true <->
  e <> None \/ StatusCode r = 429 \/ StatusCode r >= 500.
Proof.
  unfold client.retryCondition. destruct e as [e|].
  - split; [intros _; left; discriminate | reflexivity].
  - rewrite orb_true_iff, Z.eqb_eq, Z.geb_le. split.
    + intros [H | H]; right; [left | right]; lia.
    + intros [H | [H | H]]; [congruence | left | right]; lia.
Qed.

Lemma needsRetry_single (condition : RetryConditionFunc) (o : Outcome) :
  needsRetry [condition] o = condition (resp o) (err o).
Proof. unfold needsRetry. simpl. now destruct (condition (resp o) (err o)). Qed.

(** The retry loop: it stops at the first attempt that does not ask for a
    retry, or when the retries are used up. *)
Lemma attemptsFrom_spec (operation : nat -> Outcome) (conds : list RetryConditionFunc)
    (retriesLeft attempt : nat) :
  let (final, last) := attemptsFrom operation conds retriesLeft attempt in
  final = operation last /\
  (attempt <= last <= attempt + retriesLeft)%nat /\
  (forall i, (attempt <= i < last)%nat -> needsRetry conds (operation i) = true) /\
  ((last < attempt + retriesLeft)%nat -> needsRetry conds (operation last) = false).
Proof.
  revert attempt. induction retriesLeft as [|n IH]; intros attempt; simpl.
  - destruct (needsRetry conds (operation attempt)) eqn:Hneeds; simpl;
      repeat split; try lia; intros; lia.
  - destruct (needsRetry conds (operation attempt)) eqn:Hneeds; simpl.
    + specialize (IH (S attempt)).
      destruct (attemptsFrom operation conds n (S attempt)) as [final last].
      destruct IH as (Hfinal & Hrange & Hbefore & Hstop).
      repeat split; try lia; try assumption.
      * intros i Hi. destruct (Nat.eq_dec i attempt) as [-> | Hne];
          [assumption | apply Hbefore; lia].
      * intros Hlt. apply Hstop. lia.
    + repeat split; try lia; intros; assumption.
Qed.

Lemma New_retry_settings (authClient : Client) :
  RetryCount (client.New authClient) = 3%nat /\
  RetryConditions (client.New authClient) = [client.retryCondition] /\
  Timeout (client.New authClient) = 30 * time.Second /\
  RetryWaitTime (client.New authClient) = 1 * time.Second /\
  RetryMaxWaitTime (client.New authClient) = 10 * time.Second.
Proof. repeat split. Qed.

(** C5: the transport built by [client.New] asks for a retry exactly after
    an attempt whose round trip failed or whose response has status 429 or
    at least 500; a request makes at most 3 retries, every attempt before
    the last one was such an attempt, and when fewer than 3 retries were
    made the last attempt was not (its outcome is what the caller gets).
    So a 500 followed by a 200 gives the 200 after exactly one retry, and
    a 404 is returned at once, without any retry. *)
Theorem transport_retries_transient_failures (authClient : Client)
    (operation : nat -> Outcome) :
  let transport := client.New authClient in
  let retryable (o : Outcome) :=
    err o <> None \/ StatusCode (resp o) = 429 \/ StatusCode (resp o) >= 500 in
  (forall o, needsRetry (RetryConditions transport) o = true <-> retryable o) /\
  (let (final, retries) := Execute transport operation in
   final = operation retries /\
   (retries <= 3)%nat /\
   (forall i, (i < retries)%nat -> retryable (operation i)) /\
   ((retries < 3)%nat -> ~ retryable (operation retries))) /\
  (operation 0%nat = mkOutcome (mkResponse 500) None ->
   operation 1%nat = mkOutcome (mkResponse 200) None ->
   Execute transport operation = (mkOutcome (mkResponse 200) None, 1%nat)) /\
  (operation 0%nat = mkOutcome (mkResponse 404) None ->
   Execute transport operation = (mkOutcome (mkResponse 404) None, 0%nat)).
Proof.
  intros transport retryable.
  assert (Hneeds : forall o, needsRetry [client.retryCondition] o = true <-> retryable o).
  { intros o. rewrite needsRetry_single. apply retryCondition_spec. }
  split; [exact Hneeds|]. split; [|split].
  - change (Execute transport operation)
      with (attemptsFrom operation [client.retryCondition] 3 0).
    pose proof (attemptsFrom_spec operation [client.retryCondition] 3 0) as Hspec.
    destruct (attemptsFrom operation [client.retryCondition] 3 0) as [final retries].
    destruct Hspec as (Hfinal & Hrange & Hbefore & Hstop).
    repeat split; try lia; try assumption.
    + intros i Hi. apply Hneeds, Hbefore. lia.
    + intros Hlt Hretry. apply Hneeds in Hretry.
      rewrite Hstop in Hretry by lia. discriminate.
  - intros H0 H1.
    change (Execute transport operation)
      with (attemptsFrom operation [client.retryCondition] 3 0).
    simpl. rewrite needsRetry_single, H0. simpl.
    rewrite needsRetry_single, H1. reflexivity.
  - intros H0.
    change (Execute transport operation)
      with (attemptsFrom operation [client.retryCondition] 3 0).
    simpl. rewrite needsRetry_single, H0. reflexivity.
Qed.

End TransportProofs.

Section SessionProofs.
Import os auth.

Lemma answer_calm (w : World) :
  calm w ->
  exists w', answer w = (None, w') /\ files w' = files w /\ umask w' = umask w /\ calm w'.
Proof.
  unfold calm, answer. intros Hcalm.
  destruct (faults w) as [|f rest] eqn:Hf.
  - exists w. repeat split. unfold calm. now rewrite Hf.
  - inversion Hcalm as [|? ? Hhead Hrest]; subst.
    eexists. repeat split. exact Hrest.
Qed.

Lemma answer_cons (w : World) (f : option fault) (rest : list (option fault)) :
  faults w = f :: rest ->
  answer w = (f, mkWorld (files w) (umask w) rest).
Proof. unfold answer. now intros ->. Qed.

Lemma IsAuthenticated_no_cookies (cfg : config.Config) (transport : resty.Client)
    (now : time.Time) :
  IsAuthenticated (mkClient cfg transport ∅) now = false.
Proof. unfold IsAuthenticated. simpl. now rewrite lookup_empty. Qed.

(** C3, as amended: [IsAuthenticated] is true exactly when the cookie map
    has a cookie named auth with a non-empty value whose expiry is absent
    (the zero time) or not before the current instant: an expiry equal to
    the current instant still counts as valid.  In particular it is false
    when the cookie is absent, when its value is empty, and when it has an
    expiry in the past. *)
Theorem IsAuthenticated_iff (c : Client) (now : time.Time) :
  (IsAuthenticated c now = true <->
   exists authCookie : http.Cookie,
     cookies c !! "auth"%string = Some authCookie /\
     http.Value authCookie <> ""%string /\
     (time.IsZero (http.Expires authCookie) = true \/ now <= http.Expires authCookie)) /\
  (cookies c !! "auth"%string = None -> IsAuthenticated c now = false) /\
  (forall authCookie : http.Cookie,
     cookies c !! "auth"%string = Some authCookie ->
     http.Value authCookie = ""%string \/
     (time.IsZero (http.Expires authCookie) = false /\ http.Expires authCookie < now) ->
     IsAuthenticated c now = false).
Proof.
  unfold IsAuthenticated, time.IsZero, time.Before. split; [|split].
  - destruct (cookies c !! "auth"%string) as [ck|].
    + destruct (String.eqb_spec (http.Value ck) "") as [Hempty | Hvalue].
      * split; [discriminate|]. intros (ck' & [= <-] & Hne & _). contradiction.
      * destruct (Z.eqb_spec (http.Expires ck) 0) as [Hzero | Hset]; simpl.
        -- split; [|reflexivity]. intros _. exists ck.
           repeat split; [assumption|]. left. now apply Z.eqb_eq.
        -- destruct (Z.ltb_spec (http.Expires ck) now) as [Hpast | Hfuture].
           ++ split; [discriminate|].
              intros (ck' & [= <-] & _ & [Hz | Hle]); [|lia].
              apply Z.eqb_eq in Hz. contradiction.
           ++ split; [|reflexivity]. intros _. exists ck.
              repeat split; [assumption|]. right. assumption.
    + split; [discriminate|]. intros (ck & Hck & _). discriminate.
  - now intros ->.
  - intros ck -> [-> | [Hset Hpast]]; [reflexivity|].
    destruct (String.eqb (http.Value ck) ""); [reflexivity|].
    rewrite Hset. simpl. now apply Z.ltb_lt in Hpast as ->.
Qed.

(** C3 as stated fails when the expiry of the cookie is the current
    instant: the expiry is neither absent nor strictly in the future, and
    [IsAuthenticated] is true. *)
Lemma expiry_at_current_instant_is_valid :
  let c := mkClient sample.cfg resty.New
             {[ "auth"%string := sample.authCookie "valid_token" 1000 ]} in
  let now := 1000 in
  ~ (IsAuthenticated c now = true <->
     exists authCookie : http.Cookie,
       cookies c !! "auth"%string = Some authCookie /\
       http.Value authCookie <> ""%string /\
       (time.IsZero (http.Expires authCookie) = true \/ now < http.Expires authCookie)).
Proof.
  intros c now [Hif _].
  destruct (Hif eq_refl) as (ck & Hck & _ & Hexp).
  subst c. simpl in Hck. rewrite lookup_singleton_eq in Hck.
  injection Hck as <-. simpl in Hexp. destruct Hexp as [Hz | Hlt]; [discriminate | lia].
Qed.

(** C8: whenever [Logout] returns without error, [IsAuthenticated] is
    false and there is no file at the path of the cookie file, whether a
    file was there before or not; and [Logout] returns without error
    whenever the system refuses nothing, so that an absent file (for which
    the removal reports that it does not exist) is a success that leaves
    the files as they were. *)
Theorem Logout_success (c : Client) (w : World) (now : time.Time) :
  let path := config.CookieFile (config c) in
  let '(e, c', w') := Logout c w in
  (e = None -> IsAuthenticated c' now = false /\ files w' !! path = None) /\
  (calm w -> e = None) /\
  (calm w -> files w !! path = None -> e = None /\ files w' = files w).
Proof.
  intros path. unfold Logout, Remove, bind, ret. simpl. fold path.
  destruct (answer w) as [f w1] eqn:Hanswer.
  destruct f as [f|].
  - simpl. split; [discriminate|].
    split; intros Hcalm; destruct (answer_calm w Hcalm) as (w2 & Hw2 & _); congruence.
  - assert (Hfiles : calm w -> files w1 = files w).
    { intros Hcalm. destruct (answer_calm w Hcalm) as (w2 & Hw2 & Hf & _). congruence. }
    destruct (files w1 !! path) as [file|] eqn:Hfile; simpl.
    + split; [|split].
      * intros _. split; [apply IsAuthenticated_no_cookies | apply lookup_delete_eq].
      * reflexivity.
      * intros Hcalm Hnone. rewrite (Hfiles Hcalm) in Hfile. congruence.
    + split; [|split].
      * intros _. split; [apply IsAuthenticated_no_cookies | assumption].
      * reflexivity.
      * intros Hcalm _. split; [reflexivity | now apply Hfiles].
Qed.

(** C9, on the code: whatever the removal of the file answers, [Logout]
    leaves an empty cookie map, so that [IsAuthenticated] is false
    afterwards; but the cookies of the transport are the ones it had
    before, because [SetCookies(nil)] adds nothing to them and removes
    nothing.  For a logged-in client whose cookie file cannot be removed,
    [Logout] returns the error, the file is still there, and the transport
    still carries the session cookie. *)
Theorem Logout_keeps_transport_cookies :
  (forall (c : Client) (w : World) (now : time.Time),
     let '(e, c', w') := Logout c w in
     cookies c' = ∅ /\
     IsAuthenticated c' now = false /\
     resty.Cookies (httpClient c') = resty.Cookies (httpClient c)) /\
  (let w := sample.world (Some "auth=test_token"%string) [Some EACCES] in
   let '(e, c', w') := Logout sample.loggedIn w in
   e = Some (Errorf "failed to remove cookie file" (PathError EACCES)) /\
   files w' = files w /\
   IsAuthenticated c' 0 = false /\
   resty.Cookies (httpClient c') = [sample.authCookie "test_token" 0]).
Proof.
  split.
  - intros c w now. unfold Logout, Remove, bind, ret. simpl.
    destruct (answer w) as [[f|] w1]; simpl.
    + repeat split; try apply IsAuthenticated_no_cookies; apply app_nil_r.
    + destruct (files w1 !! config.CookieFile (config c)); simpl;
        repeat split; try apply IsAuthenticated_no_cookies; apply app_nil_r.
  - vm_compute. repeat split.
Qed.

(** C10: when the cookie file exists, its opening by [os.Create] is carried
    out and the change of its mode is refused, [saveCookiesToFile] returns
    the error of the mode change, no cookie data has been written, and the
    file is still there with its former mode but without content: what it
    held before is lost, so the state before the call is not kept. *)
Theorem save_truncates_before_chmod {codec : json.Codec} (c : Client) (w : World)
    (old : File) (e : fault) (rest : list (option fault)) :
  let path := config.CookieFile (config c) in
  files w !! path = Some old ->
  faults w = None :: Some e :: rest ->
  let '(err, w') := saveCookiesToFile c w in
  err = Some (PathError e) /\
  files w' !! path = Some (mkFile "" (perm old)) /\
  (forall other : string, other <> path -> files w' !! other = files w !! other) /\
  faults w' = rest /\
  (data old <> ""%string -> files w' !! path <> files w !! path).
Proof.
  intros path Hold Hfaults.
  unfold saveCookiesToFile, Create, Chmod, bind, ret. fold path.
  rewrite (answer_cons w None (Some e :: rest) Hfaults).
  cbn [files umask faults]. rewrite Hold. unfold answer. cbn [files umask faults].
  repeat split.
  - apply lookup_insert_eq.
  - intros other Hother. now apply lookup_insert_ne.
  - intros Hdata. rewrite lookup_insert_eq. intros [= Heq].
    destruct old as [d m]. simpl in *. congruence.
Qed.

Lemma save_truncates_before_chmod_witness :
  let w := sample.world (Some "auth=test_token"%string) [None; Some EPERM] in
  (files w !! sample.cookieFile = Some (mkFile "auth=test_token" 420) /\
   faults w = [None; Some EPERM]) /\
  fst (saveCookiesToFile (codec := sample.codec) sample.loggedIn w) = Some (PathError EPERM) /\
  files (snd (saveCookiesToFile (codec := sample.codec) sample.loggedIn w)) !! sample.cookieFile
    = Some (mkFile "" 420).
Proof.
  intros w.
  assert (Hold : files w !! config.CookieFile (config sample.loggedIn)
                 = Some (mkFile "auth=test_token" 420)) by reflexivity.
  assert (Hfaults : faults w = [None; Some EPERM]) by reflexivity.
  split; [split; assumption|].
  pose proof (save_truncates_before_chmod (codec := sample.codec) sample.loggedIn w
                _ EPERM [] Hold Hfaults) as Hsave.
  destruct (saveCookiesToFile sample.loggedIn w) as [err w'].
  destruct Hsave as (Herr & Hfile & _). split; assumption.
Defined.

(** *** The file operations, one by one *)

Lemma answer_files (w : World) :
  files (snd (answer w)) = files w /\ umask (snd (answer w)) = umask w.
Proof. unfold answer. now destruct (faults w). Qed.

Lemma Create_ok (name : string) (w w' : World) :
  Create name w = (None, w') ->
  exists mode, files w' = <[name := mkFile "" mode]> (files w).
Proof.
  unfold Create, bind, ret. pose proof (answer_files w) as [Hf _].
  destruct (answer w) as [[f|] w1]; [discriminate|]. simpl in Hf.
  intros [= <-]. simpl. rewrite Hf. eauto.
Qed.

Lemma Chmod_ok (name : string) (mode : Z) (w w' : World) :
  Chmod name mode w = (None, w') ->
  exists file, files w !! name = Some file /\
               files w' = <[name := mkFile (data file) mode]> (files w).
Proof.
  unfold Chmod, bind, ret. pose proof (answer_files w) as [Hf _].
  destruct (answer w) as [[f|] w1]; [discriminate|]. simpl in Hf.
  destruct (files w1 !! name) as [file|] eqn:Hfile; [|discriminate].
  intros [= <-]. simpl. rewrite <- Hf. eauto.
Qed.

Lemma Write_ok (name bytes : string) (w w' : World) :
  Write name bytes w = (None, w') ->
  exists file, files w !! name = Some file /\
               files w' = <[name := mkFile (String.append (data file) bytes) (perm file)]> (files w).
Proof.
  unfold Write, bind, ret. pose proof (answer_files w) as [Hf _].
  destruct (answer w) as [[f|] w1]; [discriminate|]. simpl in Hf.
  destruct (files w1 !! name) as [file|] eqn:Hfile; [|discriminate].
  intros [= <-]. simpl. rewrite <- Hf. eauto.
Qed.

Lemma Open_calm (name : string) (w : World) :
  calm w ->
  exists w', files w' = files w /\ calm w' /\
             Open name w = (match files w !! name with
                            | Some _ => None
                            | None => Some ErrNotExist
                            end, w').
Proof.
  intros Hcalm. destruct (answer_calm w Hcalm) as (w1 & Hw1 & Hf & _ & Hcalm1).
  unfold Open, bind, ret. rewrite Hw1, Hf.
  exists w1. destruct (files w !! name); auto.
Qed.

Lemma Read_calm (name : string) (w : World) (file : File) :
  calm w -> files w !! name = Some file ->
  exists w', files w' = files w /\ calm w' /\ Read name w = (inr (data file), w').
Proof.
  intros Hcalm Hfile. destruct (answer_calm w Hcalm) as (w1 & Hw1 & Hf & _ & Hcalm1).
  unfold Read, bind, ret. rewrite Hw1, Hf, Hfile. eauto.
Qed.

(** *** Saving and loading *)

Section Codec.
Context {codec : json.Codec}.

(** What a successful [saveCookiesToFile] leaves: the encoding of the
    cookie map, in a file of mode 0600. *)
Lemma saveCookiesToFile_ok (c : Client) (w w' : World) :
  saveCookiesToFile c w = (None, w') ->
  exists bytes,
    json.Encode (cookies c) = inr bytes /\
    files w' !! config.CookieFile (config c) = Some (mkFile bytes 384).
Proof.
  unfold saveCookiesToFile. set (path := config.CookieFile (config c)).
  unfold bind at 1. destruct (Create path w) as [[e|] w1] eqn:Hcreate.
  { unfold ret. discriminate. }
  apply Create_ok in Hcreate as [mode0 Hw1].
  unfold bind at 1. destruct (Chmod path 384 w1) as [[e|] w2] eqn:Hchmod.
  { unfold ret. discriminate. }
  apply Chmod_ok in Hchmod as (file1 & Hfile1 & Hw2).
  rewrite Hw1, lookup_insert_eq in Hfile1. injection Hfile1 as <-. simpl in Hw2.
  destruct (json.Encode (cookies c)) as [e | bytes].
  { unfold ret. discriminate. }
  intros Hwrite. apply Write_ok in Hwrite as (file2 & Hfile2 & Hw').
  rewrite Hw2, lookup_insert_eq in Hfile2. injection Hfile2 as <-. simpl in Hw'.
  exists bytes. split; [reflexivity|]. rewrite Hw'. apply lookup_insert_eq.
Qed.

(** [loadCookies] when the system refuses nothing. *)
Lemma loadCookies_calm (c : Client) (w : World) :
  calm w ->
  exists w', files w' = files w /\ calm w' /\
    loadCookies c w =
      (match files w !! config.CookieFile (config c) with
       | None => (None, c)
       | Some file =>
           let (m, e) := json.Decode (data file) (cookies c) in
           match e with
           | Some err => (Some err, mkClient (config c) (httpClient c) m)
           | None =>
               (None, mkClient (config c)
                               (resty.SetCookies (cookieSlice m) (httpClient c)) m)
           end
       end, w').
Proof.
  intros Hcalm. unfold loadCookies. set (path := config.CookieFile (config c)).
  destruct (Open_calm path w Hcalm) as (w1 & Hf1 & Hcalm1 & Hopen).
  unfold bind at 1. rewrite Hopen.
  destruct (files w !! path) as [file|] eqn:Hfile.
  - rewrite <- Hf1 in Hfile.
    destruct (Read_calm path w1 file Hcalm1 Hfile) as (w2 & Hf2 & Hcalm2 & Hread).
    unfold bind. rewrite Hread.
    exists w2. split; [congruence|]. split; [assumption|].
    destruct (json.Decode (data file) (cookies c)) as [m [err|]]; reflexivity.
  - simpl. exists w1. auto.
Qed.

(** [loadCookies] hands the failures of opening, of reading and of
    decoding an existing file to its caller. *)
Lemma loadCookies_reports_failures (c : Client) (w : World) (file : File) :
  files w !! config.CookieFile (config c) = Some file ->
  let e := fst (fst (loadCookies c w)) in
  (forall f rest, faults w = Some f :: rest -> e = Some (PathError f)) /\
  (forall f rest, faults w = None :: Some f :: rest -> e = Some (PathError f)) /\
  (calm w -> e = snd (json.Decode (data file) (cookies c))).
Proof.
  intros Hfile e. subst e. split; [|split].
  - intros f rest Hfaults. unfold loadCookies, Open, bind, ret.
    now rewrite (answer_cons w _ _ Hfaults).
  - intros f rest Hfaults. unfold loadCookies, Open, Read, bind, ret.
    rewrite (answer_cons w _ _ Hfaults). cbn [files umask faults].
    rewrite Hfile. unfold answer. reflexivity.
  - intros Hcalm. destruct (loadCookies_calm c w Hcalm) as (w' & _ & _ & ->).
    rewrite Hfile. simpl.
    now destruct (json.Decode (data file) (cookies c)) as [m [err|]].
Qed.

Lemma NewClient_loadCookies (cfg : config.Config) (w : World) :
  NewClient cfg w =
    (snd (fst (loadCookies (unloaded cfg) w)), snd (loadCookies (unloaded cfg) w)).
Proof.
  unfold NewClient, bind, ret, unloaded. cbv zeta. cbn [config httpClient cookies].
  now destruct (loadCookies _ w) as [[e c] w'].
Qed.

(** Loading after saving, for a codec that gives the saved set back from
    the bytes it encodes it to. *)
Lemma load_after_save (c : Client) (w w1 : World) :
  (forall bytes, json.Encode (cookies c) = inr bytes ->
                 json.Decode bytes ∅ = (cookies c, None)) ->
  saveCookiesToFile c w = (None, w1) ->
  calm w1 ->
  let '(e, loaded, w2) := loadCookies (unloaded (config c)) w1 in
  e = None /\
  cookies loaded = cookies c /\
  files w2 = files w1 /\
  fst (NewClient (config c) w1) = loaded.
Proof.
  intros Hcodec Hsave Hcalm.
  apply saveCookiesToFile_ok in Hsave as (bytes & Hbytes & Hfile).
  pose proof (NewClient_loadCookies (config c) w1) as Hnew.
  destruct (loadCookies_calm (unloaded (config c)) w1 Hcalm) as (w2 & Hf2 & _ & Hload).
  rewrite Hload in *. cbn [config unloaded] in *. rewrite Hfile in *.
  cbn [data cookies unloaded] in *. rewrite (Hcodec bytes Hbytes) in *.
  rewrite Hnew. repeat split. assumption.
Qed.

End Codec.

(** C4, on the code: [NewClient] returns the client and the world that
    [loadCookies] leaves and nothing of the error it reports.  With a
    cookie file that cannot be decoded, and with one that cannot be opened,
    [loadCookies] reports the failure, and [NewClient] returns the same
    client, with an empty cookie set, as when there is no file. *)
Theorem NewClient_drops_load_error :
  (forall (codec : json.Codec) (cfg : config.Config) (w : World),
     NewClient cfg w =
       (snd (fst (loadCookies (unloaded cfg) w)), snd (loadCookies (unloaded cfg) w))) /\
  (let w := sample.world (Some "not a cookie file"%string) [] in
   fst (fst (loadCookies (codec := sample.codec) (unloaded sample.cfg) w)) = Some JSONError /\
   NewClient (codec := sample.codec) sample.cfg w = (unloaded sample.cfg, w)) /\
  (let w := sample.world (Some "auth=test_token"%string) [Some EACCES] in
   fst (fst (loadCookies (codec := sample.codec) (unloaded sample.cfg) w))
     = Some (PathError EACCES) /\
   fst (NewClient (codec := sample.codec) sample.cfg w) = unloaded sample.cfg) /\
  (let w := sample.world None [] in
   fst (fst (loadCookies (codec := sample.codec) (unloaded sample.cfg) w)) = None /\
   NewClient (codec := sample.codec) sample.cfg w = (unloaded sample.cfg, w)).
Proof.
  split; [intros codec cfg w; apply NewClient_loadCookies|].
  repeat split.
Qed.

End SessionProofs.


Section EncodingProofs.

Lemma append_cons (c : ascii) (s t : string) :
  String.append (String c s) t = String c (String.append s t).
Proof. reflexivity. Qed.

Lemma escape_byte (c : ascii) (rest : string) :
  url.escape (String c rest) =
  String.append (standard.formEncodeByte c) (url.escape rest).
Proof.
  destruct c as [[] [] [] [] [] [] [] []]; reflexivity.
Qed.

(** [url.QueryEscape] is the encoding of form data. *)
Lemma QueryEscape_formEncode (s : string) :
  url.QueryEscape s = standard.formEncode s.
Proof.
  unfold url.QueryEscape. induction s as [|c rest IH]; [reflexivity|].
  rewrite escape_byte, IH. reflexivity.
Qed.

(** The two encodings part on the space, and nowhere else. *)
Lemma formEncode_percentEncode (s : string) :
  standard.formEncode s = standard.percentEncode s <-> url.oneOf " " s = false.
Proof.
  induction s as [|c rest IH]; [easy|].
  cbn [standard.formEncode standard.percentEncode url.oneOf].
  unfold standard.formEncodeByte. rewrite (Ascii.eqb_sym " " c).
  destruct (Ascii.eqb_spec c " ") as [-> | Hc]; simpl orb.
  - split; [|discriminate]. intros H. exfalso. revert H.
    change (standard.percentEncodeByte " ") with "%20"%string.
    rewrite !append_cons. discriminate.
  - rewrite <- IH. split; [|now intros ->].
    intros H. revert H. generalize (standard.formEncode rest) (standard.percentEncode rest).
    intros x y. unfold standard.percentEncodeByte.
    destruct (standard.unreserved c); rewrite !append_cons;
      change (String.append "" x) with x; change (String.append "" y) with y;
      congruence.
Qed.

Lemma lor_add_low (x y k : N) :
  (y < 2 ^ k)%N -> N.lor (x * 2 ^ k) y = (x * 2 ^ k + y)%N.
Proof.
  intros Hy.
  assert (Hland : N.land (x * 2 ^ k) y = 0%N).
  { apply N.bits_inj_0. intros i. rewrite N.land_spec.
    destruct (N.lt_ge_cases i k) as [Hlt | Hge].
    - now rewrite N.mul_pow2_bits_low.
    - rewrite <- (N.mod_small y (2 ^ k)) by assumption.
      rewrite N.mod_pow2_bits_high by assumption. apply andb_false_r. }
  now rewrite N.add_nocarry_lxor, N.lxor_lor.
Qed.

(** The table of the encoder is the alphabet of the standard. *)
Lemma encodeStd_base64Digit (m : nat) :
  (m < 64)%nat ->
  match String.get m base64.encodeStd with
  | Some c => c
  | None => "A"%char
  end = standard.base64Digit (N.of_nat m).
Proof.
  intros Hm. do 64 (destruct m as [|m]; [reflexivity|]). lia.
Qed.

Lemma encode_base64Digit (v : N) :
  base64.encode v = standard.base64Digit (v mod 64).
Proof.
  unfold base64.encode.
  change 63%N with (N.ones 6). rewrite N.land_ones. change (2 ^ 6)%N with 64%N.
  pose proof (N.mod_upper_bound v 64 ltac:(discriminate)) as Hlt.
  rewrite encodeStd_base64Digit by lia. now rewrite N2Nat.id.
Qed.

Lemma encode_shiftr (group k : N) :
  base64.encode (N.shiftr group k) = standard.base64Digit ((group / 2 ^ k) mod 64).
Proof. now rewrite encode_base64Digit, N.shiftr_div_pow2. Qed.

Lemma group3 (a b c : ascii) :
  N.lor (N.lor (N.shiftl (N_of_ascii a) 16) (N.shiftl (N_of_ascii b) 8)) (N_of_ascii c)
  = (N_of_ascii a * 65536 + N_of_ascii b * 256 + N_of_ascii c)%N.
Proof.
  pose proof (N_ascii_bounded a). pose proof (N_ascii_bounded b).
  pose proof (N_ascii_bounded c).
  rewrite !N.shiftl_mul_pow2.
  rewrite (lor_add_low (N_of_ascii a) _ 16) by (change (2 ^ 16)%N with 65536%N; lia).
  replace (N_of_ascii a * 2 ^ 16 + N_of_ascii b * 2 ^ 8)%N
    with ((N_of_ascii a * 256 + N_of_ascii b) * 2 ^ 8)%N
    by (change (2 ^ 16)%N with 65536%N; change (2 ^ 8)%N with 256%N; lia).
  rewrite lor_add_low by (change (2 ^ 8)%N with 256%N; lia).
  change (2 ^ 8)%N with 256%N. lia.
Qed.

Lemma group2 (a b : ascii) :
  N.lor (N.shiftl (N_of_ascii a) 16) (N.shiftl (N_of_ascii b) 8)
  = (N_of_ascii a * 65536 + N_of_ascii b * 256)%N.
Proof.
  pose proof (N_ascii_bounded b).
  rewrite !N.shiftl_mul_pow2.
  rewrite (lor_add_low (N_of_ascii a) _ 16) by (change (2 ^ 16)%N with 65536%N; lia).
  reflexivity.
Qed.

Lemma base64_blocks (rest : string) :
  (base64.Encode rest = standard.base64 rest) /\
  (forall a, base64.Encode (String a rest) = standard.base64 (String a rest)) /\
  (forall a b, base64.Encode (String a (String b rest))
               = standard.base64 (String a (String b rest))).
Proof.
  induction rest as [|c rest (IH0 & IH1 & IH2)].
  - split; [reflexivity|]. split.
    + intros a. cbn [base64.Encode standard.base64]. unfold standard.sextet.
      rewrite N.shiftl_mul_pow2, !encode_shiftr. reflexivity.
    + intros a b. cbn [base64.Encode standard.base64]. unfold standard.sextet.
      rewrite group2, !encode_shiftr. reflexivity.
  - split; [apply IH1|]. split; [intros a; apply IH2|].
    intros a b. cbn [base64.Encode standard.base64]. unfold standard.sextet.
    rewrite group3, !encode_shiftr, encode_base64Digit, IH0.
    change (64 ^ (3 - 3))%N with 1%N. rewrite N.div_1_r. reflexivity.
Qed.

(** [base64.StdEncoding.EncodeToString] is the base64 of the standard. *)
Lemma EncodeToString_base64 (s : string) :
  base64.EncodeToString s = standard.base64 s.
Proof. apply base64_blocks. Qed.

Lemma oneOf_append (c : ascii) (s t : string) :
  url.oneOf c (String.append s t) = url.oneOf c s || url.oneOf c t.
Proof.
  induction s as [|d s IH]; [reflexivity|].
  simpl. rewrite IH. apply orb_assoc.
Qed.

(** A percent-encoded credential holds no colon, so the colon that joins the
    two credentials is the only one under the base64. *)
Lemma QueryEscape_no_colon (s : string) :
  url.oneOf ":" (url.QueryEscape s) = false.
Proof.
  rewrite QueryEscape_formEncode.
  induction s as [|c rest IH]; [reflexivity|].
  cbn [standard.formEncode]. rewrite oneOf_append, IH, orb_false_r.
  destruct c as [[] [] [] [] [] [] [] []]; reflexivity.
Qed.

(** The cases of TestCreateAuthHeader. *)
Example createAuthHeader_tests :
  auth.createAuthHeader "testuser" "testpass" = "Basic dGVzdHVzZXI6dGVzdHBhc3M="%string /\
  auth.createAuthHeader "test@example.com" "pass123"
    = "Basic dGVzdCU0MGV4YW1wbGUuY29tOnBhc3MxMjM="%string /\
  auth.createAuthHeader "user" "p@ss w0rd!" = "Basic dXNlcjpwJTQwc3MrdzByZCUyMQ=="%string /\
  auth.createAuthHeader "user" "p@ss w0rd!"
    <> String.append "Basic " (base64.EncodeToString "user:p@ss w0rd!").
Proof. repeat split. discriminate. Qed.

(** C2: for every username and password, the header made for the login is
    "Basic " followed by the base64 encoding (standard alphabet, with
    padding) of the encoded username, a colon, and the encoded password:
    each credential is encoded on its own, before the two are joined.  The
    encoding of a credential is percent-encoding except for the space, which
    is written as a plus sign, as in form data; the two differ on nothing
    else, so that for credentials without a space the header is the one over
    percent-encoded credentials, and for no others. *)
Theorem createAuthHeader_spec (username password : string) :
  auth.createAuthHeader username password =
    standard.basicOver standard.formEncode username password /\
  (url.oneOf " " username = false -> url.oneOf " " password = false ->
   auth.createAuthHeader username password
   = standard.basicAuthorization username password) /\
  (standard.formEncode username = standard.percentEncode username <->
   url.oneOf " " username = false) /\
  (standard.formEncode password = standard.percentEncode password <->
   url.oneOf " " password = false).
Proof.
  assert (Hcode : auth.createAuthHeader username password =
                  standard.basicOver standard.formEncode username password).
  { unfold auth.createAuthHeader, standard.basicOver.
    now rewrite EncodeToString_base64, !QueryEscape_formEncode. }
  split; [exact Hcode|]. split; [|split; apply formEncode_percentEncode].
  intros Hu Hp. rewrite Hcode. unfold standard.basicAuthorization, standard.basicOver.
  apply formEncode_percentEncode in Hu, Hp. now rewrite Hu, Hp.
Qed.

(** C2, counterexample: a password with a space.  The code writes the space
    as a plus sign, percent-encoding writes it as %20, and the two headers
    differ. *)
Theorem space_in_password_is_written_as_plus :
  let username := "user"%string in
  let password := "p@ss w0rd!"%string in
  url.QueryEscape password = "p%40ss+w0rd%21"%string /\
  standard.percentEncode password = "p%40ss%20w0rd%21"%string /\
  auth.createAuthHeader username password = "Basic dXNlcjpwJTQwc3MrdzByZCUyMQ=="%string /\
  standard.basicAuthorization username password
    = "Basic dXNlcjpwJTQwc3MlMjB3MHJkJTIx"%string /\
  auth.createAuthHeader username password
    <> standard.basicAuthorization username password.
Proof. repeat split. discriminate. Qed.

End EncodingProofs.


(** * Further properties of the image preparation *)

Section UploadFurther.
Import image upload.

Lemma Resize_of_empty (img : Image) (w h : Z) :
  Dx img <= 0 \/ Dy img <= 0 -> imaging.Resize img w h = mkImage 0 0.
Proof.
  intros Hempty. unfold imaging.Resize.
  destruct ((w <? 0) || (h <? 0)); [reflexivity|].
  destruct ((w =? 0) && (h =? 0)); [reflexivity|].
  destruct (Z.leb_spec (Dx img) 0); [reflexivity|].
  destruct (Z.leb_spec (Dy img) 0); [reflexivity|]. lia.
Qed.

Lemma resizeInline_resizeImage_any (img : Image) (noResize : bool) :
  resizeInline img noResize = resizeImage img noResize.
Proof.
  destruct (Z.le_gt_cases (Dx img) 0) as [Hx | Hx];
    [|destruct (Z.le_gt_cases (Dy img) 0) as [Hy | Hy]].
  3: { apply resizeInline_resizeImage; lia. }
  all: unfold resizeInline, resizeImage, Print1080pWidth, Print1080pHeight;
    destruct noResize; simpl; [reflexivity|];
    destruct ((Dx img >? MaxResolution) || (Dy img >? MaxResolution));
    destruct (Dx img >? Dy img);
    rewrite ?(Resize_of_empty img) by lia;
    rewrite ?Resize_of_empty by (simpl; lia); reflexivity.
Qed.


Lemma resizeImage_bounds (img : Image) (noResize : bool) :
  0 < Dx img -> 0 < Dy img ->
  (noResize = true -> Dx img <= 2048 /\ Dy img <= 2048 -> resizeImage img noResize = img) /\
  1 <= Dx (resizeImage img noResize) <= 2048 /\
  1 <= Dy (resizeImage img noResize) <= 2048.
Proof.
  intros Hx Hy. destruct noResize.
  - unfold resizeImage, MaxResolution. simpl.
    destruct (Z.gtb_spec (Dx img) 2048) as [Hbx | Hsx];
      [|destruct (Z.gtb_spec (Dy img) 2048) as [Hby | Hsy]]; simpl.
    3: { split; [reflexivity | lia]. }
    all: split; [intros _ [? ?]; lia|].
    all: destruct (Z.gtb_spec (Dx img) (Dy img)) as [Hgt | Hle].
    all: rewrite ?Resize_width, ?Resize_height by lia; simpl.
    all: try (destruct (kept_side_bounds 2048 (Dy img) (Dx img)) as (Hb & _); [lia..|]; lia).
    all: destruct (kept_side_bounds 2048 (Dx img) (Dy img)) as (Hb & _); [lia..|]; lia.
  - split; [discriminate|]. rewrite resizeImage_1080p by assumption.
    destruct (Dx img >? Dy img); simpl; lia.
Qed.

(** X2: resizing is idempotent: an image that went through [resizeImage]
    is left as it is by a second pass with the same [noResize], for every
    image, empty ones included. *)
Theorem resizeImage_idempotent (img : Image) (noResize : bool) :
  resizeImage (resizeImage img noResize) noResize = resizeImage img noResize.
Proof.
  destruct (Z.le_gt_cases (Dx img) 0) as [Hx | Hx];
    [|destruct (Z.le_gt_cases (Dy img) 0) as [Hy | Hy]].
  3: { destruct (resizeImage_bounds img noResize) as (_ & Hbx & Hby); try lia.
       destruct noResize.
       - apply (resizeImage_bounds (resizeImage img true) true); lia.
       - rewrite (resizeImage_1080p img) by lia.
         destruct (Dx img >? Dy img); reflexivity. }
  all: unfold resizeImage at 2; unfold Print1080pWidth, Print1080pHeight;
    destruct noResize; simpl;
    destruct ((Dx img >? MaxResolution) || (Dy img >? MaxResolution)) eqn:Hbig;
    destruct (Dx img >? Dy img) eqn:Hgt;
    rewrite ?(Resize_of_empty img) by lia; try reflexivity.
  all: unfold resizeImage; simpl; rewrite ?Hbig, ?Hgt;
    rewrite ?(Resize_of_empty img) by lia; reflexivity.
Qed.

(** X3: every image that [prepareImage] hands over for upload, decoded from
    a source with positive extents, has an encoding of at most 32 MiB and
    both sides between 1 and 2048 pixels, with and without [noResize]. *)
Theorem prepared_image_within_limits (png_Encode : Image -> option Z)
    (info : SourceFile) (img : Image) (noResize : bool) (out : Png) :
  decoded info = Some img -> 0 < Dx img -> 0 < Dy img ->
  prepareImage png_Encode (Some info) noResize = Ok out ->
  Len out <= MaxImageSize /\
  1 <= Dx (Pixels out) <= MaxResolution /\
  1 <= Dy (Pixels out) <= MaxResolution.
Proof.
  intros Hdec Hx Hy Hout. unfold prepareImage in Hout.
  apply decodeThen_Ok in Hout.
  destruct Hout as (info' & img' & [= <-] & _ & _ & Hdec' & _ & Hlen & Hpix).
  rewrite Hdec in Hdec'. injection Hdec' as <-.
  rewrite Hpix. split; [assumption|].
  apply (resizeImage_bounds img noResize Hx Hy).
Qed.

Lemma prepared_image_within_limits_witness :
  let img := mkImage 5000 300 in
  let info := mkSourceFile 1000000 true (Some img) in
  let out := mkPng 4096 (mkImage 2048 123) in
  (decoded info = Some img /\ 0 < Dx img /\ 0 < Dy img /\
   prepareImage (fun _ => Some 4096) (Some info) true = Ok out) /\
  Len out <= MaxImageSize /\
  1 <= Dx (Pixels out) <= MaxResolution /\ 1 <= Dy (Pixels out) <= MaxResolution.
Proof.
  intros img info out.
  assert (Hdec : decoded info = Some img) by reflexivity.
  assert (Hx : 0 < Dx img) by reflexivity.
  assert (Hy : 0 < Dy img) by reflexivity.
  assert (Hout : prepareImage (fun _ => Some 4096) (Some info) true = Ok out) by reflexivity.
  split; [auto|].
  exact (prepared_image_within_limits _ info img true out Hdec Hx Hy Hout).
Defined.

(** X4: with [noResize], an image of at most 2048 pixels on both sides is
    not touched: [resizeImage] returns it as it is, and a successful
    [prepareImage] (either version) encodes exactly the decoded image. *)
Theorem small_image_is_kept (img : Image) :
  Dx img <= MaxResolution -> Dy img <= MaxResolution ->
  resizeImage img true = img /\
  (forall (png_Encode : Image -> option Z) (info : SourceFile) (out : Png),
     decoded info = Some img ->
     prepareImage png_Encode (Some info) true = Ok out \/
     prepareImageInline png_Encode (Some info) true = Ok out ->
     Pixels out = img).
Proof.
  unfold MaxResolution. intros Hx Hy.
  assert (Hkeep : resizeImage img true = img).
  { unfold resizeImage, MaxResolution. simpl.
    destruct (Z.gtb_spec (Dx img) 2048); [lia|].
    destruct (Z.gtb_spec (Dy img) 2048); [lia|]. reflexivity. }
  split; [exact Hkeep|].
  intros enc info out Hdec Hout.
  unfold prepareImage, prepareImageInline in Hout.
  destruct Hout as [Hout | Hout];
    apply decodeThen_Ok in Hout;
    destruct Hout as (info' & img' & [= <-] & _ & _ & Hdec' & _ & _ & Hpix);
    rewrite Hdec in Hdec'; injection Hdec' as <-; rewrite Hpix.
  - exact Hkeep.
  - now rewrite resizeInline_resizeImage_any.
Qed.

Lemma small_image_is_kept_witness :
  let img := mkImage 1000 800 in
  (Dx img <= MaxResolution /\ Dy img <= MaxResolution) /\
  resizeImage img true = img.
Proof.
  intros img.
  assert (Hx : Dx img <= MaxResolution) by discriminate.
  assert (Hy : Dy img <= MaxResolution) by discriminate.
  split; [auto|]. exact (proj1 (small_image_is_kept img Hx Hy)).
Defined.

(** X5: the failures of [prepareImage] in the order of its checks: a file
    that cannot be inspected; then a file above 32 MiB, whatever it holds
    and whether or not it can be opened or decoded; then a file that cannot
    be opened; then one that does not decode; then an image that cannot be
    encoded; then an encoding above 32 MiB. *)
Theorem prepareImage_failures (png_Encode : Image -> option Z)
    (file : option SourceFile) (noResize : bool) :
  (prepareImage png_Encode file noResize = Failed StatFailed <-> file = None) /\
  (forall size,
     prepareImage png_Encode file noResize = Failed (ImageFileTooLarge size) <->
     exists info, file = Some info /\ Size info = size /\ size > MaxImageSize) /\
  (prepareImage png_Encode file noResize = Failed OpenFailed <->
     exists info, file = Some info /\ Size info <= MaxImageSize /\ opens info = false) /\
  (prepareImage png_Encode file noResize = Failed DecodeFailed <->
     exists info, file = Some info /\ Size info <= MaxImageSize /\ opens info = true /\
                  decoded info = None) /\
  (prepareImage png_Encode file noResize = Failed EncodeFailed <->
     exists info img, file = Some info /\ Size info <= MaxImageSize /\ opens info = true /\
                      decoded info = Some img /\
                      png_Encode (resizeImage img noResize) = None) /\
  (forall len,
     prepareImage png_Encode file noResize = Failed (EncodedImageTooLarge len) <->
     exists info img, file = Some info /\ Size info <= MaxImageSize /\ opens info = true /\
                      decoded info = Some img /\
                      png_Encode (resizeImage img noResize) = Some len /\
                      len > MaxImageSize).
Proof.
  unfold prepareImage, decodeThen, encodeAndCheck.
  destruct file as [info|].
  2: { repeat split; try discriminate; try reflexivity;
       try (intros (? & ? & _); discriminate);
       try (intros (? & ? & ? & _); discriminate). }
  destruct (Z.gtb_spec (Size info) MaxImageSize) as [Hbig | Hsmall].
  { repeat split; try discriminate.
    - intros [= <-]. exists info. repeat split. lia.
    - intros (i & [= <-] & <- & _). reflexivity.
    - intros (i & [= <-] & ? & _). lia.
    - intros (i & [= <-] & ? & _). lia.
    - intros (i & ? & [= <-] & ? & _). lia.
    - intros (i & ? & [= <-] & ? & _). lia. }
  destruct (opens info) eqn:Hopen; simpl.
  2: { repeat split; try discriminate.
       - intros (i & [= <-] & <- & ?). lia.
       - intros _. exists info. auto.
       - intros (i & [= <-] & _ & ? & _). congruence.
       - intros (i & ? & [= <-] & _ & ? & _). congruence.
       - intros (i & ? & [= <-] & _ & ? & _). congruence. }
  destruct (decoded info) as [img|] eqn:Hdec.
  2: { repeat split; try discriminate.
       - intros (i & [= <-] & <- & ?). lia.
       - intros (i & [= <-] & _ & ?). congruence.
       - intros _. exists info. auto.
       - intros (i & ? & [= <-] & _ & _ & ? & _). congruence.
       - intros (i & ? & [= <-] & _ & _ & ? & _). congruence. }
  destruct (png_Encode (resizeImage img noResize)) as [len|] eqn:Henc.
  2: { repeat split; try discriminate.
       - intros (i & [= <-] & <- & ?). lia.
       - intros (i & [= <-] & _ & ?). congruence.
       - intros (i & [= <-] & _ & _ & ?). congruence.
       - intros _. exists info, img. auto.
       - intros (i & g & [= <-] & _ & _ & Hd & He & _).
         rewrite Hdec in Hd. injection Hd as <-. congruence. }
  destruct (Z.gtb_spec len MaxImageSize) as [Hlong | Hshort].
  - repeat split; try discriminate.
    + intros (i & [= <-] & <- & ?). lia.
    + intros (i & [= <-] & _ & ?). congruence.
    + intros (i & [= <-] & _ & _ & ?). congruence.
    + intros (i & g & [= <-] & _ & _ & Hd & He).
      rewrite Hdec in Hd. injection Hd as <-. congruence.
    + intros [= <-]. exists info, img. repeat split; auto. lia.
    + intros (i & g & [= <-] & _ & _ & Hd & He & _).
      rewrite Hdec in Hd. injection Hd as <-. congruence.
  - repeat split; try discriminate.
    + intros (i & [= <-] & <- & ?). lia.
    + intros (i & [= <-] & _ & ?). congruence.
    + intros (i & [= <-] & _ & _ & ?). congruence.
    + intros (i & g & [= <-] & _ & _ & Hd & He).
      rewrite Hdec in Hd. injection Hd as <-. congruence.
    + intros (i & g & [= <-] & _ & _ & Hd & He & Hgt).
      rewrite Hdec in Hd. injection Hd as <-. rewrite Henc in He. injection He as <-. lia.
Qed.

End UploadFurther.


(** * Further properties of the retrying transport *)

Section TransportFurther.
Import resty.

(** X6: the outcome of a request sent through the transport of [client.New]
    is the one of its first attempt that does not ask for a retry, or of the
    fourth attempt when the first three all ask for one; the number of
    retries is the number of attempts before it. *)
Theorem first_final_attempt_decides (authClient : Client)
    (operation : nat -> Outcome) (k : nat) :
  let retryable (o : Outcome) :=
    err o <> None \/ StatusCode (resp o) = 429 \/ StatusCode (resp o) >= 500 in
  (k <= 3)%nat ->
  (forall i, (i < k)%nat -> retryable (operation i)) ->
  k = 3%nat \/ ~ retryable (operation k) ->
  Execute (client.New authClient) operation = (operation k, k).
Proof.
  intros retryable Hk Hbefore Hlast.
  assert (Hneeds : forall o, needsRetry [client.retryCondition] o = true <-> retryable o).
  { intros o. rewrite needsRetry_single. apply retryCondition_spec. }
  change (Execute (client.New authClient) operation)
    with (attemptsFrom operation [client.retryCondition] 3 0).
  pose proof (attemptsFrom_spec operation [client.retryCondition] 3 0) as Hspec.
  destruct (attemptsFrom operation [client.retryCondition] 3 0) as [final last].
  destruct Hspec as (Hfinal & Hrange & Hretried & Hstop).
  assert (last = k) as ->; [|now rewrite Hfinal].
  destruct (Nat.lt_trichotomy last k) as [Hlt | [Heq | Hgt]]; [|assumption|].
  - specialize (Hbefore last Hlt). apply Hneeds in Hbefore.
    rewrite Hstop in Hbefore by lia. discriminate.
  - destruct Hlast as [-> | Hterminal]; [lia|].
    exfalso. apply Hterminal, Hneeds, Hretried. lia.
Qed.

Lemma first_final_attempt_decides_witness :
  let busy := mkOutcome (mkResponse 503) None in
  let done := mkOutcome (mkResponse 200) None in
  let operation := fun n : nat => if (n <? 2)%nat then busy else done in
  let retryable (o : Outcome) :=
    err o <> None \/ StatusCode (resp o) = 429 \/ StatusCode (resp o) >= 500 in
  ((2 <= 3)%nat /\
   (forall i, (i < 2)%nat -> retryable (operation i)) /\
   (2%nat = 3%nat \/ ~ retryable (operation 2%nat))) /\
  Execute (client.New New) operation = (done, 2%nat).
Proof.
  intros busy done operation retryable.
  assert (Hk : (2 <= 3)%nat) by lia.
  assert (Hbefore : forall i, (i < 2)%nat -> retryable (operation i)).
  { intros i Hi. right. right.
    assert (Hcase : i = 0%nat \/ i = 1%nat) by lia.
    destruct Hcase as [-> | ->]; simpl; lia. }
  assert (Hlast : 2%nat = 3%nat \/ ~ retryable (operation 2%nat)).
  { right. intros [H | [H | H]]; simpl in H; [congruence | lia | lia]. }
  split; [auto|].
  exact (first_final_attempt_decides New operation 2 Hk Hbefore Hlast).
Defined.

End TransportFurther.


(** * Further properties of the session client *)

Section SessionFurther.
Import os auth.

Lemma merge_lookup (rs : list http.Cookie) (m : gmap string http.Cookie) (name : string) :
  fold_left (fun m cookie => <[http.Name cookie := cookie]> m) rs m !! name =
  match last (filter (fun cookie => http.Name cookie = name) rs) with
  | Some cookie => Some cookie
  | None => m !! name
  end.
Proof.
  revert m. induction rs as [|r rs IH]; intros m; [reflexivity|].
  simpl fold_left. rewrite IH.
  destruct (decide (http.Name r = name)) as [Heq | Hne].
  - rewrite filter_cons_True by assumption.
    rewrite (last_cons r).
    destruct (last (filter (fun cookie => http.Name cookie = name) rs)); [reflexivity|].
    rewrite <- Heq. apply lookup_insert_eq.
  - rewrite filter_cons_False by assumption.
    destruct (last (filter (fun cookie => http.Name cookie = name) rs)); [reflexivity|].
    now apply lookup_insert_ne.
Qed.

(** X7: the hook run after a response merges the cookies of the response
    into the cookie map by name, and the last one wins: a name is mapped to
    the last cookie of the response that bears it, and a name of which the
    response has no cookie keeps the cookie it had (or stays absent). *)
Theorem saveCookies_last_write_wins (c : Client) (respCookies : list http.Cookie)
    (name : string) :
  cookies (saveCookies c respCookies) !! name =
  match last (filter (fun cookie => http.Name cookie = name) respCookies) with
  | Some cookie => Some cookie
  | None => cookies c !! name
  end.
Proof. unfold saveCookies. simpl. apply merge_lookup. Qed.

(** X8: after the hook has run, every cookie of the cookie map is among
    the cookies of the transport; the hook only adds to the list of the
    transport (what was there before stays, in front), and it leaves the
    configuration and the other settings of the transport alone. *)
Theorem saveCookies_transport_holds_map (c : Client) (respCookies : list http.Cookie) :
  let c' := saveCookies c respCookies in
  (forall name cookie, cookies c' !! name = Some cookie ->
                       cookie ∈ resty.Cookies (httpClient c')) /\
  (exists added, resty.Cookies (httpClient c') = resty.Cookies (httpClient c) ++ added /\
                 length added = size (cookies c')) /\
  config c' = config c /\
  resty.BaseURL (httpClient c') = resty.BaseURL (httpClient c) /\
  resty.RetryCount (httpClient c') = resty.RetryCount (httpClient c).
Proof.
  intros c'. subst c'. unfold saveCookies.
  set (merged := fold_left _ respCookies (cookies c)). simpl.
  repeat split.
  - intros name cookie Hlookup. apply elem_of_app. right.
    unfold cookieSlice. apply list_elem_of_fmap.
    exists (name, cookie). split; [reflexivity|]. now apply elem_of_map_to_list.
  - exists (cookieSlice merged). split; [reflexivity|].
    unfold cookieSlice. rewrite length_fmap. apply length_map_to_list.
Qed.

Lemma saveCookiesToFile_writes {codec : json.Codec} (c : Client) (w w' : World) :
  saveCookiesToFile c w = (None, w') ->
  exists bytes,
    json.Encode (cookies c) = inr bytes /\
    files w' = <[config.CookieFile (config c) := mkFile bytes 384]> (files w).
Proof.
  unfold saveCookiesToFile. set (path := config.CookieFile (config c)).
  unfold bind at 1. destruct (Create path w) as [[e|] w1] eqn:Hcreate.
  { unfold ret. discriminate. }
  apply Create_ok in Hcreate as [mode0 Hw1].
  unfold bind at 1. destruct (Chmod path 384 w1) as [[e|] w2] eqn:Hchmod.
  { unfold ret. discriminate. }
  apply Chmod_ok in Hchmod as (file1 & Hfile1 & Hw2).
  rewrite Hw1, lookup_insert_eq in Hfile1. injection Hfile1 as <-. simpl in Hw2.
  destruct (json.Encode (cookies c)) as [e | bytes].
  { unfold ret. discriminate. }
  intros Hwrite. apply Write_ok in Hwrite as (file2 & Hfile2 & Hw').
  rewrite Hw2, lookup_insert_eq in Hfile2. injection Hfile2 as <-. simpl in Hw'.
  exists bytes. split; [reflexivity|].
  rewrite Hw', Hw2, Hw1. now rewrite !insert_insert_eq.
Qed.

(** X9: a successful [saveCookiesToFile] changes the files in one place
    only: the cookie file now holds exactly the encoding of the cookie map,
    with mode 0600, whatever content and mode it had before and whether or
    not it existed. *)
Theorem saveCookiesToFile_effect {codec : json.Codec} (c : Client) (w w' : World) :
  saveCookiesToFile c w = (None, w') ->
  exists bytes,
    json.Encode (cookies c) = inr bytes /\
    files w' = <[config.CookieFile (config c) := mkFile bytes 384]> (files w).
Proof. apply saveCookiesToFile_writes. Qed.

(** [saveCookiesToFile] when the system refuses nothing and the cookie map
    can be encoded. *)
Lemma saveCookiesToFile_calm {codec : json.Codec} (c : Client) (w : World) (bytes : string) :
  calm w -> json.Encode (cookies c) = inr bytes ->
  exists w',
    saveCookiesToFile c w = (None, w') /\
    files w' = <[config.CookieFile (config c) := mkFile bytes 384]> (files w) /\
    calm w'.
Proof.
  intros Hcalm Hencode.
  destruct (answer_calm w Hcalm) as (w1 & Hw1 & Hf1 & Hu1 & Hcalm1).
  unfold saveCookiesToFile, Create, Chmod, Write, bind, ret. rewrite Hw1.
  set (path := config.CookieFile (config c)).
  set (w2 := mkWorld _ (umask w1) (faults w1)).
  assert (Hcalm2 : calm w2) by exact Hcalm1.
  destruct (answer_calm w2 Hcalm2) as (w3 & Hw3 & Hf3 & Hu3 & Hcalm3).
  rewrite Hw3, Hf3. subst w2. cbn [files]. rewrite lookup_insert_eq, Hencode.
  set (w4 := mkWorld _ (umask w3) (faults w3)).
  assert (Hcalm4 : calm w4) by exact Hcalm3.
  destruct (answer_calm w4 Hcalm4) as (w5 & Hw5 & Hf5 & Hu5 & Hcalm5).
  rewrite Hw5, Hf5. subst w4. cbn [files]. rewrite lookup_insert_eq.
  eexists. split; [reflexivity|]. cbn [files data perm]. split; [|exact Hcalm5].
  rewrite ?Hf5. cbn [files]. rewrite ?Hf3. cbn [files].
  now rewrite !insert_insert_eq, Hf1.
Qed.

Lemma saveCookiesToFile_effect_witness :
  let w := sample.world (Some "something else"%string) [] in
  let w' := snd (saveCookiesToFile (codec := sample.codec) sample.loggedIn w) in
  saveCookiesToFile (codec := sample.codec) sample.loggedIn w = (None, w') /\
  files w' !! sample.cookieFile = Some (mkFile "auth=test_token" 384).
Proof.
  intros w w'.
  assert (Hsave : saveCookiesToFile (codec := sample.codec) sample.loggedIn w = (None, w'))
    by reflexivity.
  split; [assumption|].
  destruct (saveCookiesToFile_effect (codec := sample.codec) sample.loggedIn w w' Hsave)
    as (bytes & Hbytes & Hfiles).
  injection Hbytes as <-. rewrite Hfiles. apply lookup_insert_eq.
Defined.

(** X10: what a failing [saveCookiesToFile] leaves behind.  When the
    opening of the file is refused, the error is returned and no file is
    changed.  When the file could be opened and its mode set, but the
    cookie map cannot be encoded, the error of the encoder is returned and
    the cookie file is left empty, with mode 0600. *)
Theorem saveCookiesToFile_failures {codec : json.Codec} (c : Client) (w : World) :
  (forall f rest,
     faults w = Some f :: rest ->
     saveCookiesToFile c w = (Some (PathError f), mkWorld (files w) (umask w) rest)) /\
  (forall e,
     json.Encode (cookies c) = inl e -> calm w ->
     exists w',
       saveCookiesToFile c w = (Some e, w') /\
       files w' = <[config.CookieFile (config c) := mkFile "" 384]> (files w)).
Proof.
  split.
  - intros f rest Hfaults. unfold saveCookiesToFile, Create, bind, ret.
    now rewrite (answer_cons w _ _ Hfaults).
  - intros e Hencode Hcalm.
    destruct (answer_calm w Hcalm) as (w1 & Hw1 & Hf1 & Hu1 & Hcalm1).
    unfold saveCookiesToFile, Create, Chmod, bind, ret. rewrite Hw1.
    set (path := config.CookieFile (config c)).
    set (w2 := mkWorld _ (umask w1) (faults w1)).
    assert (Hcalm2 : calm w2) by exact Hcalm1.
    destruct (answer_calm w2 Hcalm2) as (w3 & Hw3 & Hf3 & Hu3 & Hcalm3).
    rewrite Hw3, Hf3. subst w2. cbn [files]. rewrite lookup_insert_eq, Hencode.
    eexists. split; [reflexivity|]. cbn [files data].
    rewrite ?Hf3. cbn [files]. now rewrite insert_insert_eq, Hf1.
Qed.

(** X11: the first start.  When there is no cookie file and the system
    refuses nothing, [loadCookies] returns no error and leaves the client as
    it is, and [NewClient] gives a client without cookies, for which
    [IsAuthenticated] is false; no file is created. *)
Theorem start_without_cookie_file {codec : json.Codec} (cfg : config.Config)
    (w : World) (now : time.Time) :
  calm w -> files w !! config.CookieFile cfg = None ->
  exists w',
    NewClient cfg w = (unloaded cfg, w') /\
    files w' = files w /\
    IsAuthenticated (unloaded cfg) now = false /\
    (forall c, config c = cfg -> loadCookies c w = (None, c, w')).
Proof.
  intros Hcalm Hnone.
  destruct (Open_calm (config.CookieFile cfg) w Hcalm) as (w' & Hf & _ & Hopen).
  rewrite Hnone in Hopen.
  assert (Hload : forall c, config c = cfg -> loadCookies c w = (None, c, w')).
  { intros c <-. unfold loadCookies, bind, ret. now rewrite Hopen. }
  exists w'. split; [|split; [|split]].
  - rewrite NewClient_loadCookies. now rewrite (Hload (unloaded cfg) eq_refl).
  - assumption.
  - apply IsAuthenticated_no_cookies.
  - assumption.
Qed.

Lemma start_without_cookie_file_witness :
  let w := sample.world None [] in
  (calm w /\ files w !! config.CookieFile sample.cfg = None) /\
  NewClient (codec := sample.codec) sample.cfg w = (unloaded sample.cfg, w).
Proof.
  intros w.
  assert (Hcalm : calm w) by constructor.
  assert (Hnone : files w !! config.CookieFile sample.cfg = None) by reflexivity.
  split; [auto|].
  destruct (start_without_cookie_file (codec := sample.codec) sample.cfg w 0 Hcalm Hnone)
    as (w' & Hnew & _).
  reflexivity.
Defined.

Lemma IsAuthenticated_same_cookies (c1 c2 : Client) (now : time.Time) :
  cookies c1 = cookies c2 -> IsAuthenticated c1 now = IsAuthenticated c2 now.
Proof. unfold IsAuthenticated. now intros ->. Qed.

(** [Logout] when the system refuses nothing. *)
Lemma Logout_calm (c : Client) (w : World) :
  calm w ->
  exists w',
    Logout c w = (None, mkClient (config c) (resty.SetCookies [] (httpClient c)) ∅, w') /\
    files w' = delete (config.CookieFile (config c)) (files w) /\
    calm w'.
Proof.
  intros Hcalm. destruct (answer_calm w Hcalm) as (w1 & Hw1 & Hf1 & _ & Hcalm1).
  unfold Logout, Remove, bind, ret. cbn [config httpClient cookies]. rewrite Hw1.
  destruct (files w1 !! config.CookieFile (config c)) as [file|] eqn:Hfile; simpl.
  - eexists. split; [reflexivity|]. cbn [files]. split; [now rewrite Hf1 | exact Hcalm1].
  - exists w1. split; [reflexivity|]. split; [|exact Hcalm1].
    rewrite <- Hf1. symmetry. now apply delete_id.
Qed.

(** The restart after saving, for a codec that gives the saved set back
    from the bytes it encodes it to. *)
Lemma restart_after_save {codec : json.Codec} (c : Client) (w w1 : World)
    (now : time.Time) :
  (forall bytes, json.Encode (cookies c) = inr bytes ->
                 json.Decode bytes ∅ = (cookies c, None)) ->
  saveCookiesToFile c w = (None, w1) ->
  calm w1 ->
  let restarted := fst (NewClient (config c) w1) in
  IsAuthenticated restarted now = IsAuthenticated c now /\
  (forall name cookie, cookies restarted !! name = Some cookie ->
                       cookie ∈ resty.Cookies (httpClient restarted)).
Proof.
  intros Hcodec Hsave Hcalm restarted. subst restarted.
  apply saveCookiesToFile_ok in Hsave as (bytes & Hbytes & Hfile).
  rewrite NewClient_loadCookies. cbn [fst].
  destruct (loadCookies_calm (unloaded (config c)) w1 Hcalm) as (w2 & _ & _ & ->).
  cbn [config unloaded]. rewrite Hfile. cbn [data cookies unloaded].
  rewrite (Hcodec bytes Hbytes). cbn [fst snd]. split.
  - now apply IsAuthenticated_same_cookies.
  - intros name cookie Hlookup. cbn [cookies] in Hlookup. cbn [httpClient resty.SetCookies resty.Cookies].
    apply elem_of_app. right. unfold cookieSlice. apply list_elem_of_fmap.
    exists (name, cookie). split; [reflexivity|]. now apply elem_of_map_to_list.
Qed.

(** X13: a logout holds across a restart.  When the system refuses
    nothing, [Logout] succeeds, and the client that [NewClient] then builds
    for the same configuration has no cookies: [IsAuthenticated] is false
    for it as well. *)
Theorem logout_survives_restart {codec : json.Codec} (c : Client) (w : World)
    (now : time.Time) :
  calm w ->
  let '(e, _, w1) := Logout c w in
  e = None /\
  cookies (fst (NewClient (config c) w1)) = ∅ /\
  IsAuthenticated (fst (NewClient (config c) w1)) now = false.
Proof.
  intros Hcalm. destruct (Logout_calm c w Hcalm) as (w1 & -> & Hf1 & Hcalm1).
  split; [reflexivity|].
  rewrite NewClient_loadCookies. cbn [fst].
  destruct (loadCookies_calm (unloaded (config c)) w1 Hcalm1) as (w2 & _ & _ & ->).
  cbn [config unloaded]. rewrite Hf1, lookup_delete_eq. cbn [fst snd].
  split; [reflexivity | apply IsAuthenticated_no_cookies].
Qed.

Lemma logout_survives_restart_witness :
  let w := sample.world (Some "auth=test_token"%string) [] in
  calm w /\
  IsAuthenticated
    (fst (NewClient (codec := sample.codec) sample.cfg (snd (Logout sample.loggedIn w)))) 0
  = false.
Proof.
  intros w. assert (Hcalm : calm w) by constructor.
  split; [assumption|].
  pose proof (logout_survives_restart (codec := sample.codec) sample.loggedIn w 0 Hcalm) as H.
  destruct (Logout sample.loggedIn w) as [[e c1] w1]. exact (proj2 (proj2 H)).
Defined.

(** X14: logging out twice.  When the system refuses nothing, a second
    [Logout] succeeds like the first (the missing file is no error) and
    changes neither the client nor the files. *)
Theorem Logout_twice (c : Client) (w : World) :
  calm w ->
  let '(e1, c1, w1) := Logout c w in
  let '(e2, c2, w2) := Logout c1 w1 in
  e1 = None /\ e2 = None /\ c2 = c1 /\ files w2 = files w1.
Proof.
  intros Hcalm. destruct (Logout_calm c w Hcalm) as (w1 & -> & Hf1 & Hcalm1).
  set (c1 := mkClient _ _ ∅).
  destruct (Logout_calm c1 w1 Hcalm1) as (w2 & -> & Hf2 & _).
  repeat split.
  - subst c1. cbn [config httpClient]. f_equal.
    unfold resty.SetCookies. cbn. now rewrite !app_nil_r.
  - rewrite Hf2. subst c1. cbn [config]. apply delete_id.
    rewrite Hf1. apply lookup_delete_eq.
Qed.

Lemma Logout_twice_witness :
  let w := sample.world (Some "auth=test_token"%string) [] in
  calm w /\
  fst (fst (Logout (snd (fst (Logout sample.loggedIn w))) (snd (Logout sample.loggedIn w))))
  = None.
Proof.
  intros w. assert (Hcalm : calm w) by constructor.
  split; [assumption|].
  pose proof (Logout_twice sample.loggedIn w Hcalm) as H.
  destruct (Logout sample.loggedIn w) as [[e1 c1] w1]. cbn [fst snd].
  destruct (Logout c1 w1) as [[e2 c2] w2]. exact (proj1 (proj2 H)).
Defined.

End SessionFurther.


(** * Properties of the path functions and of the check of the selected file *)

Section PathProofs.

Lemma chars_append (s t : string) :
  list_ascii_of_string (String.append s t) =
  list_ascii_of_string s ++ list_ascii_of_string t.
Proof.
  induction s as [|c s IH]; [reflexivity|].
  rewrite append_cons. simpl. now rewrite IH.
Qed.

Lemma text_append (l1 l2 : list ascii) :
  string_of_list_ascii (l1 ++ l2) =
  String.append (string_of_list_ascii l1) (string_of_list_ascii l2).
Proof.
  induction l1 as [|c l1 IH]; [reflexivity|].
  simpl. now rewrite append_cons, IH.
Qed.

Lemma append_assoc (s t u : string) :
  String.append (String.append s t) u = String.append s (String.append t u).
Proof.
  induction s as [|c s IH]; [reflexivity|].
  now rewrite !append_cons, IH.
Qed.

Lemma append_empty_r (s : string) : String.append s EmptyString = s.
Proof. induction s as [|c s IH]; [reflexivity|]. now rewrite append_cons, IH. Qed.

Lemma text_rev_cons (c : ascii) (before : list ascii) (seen : string) :
  String.append (string_of_list_ascii (rev (c :: before))) seen =
  String.append (string_of_list_ascii (rev before)) (String c seen).
Proof.
  change (rev (c :: before)) with (rev before ++ [c]).
  rewrite text_append, append_assoc. reflexivity.
Qed.

(** What [scanExt] returns, when it is not empty, is the end of the path. *)
Lemma scanExt_is_suffix (before : list ascii) (seen : string) :
  filepath.scanExt before seen <> EmptyString ->
  exists front,
    String.append (string_of_list_ascii (rev before)) seen =
    String.append front (filepath.scanExt before seen).
Proof.
  revert seen. induction before as [|c before IH]; intros seen; simpl filepath.scanExt.
  - intros H. now contradiction H.
  - destruct (filepath.IsPathSeparator c); [intros H; now contradiction H|].
    destruct (Ascii.eqb c "."); rewrite text_rev_cons.
    + intros _. now exists (string_of_list_ascii (rev before)).
    + intros Hne. exact (IH (String c seen) Hne).
Qed.

(** Bytes without separator and dot, then a dot: the scan stops at the dot. *)
Lemma scanExt_stops_at_dot (body rest : list ascii) (seen : string) :
  Forall (fun c => filepath.IsPathSeparator c = false /\ Ascii.eqb c "." = false) body ->
  filepath.scanExt (body ++ "."%char :: rest) seen =
  String "." (String.append (string_of_list_ascii (rev body)) seen).
Proof.
  intros Hbody. revert seen. induction Hbody as [|c body [Hsep Hdot] _ IH]; intros seen.
  - reflexivity.
  - simpl app. simpl filepath.scanExt. rewrite Hsep, Hdot, IH.
    now rewrite text_rev_cons.
Qed.

Lemma Ext_of_extension (stem body : string) :
  Forall (fun c => filepath.IsPathSeparator c = false /\ Ascii.eqb c "." = false)
         (list_ascii_of_string body) ->
  filepath.Ext (String.append stem (String "." body)) = String "." body.
Proof.
  intros Hbody. unfold filepath.Ext.
  rewrite chars_append. simpl list_ascii_of_string.
  rewrite rev_app_distr. simpl rev. rewrite <- app_assoc. simpl app.
  rewrite scanExt_stops_at_dot by now apply Forall_rev.
  rewrite rev_involutive, string_of_list_ascii_of_string.
  now rewrite append_empty_r.
Qed.

Lemma Ext_is_suffix (path : string) :
  filepath.Ext path <> EmptyString ->
  exists stem, path = String.append stem (filepath.Ext path).
Proof.
  intros Hne. unfold filepath.Ext in *.
  destruct (scanExt_is_suffix _ _ Hne) as [front Hfront].
  exists front. rewrite <- Hfront.
  now rewrite rev_involutive, string_of_list_ascii_of_string, append_empty_r.
Qed.

(** X15: [ValidateImageFile] accepts a path exactly when it ends in one of
    [.png], [.jpg], [.jpeg], [.gif], written in lower case, and then reports
    that ending as the type; so an upper-case ending is refused, and so is a
    name without a dot.  The empty path is refused with its own message. *)
Theorem ValidateImageFile_accepts (filePath type : string) :
  (app.ValidateImageFile filePath = app.Valid type <->
   In type app.supportedExts /\ exists stem, filePath = String.append stem type) /\
  app.ValidateImageFile "" = app.NotValid "No file path provided" /\
  app.ValidateImageFile "photo.PNG" = app.NotValid "Unsupported file format: .PNG" /\
  app.ValidateImageFile "photo" = app.NotValid "Unsupported file format: ".
Proof.
  split; [|repeat split]. unfold app.ValidateImageFile. split.
  - destruct (String.eqb_spec filePath "") as [-> | Hpath]; [discriminate|].
    destruct (existsb (String.eqb (filepath.Ext filePath)) app.supportedExts) eqn:Hsupported;
      [|discriminate].
    intros [= <-]. apply existsb_exists in Hsupported as (t & Hin & Heq).
    apply String.eqb_eq in Heq. subst t. split; [assumption|].
    apply Ext_is_suffix. intros Hempty. rewrite Hempty in Hin.
    simpl in Hin. intuition discriminate.
  - intros (Hin & stem & ->).
    assert (Hext : filepath.Ext (String.append stem type) = type).
    { simpl in Hin. destruct Hin as [<- | [<- | [<- | [<- | []]]]];
        apply Ext_of_extension; repeat constructor. }
    assert (Hne : String.append stem type <> ""%string).
    { intros Hempty. rewrite Hempty in Hext. subst type.
      simpl in Hin. intuition discriminate. }
    destruct (String.eqb_spec (String.append stem type) "") as [? | _]; [contradiction|].
    rewrite Hext.
    assert (Hsupported : existsb (String.eqb type) app.supportedExts = true).
    { apply existsb_exists. exists type. split; [assumption | apply String.eqb_refl]. }
    now rewrite Hsupported.
Qed.

End PathProofs.


(** * Properties of the remote operations of the session client *)

Section RemoteProofs.
Import os auth.

Lemma Login_cases {codec : json.Codec} (c : Client) (opts : LoginOptions)
    (send : wire.RoundTrip AuthResponse) (w : World) :
  Login c opts send w =
  match send (loginRequest opts) with
  | inl err => (Some (Caused (Errorf "authentication request failed" err)), c, w)
  | inr resp =>
      let c1 := saveCookies c (wire.Cookies resp) in
      if negb (String.eqb (Error (wire.Result resp)) "")
      then (Some (Stated (String.append "authentication failed: "
                                        (Error (wire.Result resp)))), c1, w)
      else if needsTwoFactor (wire.Result resp)
      then (Some (Stated "2FA required - use VerifyTOTPCode or VerifyRecoveryCode methods"),
            c1, w)
      else afterSave c1 (saveCookiesToFile c1 w)
  end.
Proof.
  unfold Login, loginRequest, needsTwoFactor, afterSave.
  destruct (send _) as [err | resp]; [reflexivity|]. cbv zeta.
  destruct (negb _); [reflexivity|].
  destruct (_ || _); [reflexivity|].
  unfold bind, ret.
  now destruct (saveCookiesToFile (saveCookies c (wire.Cookies resp)) w) as [[e|] w1].
Qed.

Lemma afterSave_None (c c' : Client) (saved : option error * World) (w' : World) :
  afterSave c saved = (None, c', w') -> saved = (None, w') /\ c' = c.
Proof. destruct saved as [[e|] w1]; simpl; [discriminate|]. now intros [= <- <-]. Qed.

(** X16: a [Login] that returns without error has received a reply without
    error text and without a request for a second factor, has merged the
    cookies of that reply into the client, and has written the encoding of
    exactly that cookie map to the cookie file, with mode 0600, changing no
    other file. *)
Theorem Login_success {codec : json.Codec} (c c' : Client) (opts : LoginOptions)
    (send : wire.RoundTrip AuthResponse) (w w' : World) :
  Login c opts send w = (None, c', w') ->
  exists resp bytes,
    send (loginRequest opts) = inr resp /\
    Error (wire.Result resp) = ""%string /\
    needsTwoFactor (wire.Result resp) = false /\
    c' = saveCookies c (wire.Cookies resp) /\
    json.Encode (cookies c') = inr bytes /\
    files w' = <[config.CookieFile (config c) := mkFile bytes 384]> (files w).
Proof.
  rewrite Login_cases.
  destruct (send (loginRequest opts)) as [err | resp]; [discriminate|]. cbv zeta.
  destruct (String.eqb_spec (Error (wire.Result resp)) "") as [Herror | _]; [|discriminate].
  simpl negb. cbv iota.
  destruct (needsTwoFactor (wire.Result resp)) eqn:Htwo; [discriminate|].
  intros Hsaved. apply afterSave_None in Hsaved as [Hsave ->].
  apply saveCookiesToFile_writes in Hsave as (bytes & Hbytes & Hfiles).
  exists resp, bytes. repeat split; assumption.
Qed.

Lemma Login_success_witness :
  let w := sample.world None [] in
  let c := unloaded sample.cfg in
  let c' := saveCookies c [sample.authCookie "test_token" 0] in
  let w' := snd (Login (codec := sample.codec) c scenario.credentials scenario.accepted w) in
  Login (codec := sample.codec) c scenario.credentials scenario.accepted w = (None, c', w') /\
  files w' !! sample.cookieFile = Some (mkFile "auth=test_token" 384).
Proof.
  intros w c c' w'.
  assert (Hlogin : Login (codec := sample.codec) c scenario.credentials scenario.accepted w
                   = (None, c', w')) by reflexivity.
  split; [assumption|].
  destruct (Login_success (codec := sample.codec) c c' scenario.credentials scenario.accepted
              w w' Hlogin) as (resp & bytes & _ & _ & _ & _ & Hbytes & Hfiles).
  injection Hbytes as <-. rewrite Hfiles. apply lookup_insert_eq.
Defined.

Lemma IsAuthenticated_of_cookie (c : Client) (cookie : http.Cookie) (now : time.Time) :
  cookies c !! "auth"%string = Some cookie ->
  http.Value cookie <> ""%string ->
  time.IsZero (http.Expires cookie) = true \/ now <= http.Expires cookie ->
  IsAuthenticated c now = true.
Proof.
  intros Hcookie Hvalue Hexpires. unfold IsAuthenticated. rewrite Hcookie.
  destruct (String.eqb_spec (http.Value cookie) ""); [contradiction|].
  destruct Hexpires as [-> | Hlater]; [reflexivity|].
  unfold time.Before. destruct (Z.ltb_spec (http.Expires cookie) now); [lia|].
  now rewrite andb_false_r.
Qed.

(** X17: a [Login] that is answered with a request for a second factor
    returns the error that says so and writes no file; but the cookies of
    that reply are already merged into the client, so that, when the reply
    sets a session cookie (non-empty, without expiry or not yet expired),
    [IsAuthenticated] is true although the second factor is still to come. *)
Theorem Login_second_factor {codec : json.Codec} (c : Client) (opts : LoginOptions)
    (send : wire.RoundTrip AuthResponse) (w : World) (resp : wire.Reply AuthResponse) :
  send (loginRequest opts) = inr resp ->
  Error (wire.Result resp) = ""%string ->
  needsTwoFactor (wire.Result resp) = true ->
  let c1 := saveCookies c (wire.Cookies resp) in
  Login c opts send w =
    (Some (Stated "2FA required - use VerifyTOTPCode or VerifyRecoveryCode methods"), c1, w) /\
  (forall (cookie : http.Cookie) (now : time.Time),
     last (filter (fun k => http.Name k = "auth"%string) (wire.Cookies resp)) = Some cookie ->
     http.Value cookie <> ""%string ->
     time.IsZero (http.Expires cookie) = true \/ now <= http.Expires cookie ->
     IsAuthenticated c1 now = true).
Proof.
  intros Hsend Herror Htwo c1. split.
  - rewrite Login_cases, Hsend. cbv zeta. now rewrite Herror, Htwo.
  - intros cookie now Hlast Hvalue Hexpires.
    apply (IsAuthenticated_of_cookie c1 cookie now); try assumption.
    subst c1. unfold saveCookies. cbn [cookies]. now rewrite merge_lookup, Hlast.
Qed.

Lemma Login_second_factor_witness :
  let w := sample.world None [] in
  let c := unloaded sample.cfg in
  let resp := wire.mkReply 200 "200 OK" [sample.authCookie "pending_token" 0] ""
                (mkAuthResponse None ["totp"%string] "") in
  (scenario.secondFactorWanted (loginRequest scenario.credentials) = inr resp /\
   Error (wire.Result resp) = ""%string /\
   needsTwoFactor (wire.Result resp) = true) /\
  snd (Login (codec := sample.codec) c scenario.credentials scenario.secondFactorWanted w) = w /\
  IsAuthenticated (saveCookies c (wire.Cookies resp)) 0 = true.
Proof.
  intros w c resp.
  assert (Hsend : scenario.secondFactorWanted (loginRequest scenario.credentials) = inr resp)
    by reflexivity.
  assert (Herror : Error (wire.Result resp) = ""%string) by reflexivity.
  assert (Htwo : needsTwoFactor (wire.Result resp) = true) by reflexivity.
  split; [auto|].
  destruct (Login_second_factor (codec := sample.codec) c scenario.credentials
              scenario.secondFactorWanted w resp Hsend Herror Htwo) as [Hlogin Hauth].
  split; [now rewrite Hlogin|].
  apply (Hauth (sample.authCookie "pending_token" 0) 0); [reflexivity | discriminate |].
  left. reflexivity.
Defined.

(** X18: [Login] does not look at the status code.  Whatever the status of
    the reply, when its decoded result has no error text and asks for no
    second factor, the system refuses nothing and the merged cookies can be
    encoded, [Login] returns without error and writes the cookie file: a
    reply with status 401 and nothing decoded counts as a login. *)
Theorem Login_whatever_the_status {codec : json.Codec} (c : Client) (opts : LoginOptions)
    (send : wire.RoundTrip AuthResponse) (w : World) (resp : wire.Reply AuthResponse)
    (bytes : string) :
  send (loginRequest opts) = inr resp ->
  Error (wire.Result resp) = ""%string ->
  needsTwoFactor (wire.Result resp) = false ->
  calm w ->
  json.Encode (cookies (saveCookies c (wire.Cookies resp))) = inr bytes ->
  exists w',
    Login c opts send w = (None, saveCookies c (wire.Cookies resp), w') /\
    files w' = <[config.CookieFile (config c) := mkFile bytes 384]> (files w).
Proof.
  intros Hsend Herror Htwo Hcalm Hbytes.
  destruct (saveCookiesToFile_calm (saveCookies c (wire.Cookies resp)) w bytes Hcalm Hbytes)
    as (w' & Hsave & Hfiles & _).
  exists w'. split; [|exact Hfiles].
  rewrite Login_cases, Hsend. cbv zeta. now rewrite Herror, Htwo, Hsave.
Qed.

Lemma Login_whatever_the_status_witness :
  let w := sample.world None [] in
  let c := unloaded sample.cfg in
  let resp := wire.mkReply 401 "401 Unauthorized" [] "Unauthorized"
                (mkAuthResponse None [] "") in
  (scenario.unauthorized (loginRequest scenario.credentials) = inr resp /\
   Error (wire.Result resp) = ""%string /\
   needsTwoFactor (wire.Result resp) = false /\
   calm w /\
   json.Encode (Codec := sample.codec) (cookies (saveCookies c (wire.Cookies resp)))
     = inr "{}"%string) /\
  fst (fst (Login (codec := sample.codec) c scenario.credentials scenario.unauthorized w))
    = None.
Proof.
  intros w c resp.
  assert (Hsend : scenario.unauthorized (loginRequest scenario.credentials) = inr resp)
    by reflexivity.
  assert (Herror : Error (wire.Result resp) = ""%string) by reflexivity.
  assert (Htwo : needsTwoFactor (wire.Result resp) = false) by reflexivity.
  assert (Hcalm : calm w) by constructor.
  assert (Hbytes : json.Encode (Codec := sample.codec)
                     (cookies (saveCookies c (wire.Cookies resp))) = inr "{}"%string)
    by reflexivity.
  split; [auto 6|].
  destruct (Login_whatever_the_status (codec := sample.codec) c scenario.credentials
              scenario.unauthorized w resp _ Hsend Herror Htwo Hcalm Hbytes)
    as (w' & Hlogin & _).
  now rewrite Hlogin.
Defined.

Lemma VerifyTOTPCode_cases {codec : json.Codec} (c : Client) (code : string)
    (send : wire.RoundTrip TwoFactorAuthResponse) (w : World) :
  VerifyTOTPCode c code send w =
  match send (totpRequest code) with
  | inl err => (Some (Caused (Errorf "2FA verification failed" err)), c, w)
  | inr resp =>
      let c1 := saveCookies c (wire.Cookies resp) in
      if negb (Verified (wire.Result resp))
      then (Some (Stated "2FA verification failed: invalid code"), c1, w)
      else afterSave c1 (saveCookiesToFile c1 w)
  end.
Proof.
  unfold VerifyTOTPCode, totpRequest, afterSave.
  destruct (send _) as [err | resp]; [reflexivity|]. cbv zeta.
  destruct (negb _); [reflexivity|]. unfold bind, ret.
  now destruct (saveCookiesToFile (saveCookies c (wire.Cookies resp)) w) as [[e|] w1].
Qed.

Lemma VerifyRecoveryCode_cases {codec : json.Codec} (c : Client) (code : string)
    (send : wire.RoundTrip TwoFactorAuthResponse) (w : World) :
  VerifyRecoveryCode c code send w =
  match send (recoveryRequest code) with
  | inl err => (Some (Caused (Errorf "recovery code verification failed" err)), c, w)
  | inr resp =>
      let c1 := saveCookies c (wire.Cookies resp) in
      if negb (Verified (wire.Result resp))
      then (Some (Stated "recovery code verification failed: invalid code"), c1, w)
      else afterSave c1 (saveCookiesToFile c1 w)
  end.
Proof.
  unfold VerifyRecoveryCode, recoveryRequest, afterSave.
  destruct (send _) as [err | resp]; [reflexivity|]. cbv zeta.
  destruct (negb _); [reflexivity|]. unfold bind, ret.
  now destruct (saveCookiesToFile (saveCookies c (wire.Cookies resp)) w) as [[e|] w1].
Qed.

(** X19: a verification of a second factor, by TOTP code or by recovery
    code, that returns without error has been confirmed by the service
    ([verified] in the reply to the request that carries the code), and has
    written the encoding of the merged cookie map to the cookie file, with
    mode 0600. *)
Theorem verification_success {codec : json.Codec} (c c' : Client) (code : string)
    (send : wire.RoundTrip TwoFactorAuthResponse) (w w' : World) :
  VerifyTOTPCode c code send w = (None, c', w') \/
  VerifyRecoveryCode c code send w = (None, c', w') ->
  exists resp bytes,
    (send (totpRequest code) = inr resp \/ send (recoveryRequest code) = inr resp) /\
    Verified (wire.Result resp) = true /\
    c' = saveCookies c (wire.Cookies resp) /\
    json.Encode (cookies c') = inr bytes /\
    files w' = <[config.CookieFile (config c) := mkFile bytes 384]> (files w).
Proof.
  rewrite VerifyTOTPCode_cases, VerifyRecoveryCode_cases.
  intros [Hverify | Hverify];
    [destruct (send (totpRequest code)) as [err | resp] eqn:Hsend
    |destruct (send (recoveryRequest code)) as [err | resp] eqn:Hsend];
    try discriminate; cbv zeta in Hverify;
    (destruct (Verified (wire.Result resp)) eqn:Hverified; [|discriminate]);
    simpl negb in Hverify; cbv iota in Hverify;
    apply afterSave_None in Hverify as [Hsave ->];
    apply saveCookiesToFile_writes in Hsave as (bytes & Hbytes & Hfiles);
    exists resp, bytes; repeat split; auto.
Qed.

Lemma verification_success_witness :
  let w := sample.world None [] in
  let c := unloaded sample.cfg in
  let c' := saveCookies c [sample.authCookie "test_token" 0] in
  let w' := snd (VerifyTOTPCode (codec := sample.codec) c "123456" scenario.verified w) in
  (VerifyTOTPCode (codec := sample.codec) c "123456" scenario.verified w = (None, c', w') \/
   VerifyRecoveryCode (codec := sample.codec) c "123456" scenario.verified w = (None, c', w')) /\
  files w' !! sample.cookieFile = Some (mkFile "auth=test_token" 384).
Proof.
  intros w c c' w'.
  assert (Hverify :
            VerifyTOTPCode (codec := sample.codec) c "123456" scenario.verified w = (None, c', w') \/
            VerifyRecoveryCode (codec := sample.codec) c "123456" scenario.verified w = (None, c', w'))
    by (left; reflexivity).
  split; [assumption|].
  destruct (verification_success (codec := sample.codec) c c' "123456" scenario.verified
              w w' Hverify) as (resp & bytes & _ & _ & _ & Hbytes & Hfiles).
  injection Hbytes as <-. rewrite Hfiles. apply lookup_insert_eq.
Defined.

(** X20: unless the reply says [verified], a verification fails and
    writes nothing: both verifications return an error and leave every file
    and the answers of the system as they were, whatever the status code
    and the error text of the reply, and also when the round trip fails; a
    reply that could not be decoded, such as a server error, is reported as
    an invalid code. *)
Theorem verification_unconfirmed {codec : json.Codec} (c : Client) (code : string)
    (send : wire.RoundTrip TwoFactorAuthResponse) (w : World) :
  (forall resp, send (totpRequest code) = inr resp -> Verified (wire.Result resp) = false) ->
  (forall resp, send (recoveryRequest code) = inr resp -> Verified (wire.Result resp) = false) ->
  (fst (fst (VerifyTOTPCode c code send w)) <> None /\
   snd (VerifyTOTPCode c code send w) = w) /\
  (fst (fst (VerifyRecoveryCode c code send w)) <> None /\
   snd (VerifyRecoveryCode c code send w) = w) /\
  (forall resp, send (totpRequest code) = inr resp ->
     VerifyTOTPCode c code send w =
       (Some (Stated "2FA verification failed: invalid code"),
        saveCookies c (wire.Cookies resp), w)) /\
  (forall resp, send (recoveryRequest code) = inr resp ->
     VerifyRecoveryCode c code send w =
       (Some (Stated "recovery code verification failed: invalid code"),
        saveCookies c (wire.Cookies resp), w)).
Proof.
  intros Htotp Hrecovery.
  rewrite VerifyTOTPCode_cases, VerifyRecoveryCode_cases.
  destruct (send (totpRequest code)) as [err1 | resp1] eqn:Hsend1;
    destruct (send (recoveryRequest code)) as [err2 | resp2] eqn:Hsend2;
    cbv zeta;
    rewrite ?(Htotp resp1 eq_refl), ?(Hrecovery resp2 eq_refl); simpl;
    repeat split; try discriminate; intros resp [= <-]; reflexivity.
Qed.

Lemma verification_unconfirmed_witness :
  let w := sample.world (Some "auth=old"%string) [] in
  let c := unloaded sample.cfg in
  ((forall resp, scenario.serverError (totpRequest "123456") = inr resp ->
                 Verified (wire.Result resp) = false) /\
   (forall resp, scenario.serverError (recoveryRequest "123456") = inr resp ->
                 Verified (wire.Result resp) = false)) /\
  snd (VerifyTOTPCode (codec := sample.codec) c "123456" scenario.serverError w) = w.
Proof.
  intros w c.
  assert (Htotp : forall resp, scenario.serverError (totpRequest "123456") = inr resp ->
                               Verified (wire.Result resp) = false)
    by (intros resp [= <-]; reflexivity).
  assert (Hrecovery : forall resp, scenario.serverError (recoveryRequest "123456") = inr resp ->
                                   Verified (wire.Result resp) = false)
    by (intros resp [= <-]; reflexivity).
  split; [auto|].
  exact (proj2 (proj1 (verification_unconfirmed (codec := sample.codec) c "123456"
                         scenario.serverError w Htotp Hrecovery))).
Defined.

(** X21: [GetCurrentUser] returns a user exactly when the round trip
    succeeds with status 200, and then the user decoded from the reply; on
    every other status it returns an error.  The cookies of any reply,
    whatever its status, are merged into the client; a failed round trip
    leaves the client as it is. *)
Theorem GetCurrentUser_outcomes (c : Client) (send : wire.RoundTrip User) :
  (forall user,
     fst (GetCurrentUser c send) = inr user <->
     exists resp, send userRequest = inr resp /\ wire.StatusCode resp = 200 /\
                  wire.Result resp = user) /\
  (forall resp, send userRequest = inr resp ->
     snd (GetCurrentUser c send) = saveCookies c (wire.Cookies resp)) /\
  (forall err, send userRequest = inl err ->
     GetCurrentUser c send = (inl (Caused err), c)).
Proof.
  unfold GetCurrentUser. fold userRequest.
  destruct (send userRequest) as [err | resp].
  - split; [|split].
    + intros user. split; [discriminate|]. intros (resp & Hresp & _). discriminate.
    + intros resp Hresp. discriminate.
    + now intros err' [= <-].
  - destruct (Z.eqb_spec (wire.StatusCode resp) 200) as [Hok | Hbad]; simpl;
      (split; [|split]); try (intros ? [=]; fail).
    + intros user. split.
      * intros [= <-]. now exists resp.
      * now intros (r & [= <-] & _ & <-).
    + now intros r [= <-].
    + intros user. split; [discriminate|].
      intros (r & [= <-] & Hstatus & _). contradiction.
    + now intros r [= <-].
Qed.

End RemoteProofs.


(** * Properties of the upload *)

Section UploaderProofs.
Import uploader.

Lemma lastElement_no_separator (before : list ascii) (seen : string) :
  url.oneOf "/" seen = false ->
  url.oneOf "/" (filepath.lastElement before seen) = false.
Proof.
  revert seen. induction before as [|c before IH]; intros seen Hseen; [assumption|].
  simpl. destruct (filepath.IsPathSeparator c) eqn:Hsep; [assumption|].
  apply IH. change (url.oneOf "/" (String c seen))
    with (Ascii.eqb "/" c || url.oneOf "/" seen).
  unfold filepath.IsPathSeparator in Hsep.
  rewrite (Ascii.eqb_sym "/" c), Hsep. assumption.
Qed.

Lemma lastElement_stops (body rest : list ascii) (seen : string) :
  filepath.noSeparator body ->
  filepath.lastElement (body ++ "/"%char :: rest) seen =
  String.append (string_of_list_ascii (rev body)) seen /\
  filepath.lastElement body seen = String.append (string_of_list_ascii (rev body)) seen.
Proof.
  intros Hbody. revert seen. induction Hbody as [|c body Hsep _ IH]; intros seen.
  - split; reflexivity.
  - simpl app. simpl filepath.lastElement. rewrite Hsep.
    rewrite text_rev_cons. apply IH.
Qed.

Lemma dropSeparators_none (c : ascii) (before : list ascii) :
  filepath.IsPathSeparator c = false ->
  filepath.dropSeparators (c :: before) = c :: before.
Proof. intros Hsep. simpl. now rewrite Hsep. Qed.

Lemma Base_of_name (front name : string) :
  name <> EmptyString -> filepath.noSeparator (list_ascii_of_string name) ->
  front = EmptyString \/ (exists dir, front = String.append dir "/") ->
  filepath.Base (String.append front name) = name.
Proof.
  intros Hname Hclean Hfront.
  assert (Hpath : String.append front name <> EmptyString).
  { destruct front; [exact Hname | discriminate]. }
  unfold filepath.Base.
  destruct (String.append front name) as [|p path'] eqn:Hp; [contradiction|].
  rewrite <- Hp. clear Hp p path' Hpath.
  rewrite chars_append, rev_app_distr.
  destruct (rev (list_ascii_of_string name)) as [|c body] eqn:Hrev.
  { apply (f_equal (@rev ascii)) in Hrev. rewrite rev_involutive in Hrev.
    simpl in Hrev. destruct name; [contradiction | discriminate]. }
  assert (Hbody : filepath.noSeparator (c :: body)).
  { rewrite <- Hrev. now apply Forall_rev. }
  change ((c :: body) ++ rev (list_ascii_of_string front))
    with (c :: (body ++ rev (list_ascii_of_string front))).
  rewrite dropSeparators_none by now inversion Hbody.
  change (c :: (body ++ rev (list_ascii_of_string front)))
    with ((c :: body) ++ rev (list_ascii_of_string front)).
  assert (Hlast : filepath.lastElement ((c :: body) ++ rev (list_ascii_of_string front))
                                       EmptyString = name).
  { assert (Hname' : string_of_list_ascii (rev (c :: body)) = name).
    { rewrite <- Hrev, rev_involutive. apply string_of_list_ascii_of_string. }
    destruct Hfront as [-> | [dir ->]].
    - change (rev (list_ascii_of_string EmptyString)) with (@nil ascii).
      rewrite app_nil_r.
      rewrite (proj2 (lastElement_stops (c :: body) [] EmptyString Hbody)).
      now rewrite append_empty_r.
    - rewrite chars_append, rev_app_distr.
      change (rev (list_ascii_of_string "/")) with ["/"%char].
      change (["/"%char] ++ rev (list_ascii_of_string dir))
        with ("/"%char :: rev (list_ascii_of_string dir)).
      rewrite (proj1 (lastElement_stops (c :: body) _ EmptyString Hbody)).
      now rewrite append_empty_r. }
  rewrite Hlast. destruct name; [contradiction | reflexivity].
Qed.

(** X22: the file name that goes into the form.  [filepath.Base] never
    returns the empty string, and what it returns holds no separator unless
    it is the lone separator that stands for a path made of separators; for
    a path that ends in a name behind a directory, and for a bare name, it
    returns that name, so that no directory of the user is sent along. *)
Theorem Base_is_the_file_name (path : string) :
  filepath.Base path <> EmptyString /\
  (filepath.Base path = "/"%string \/ url.oneOf "/" (filepath.Base path) = false) /\
  (forall dir name,
     name <> EmptyString -> filepath.noSeparator (list_ascii_of_string name) ->
     filepath.Base (String.append dir (String.append "/" name)) = name /\
     filepath.Base name = name).
Proof.
  split; [|split].
  - unfold filepath.Base. destruct path; [discriminate|].
    now destruct (filepath.lastElement _ _).
  - unfold filepath.Base. destruct path as [|p path]; [right; reflexivity|].
    pose proof (lastElement_no_separator
                  (filepath.dropSeparators (rev (list_ascii_of_string (String p path))))
                  EmptyString eq_refl) as Hclean.
    destruct (filepath.lastElement _ _); [left; reflexivity | right; assumption].
  - intros dir name Hname Hclean. split.
    + rewrite <- append_assoc. apply Base_of_name; eauto.
    + apply (Base_of_name EmptyString name); auto.
Qed.

Lemma form_cases (imageData : upload.Png) (opts : Options) (now : time.Time)
    (boundary : string) :
  fst (createMultipartForm imageData opts now boundary) =
  [wire.mkPart "image" (Some (filepath.Base (ImagePath opts))) (Some "image/png"%string)
               (wire.Image imageData);
   wire.mkPart "timestamp" None None (wire.Timestamp now)]
  ++ (if String.eqb (Note opts) "" then []
      else [wire.mkPart "note" None None (wire.Text (Note opts))])
  ++ (if String.eqb (WorldID opts) "" then []
      else [wire.mkPart "worldId" None None (wire.Text (WorldID opts))])
  ++ (if String.eqb (WorldName opts) "" then []
      else [wire.mkPart "worldName" None None (wire.Text (WorldName opts))]).
Proof.
  unfold createMultipartForm. cbn [fst].
  destruct (String.eqb (Note opts) ""), (String.eqb (WorldID opts) ""),
    (String.eqb (WorldName opts) ""); reflexivity.
Qed.

Lemma In_form (imageData : upload.Png) (opts : Options) (now : time.Time)
    (boundary : string) (part : wire.Part) :
  In part (fst (createMultipartForm imageData opts now boundary)) <->
  part = wire.mkPart "image" (Some (filepath.Base (ImagePath opts)))
                     (Some "image/png"%string) (wire.Image imageData) \/
  part = wire.mkPart "timestamp" None None (wire.Timestamp now) \/
  (Note opts <> ""%string /\ part = wire.mkPart "note" None None (wire.Text (Note opts))) \/
  (WorldID opts <> ""%string /\
   part = wire.mkPart "worldId" None None (wire.Text (WorldID opts))) \/
  (WorldName opts <> ""%string /\
   part = wire.mkPart "worldName" None None (wire.Text (WorldName opts))).
Proof.
  rewrite form_cases, !in_app_iff.
  destruct (String.eqb_spec (Note opts) "") as [Hnote | Hnote];
    destruct (String.eqb_spec (WorldID opts) "") as [Hid | Hid];
    destruct (String.eqb_spec (WorldName opts) "") as [Hname | Hname];
    simpl; intuition congruence.
Qed.

(** X23: the form of an upload.  It starts with the image, under the field
    name image, as image/png and with the base name of the path as file
    name, followed by the timestamp; a field note, worldId or worldName is
    in the form exactly when the option is not empty, and then carries the
    option as it is; no field name occurs twice and no text field is empty. *)
Theorem createMultipartForm_parts (imageData : upload.Png) (opts : Options)
    (now : time.Time) (boundary : string) :
  let parts := fst (createMultipartForm imageData opts now boundary) in
  (exists optional,
     parts = wire.mkPart "image" (Some (filepath.Base (ImagePath opts)))
                         (Some "image/png"%string) (wire.Image imageData)
             :: wire.mkPart "timestamp" None None (wire.Timestamp now) :: optional) /\
  (forall name value,
     In (name, value) [("note", Note opts); ("worldId", WorldID opts);
                       ("worldName", WorldName opts)]%string ->
     (In (wire.mkPart name None None (wire.Text value)) parts <-> value <> ""%string) /\
     (forall part, In part parts -> wire.FieldName part = name ->
                   part = wire.mkPart name None None (wire.Text value))) /\
  NoDup (map wire.FieldName parts) /\
  (forall part, In part parts -> wire.PartContent part <> wire.Text "").
Proof.
  intros parts. split; [|split; [|split]].
  - subst parts. rewrite form_cases. eexists. reflexivity.
  - intros name value Hin. simpl in Hin.
    destruct Hin as [[= <- <-] | [[= <- <-] | [[= <- <-] | []]]]; split.
    all: try (subst parts; rewrite In_form; split;
              [intros [H | [H | [[H ?] | [[H ?] | [H ?]]]]];
                 try discriminate; assumption
              |tauto]).
    all: intros part Hpart Hfield; subst parts; apply In_form in Hpart;
      destruct Hpart as [-> | [-> | [[_ ->] | [[_ ->] | [_ ->]]]]];
      try discriminate; reflexivity.
  - subst parts. rewrite form_cases.
    destruct (String.eqb (Note opts) ""), (String.eqb (WorldID opts) ""),
      (String.eqb (WorldName opts) "");
      simpl; apply (bool_decide_unpack _); vm_compute; exact I.
  - intros part Hpart. subst parts. apply In_form in Hpart.
    destruct Hpart as [-> | [-> | [[H ->] | [[H ->] | [H ->]]]]]; simpl;
      try discriminate; congruence.
Qed.

(** X24: [Upload] returns a result exactly when the image could be
    prepared and the reply to the request POST /prints, which carries the
    form made from the prepared image, has status 200: every other status,
    201 or 204 as well, is a failure that reports the status and the body of
    the reply.  When the preparation fails, that failure is returned
    whatever the service would answer. *)
Theorem Upload_outcomes (u : Uploader) (opts : Options)
    (png_Encode : image.Image -> option Z) (images : string -> option upload.SourceFile)
    (now : time.Time) (boundary : string) (send : wire.RoundTrip UploadResult) :
  let prepared := upload.prepareImage png_Encode (images (ImagePath opts)) (NoResize opts) in
  let request (png : upload.Png) :=
    uploadRequest (fst (createMultipartForm png opts now boundary))
                  (snd (createMultipartForm png opts now boundary)) in
  (forall result,
     Upload u opts png_Encode images now boundary send = inr result <->
     exists png resp,
       prepared = upload.Ok png /\ send (request png) = inr resp /\
       wire.StatusCode resp = 200 /\ wire.Result resp = result) /\
  (forall e,
     prepared = upload.Failed e ->
     forall send', Upload u opts png_Encode images now boundary send' = inl (PrepareFailed e)) /\
  (forall png resp,
     prepared = upload.Ok png -> send (request png) = inr resp ->
     wire.StatusCode resp <> 200 ->
     Upload u opts png_Encode images now boundary send
       = inl (StatusFailed (wire.StatusCode resp) (wire.BodyString resp))) /\
  (forall png err,
     prepared = upload.Ok png -> send (request png) = inl err ->
     Upload u opts png_Encode images now boundary send = inl (RequestFailed err)).
Proof.
  intros prepared request. subst prepared request. unfold Upload.
  destruct (upload.prepareImage png_Encode (images (ImagePath opts)) (NoResize opts))
    as [png | e].
  - destruct (createMultipartForm png opts now boundary) as [body contentType] eqn:Hform.
    cbn [fst snd]. split; [|split; [|split]].
    + intros result. split.
      * destruct (send (uploadRequest body contentType)) as [err | resp] eqn:Hsend;
          [discriminate|].
        destruct (Z.eqb_spec (wire.StatusCode resp) 200) as [Hok | Hbad]; [|discriminate].
        intros [= <-]. exists png, resp. rewrite Hform. cbn [fst snd]. auto.
      * intros (png' & resp & [= <-] & Hsend & Hok & <-).
        rewrite Hform in Hsend. cbn [fst snd] in Hsend. rewrite Hsend.
        apply Z.eqb_eq in Hok. now rewrite Hok.
    + discriminate.
    + intros png' resp [= <-] Hsend Hbad. rewrite Hform in Hsend. cbn [fst snd] in Hsend.
      rewrite Hsend. apply Z.eqb_neq in Hbad. now rewrite Hbad.
    + intros png' err [= <-] Hsend. rewrite Hform in Hsend. cbn [fst snd] in Hsend.
      now rewrite Hsend.
  - split; [|split; [|split]]; try discriminate.
    + intros result. split; [discriminate|]. intros (png & resp & Hprep & _). discriminate.
    + now intros e' [= <-] send'.
Qed.

End UploaderProofs.



(** * Properties of the configuration *)

Section ConfigProofs.
Import config.


End ConfigProofs.


(** * Properties of the session of the application *)

Section GuiProofs.
Import os.

(** X26: [App.IsAuthenticated] is true exactly when the local check of the
    cookie passes and the service answers the question for the current
    user with status 200.  When the local check fails, the service is not
    asked: the answer is false and the application is unchanged whatever
    the service would say.  The upload service is never touched. *)
Theorem App_IsAuthenticated_outcomes (a : gui.App) (now : time.Time)
    (send : wire.RoundTrip auth.User) :
  (fst (gui.IsAuthenticated a now send) = true <->
   auth.IsAuthenticated (gui.authClient a) now = true /\
   exists resp, send auth.userRequest = inr resp /\ wire.StatusCode resp = 200) /\
  (auth.IsAuthenticated (gui.authClient a) now = false ->
   forall send', gui.IsAuthenticated a now send' = (false, a)) /\
  gui.uploadService (snd (gui.IsAuthenticated a now send)) = gui.uploadService a.
Proof.
  unfold gui.IsAuthenticated, auth.GetCurrentUser. fold auth.userRequest.
  destruct (auth.IsAuthenticated (gui.authClient a) now) eqn:Hlocal; simpl negb; cbv iota.
  - split; [|split; [discriminate|]].
    + destruct (send auth.userRequest) as [err | resp]; simpl.
      * split; [discriminate|]. intros (_ & resp & [=] & _).
      * destruct (Z.eqb_spec (wire.StatusCode resp) 200) as [Hok | Hbad]; simpl.
        -- split; [|reflexivity]. intros _. split; [reflexivity|]. now exists resp.
        -- split; [discriminate|]. intros (_ & r & [= <-] & Hok). contradiction.
    + destruct (send auth.userRequest) as [err | resp]; [reflexivity|].
      now destruct (negb (wire.StatusCode resp =? 200)).
  - split; [|split; [reflexivity..]].
    split; [discriminate|]. intros [[=] _].
Qed.

Lemma Contains_behind (front s substr : string) :
  strings.Contains s substr = true ->
  strings.Contains (String.append front s) substr = true.
Proof.
  intros Hs. induction front as [|c front IH]; [exact Hs|].
  rewrite append_cons. simpl. rewrite IH. apply orb_true_r.
Qed.

(** X27: how [App.Login] finds out that a second factor is wanted: from
    the text of the error.  When the service asks for a second factor,
    [App.Login] answers that two-factor authentication is required, sets up
    no upload service and writes no file.  It gives the same answer when
    the service reports an error whose text contains "2FA", although no
    second factor was asked for. *)
Theorem App_Login_second_factor {codec : json.Codec} (describe : error -> string)
    (a : gui.App) (req : gui.LoginRequest)
    (sendLogin : wire.RoundTrip auth.AuthResponse) (sendUser : wire.RoundTrip auth.User)
    (w : World) (resp : wire.Reply auth.AuthResponse) :
  sendLogin (auth.loginRequest
               (auth.mkLoginOptions (gui.Username req) (gui.Password req) false))
    = inr resp ->
  (auth.Error (wire.Result resp) = ""%string /\ auth.needsTwoFactor (wire.Result resp) = true) \/
  strings.Contains (auth.Error (wire.Result resp)) "2FA" = true ->
  let '(response, a', w') := gui.Login describe a req sendLogin sendUser w in
  response = gui.mkLoginResponse false "Two-factor authentication required" true "" /\
  gui.uploadService a' = gui.uploadService a /\
  gui.authClient a' = auth.saveCookies (gui.authClient a) (wire.Cookies resp) /\
  w' = w.
Proof.
  intros Hsend Hcase. unfold gui.Login, bind, ret.
  rewrite Login_cases, Hsend. cbv zeta.
  destruct Hcase as [[Herror Htwo] | Htext].
  - rewrite Herror, Htwo. simpl. repeat split.
  - destruct (String.eqb_spec (auth.Error (wire.Result resp)) "") as [Hempty | _].
    { rewrite Hempty in Htext. discriminate. }
    simpl negb. cbv iota. cbn [fst snd failureText].
    rewrite (Contains_behind "authentication failed: " _ "2FA" Htext).
    simpl. repeat split.
Qed.

Lemma App_Login_second_factor_witness :
  let a := gui.mkApp sample.cfg (auth.unloaded sample.cfg) None in
  let req := gui.mkLoginRequest "user" "p@ss w0rd!" in
  let w := sample.world None [] in
  let resp := wire.mkReply 200 "200 OK" [sample.authCookie "pending_token" 0] ""
                (auth.mkAuthResponse None ["totp"%string] "") in
  (scenario.secondFactorWanted
     (auth.loginRequest (auth.mkLoginOptions (gui.Username req) (gui.Password req) false))
   = inr resp /\
   ((auth.Error (wire.Result resp) = ""%string /\
     auth.needsTwoFactor (wire.Result resp) = true) \/
    strings.Contains (auth.Error (wire.Result resp)) "2FA" = true)) /\
  gui.RequiresTwoFactor
    (fst (fst (gui.Login (codec := sample.codec) (fun _ => ""%string) a req
                 scenario.secondFactorWanted scenario.currentUser w))) = true.
Proof.
  intros a req w resp.
  assert (Hsend : scenario.secondFactorWanted
                    (auth.loginRequest
                       (auth.mkLoginOptions (gui.Username req) (gui.Password req) false))
                  = inr resp) by reflexivity.
  assert (Hcase : (auth.Error (wire.Result resp) = ""%string /\
                   auth.needsTwoFactor (wire.Result resp) = true) \/
                  strings.Contains (auth.Error (wire.Result resp)) "2FA" = true)
    by (left; split; reflexivity).
  split; [auto|].
  pose proof (App_Login_second_factor (codec := sample.codec) (fun _ => ""%string) a req
                scenario.secondFactorWanted scenario.currentUser w resp Hsend Hcase) as H.
  destruct (gui.Login (fun _ => ""%string) a req scenario.secondFactorWanted
              scenario.currentUser w) as [[response a'] w'].
  destruct H as (-> & _). reflexivity.
Defined.

Lemma loadCookies_keeps_RetryCount {codec : json.Codec} (c : auth.Client) (w : World) :
  resty.RetryCount (auth.httpClient (snd (fst (auth.loadCookies c w))))
  = resty.RetryCount (auth.httpClient c).
Proof.
  unfold auth.loadCookies, Open, Read, bind, ret.
  destruct (answer w) as [[f|] w1]; [reflexivity|].
  destruct (files w1 !! config.CookieFile (auth.config c)) as [file|]; [|reflexivity].
  destruct (answer w1) as [[f|] w2]; [reflexivity|].
  destruct (files w2 !! config.CookieFile (auth.config c)) as [file2|]; [|reflexivity].
  now destruct (json.Decode (data file2) (auth.cookies c)) as [m [err|]].
Qed.

(** X28: the application does not upload through the retrying transport.
    The transport of a client made by [NewClient] has a retry count of 0,
    the session operations leave it so, and the upload service that
    [App.Login] sets up after a successful login is built on that very
    transport: a request sent through it is attempted once, whatever the
    outcome of the attempt. *)
Theorem App_upload_is_not_retried {codec : json.Codec} (describe : error -> string)
    (a : gui.App) (req : gui.LoginRequest)
    (sendLogin : wire.RoundTrip auth.AuthResponse) (sendUser : wire.RoundTrip auth.User)
    (w : World) :
  (forall cfg w0, resty.RetryCount (auth.httpClient (fst (auth.NewClient cfg w0))) = 0%nat) /\
  (resty.RetryCount (auth.httpClient (gui.authClient a)) = 0%nat ->
   let '(response, a', _) := gui.Login describe a req sendLogin sendUser w in
   gui.Success response = true ->
   exists service,
     gui.uploadService a' = Some service /\
     uploader.client service = auth.httpClient (gui.authClient a') /\
     forall operation, resty.Execute (uploader.client service) operation
                       = (operation 0%nat, 0%nat)).
Proof.
  split.
  - intros cfg w0. rewrite NewClient_loadCookies. cbn [fst].
    now rewrite loadCookies_keeps_RetryCount.
  - intros Hcount. unfold gui.Login, bind, ret. rewrite Login_cases.
    destruct (sendLogin _) as [err | resp]; cbn [fst snd].
    { destruct (_ || _); simpl; discriminate. }
    cbv zeta. destruct (negb _); cbn [fst snd].
    { destruct (_ || _); simpl; discriminate. }
    destruct (auth.needsTwoFactor _); cbn [fst snd].
    { simpl. discriminate. }
    unfold auth.afterSave.
    destruct (auth.saveCookiesToFile _ w) as [[e|] w1]; cbn [fst snd].
    { destruct (_ || _); simpl; discriminate. }
    unfold auth.GetCurrentUser. cbn [gui.authClient gui.config].
    assert (Hexec : forall t : resty.Client,
               resty.RetryCount t = 0%nat ->
               forall operation, resty.Execute t operation = (operation 0%nat, 0%nat)).
    { intros t Ht operation. unfold resty.Execute. now rewrite Ht. }
    destruct (sendUser _) as [err | reply]; [|destruct (negb _)];
      intros _; eexists; (split; [reflexivity|]); (split; [reflexivity|]);
      apply Hexec; exact Hcount.
Qed.

Lemma App_upload_is_not_retried_witness :
  let a := gui.mkApp sample.cfg (auth.unloaded sample.cfg) None in
  let req := gui.mkLoginRequest "user" "p@ss w0rd!" in
  let w := sample.world None [] in
  let outcome := gui.Login (codec := sample.codec) (fun _ => ""%string) a req
                   scenario.accepted scenario.currentUser w in
  (resty.RetryCount (auth.httpClient (gui.authClient a)) = 0%nat /\
   gui.Success (fst (fst outcome)) = true) /\
  exists service,
    gui.uploadService (snd (fst outcome)) = Some service /\
    forall operation, resty.Execute (uploader.client service) operation
                      = (operation 0%nat, 0%nat).
Proof.
  intros a req w outcome.
  assert (Hcount : resty.RetryCount (auth.httpClient (gui.authClient a)) = 0%nat)
    by reflexivity.
  assert (Hsuccess : gui.Success (fst (fst outcome)) = true) by reflexivity.
  split; [auto|].
  pose proof (proj2 (App_upload_is_not_retried (codec := sample.codec) (fun _ => ""%string)
                       a req scenario.accepted scenario.currentUser w) Hcount) as H.
  fold outcome in H. destruct outcome as [[response a'] w'].
  destruct (H Hsuccess) as (service & Hservice & _ & Hexec).
  exists service. split; assumption.
Defined.


End GuiProofs.


(** * The cookie file: what is written is read back *)

(** ** The calendar and the text of a time *)

Ltac dlia := Z.div_mod_to_equations; lia.

Section TimeProofs.
Import calendar rfc3339.

Lemma isLeap_spec (year : Z) :
  isLeap year = true <-> year mod 4 = 0 /\ (year mod 100 <> 0 \/ year mod 400 = 0).
Proof.
  unfold isLeap. rewrite andb_true_iff, orb_true_iff, negb_true_iff, !Z.eqb_eq, Z.eqb_neq.
  reflexivity.
Qed.

(** The year and the day of the year of a day, and back. *)
Lemma absYearDay_spec (days : Z) :
  let '(year, yday) := absYearDay days in
  daysSinceEpoch year + yday = days /\
  0 <= yday < (if isLeap year then 366 else 365).
Proof.
  unfold absYearDay, daysSinceEpoch, daysPer400Years, daysPer100Years, daysPer4Years.
  cbv zeta. rewrite !Z.shiftr_div_pow2 by lia. change (2 ^ 2) with 4.
  change (365 * 400 + 97) with 146097. change (365 * 100 + 24) with 36524.
  change (365 * 4 + 1) with 1461.
  set (n400 := days / 146097).
  set (d1 := days - 146097 * n400).
  assert (H1 : 0 <= d1 < 146097) by (subst d1 n400; dlia).
  set (n100 := d1 / 36524).
  assert (Hn100 : 0 <= n100 <= 4) by (subst n100; dlia).
  set (n100' := n100 - n100 / 4).
  assert (Hn100' : (n100 <= 3 /\ n100' = n100) \/ (n100 = 4 /\ n100' = 3))
    by (subst n100'; dlia).
  set (d2 := d1 - 36524 * n100').
  assert (H2 : 0 <= d2 <= 36524 /\ (d2 = 36524 -> n100' = 3))
    by (subst d2 n100; dlia).
  set (n4 := d2 / 1461).
  assert (Hn4 : 0 <= n4 <= 24) by (subst n4; dlia).
  set (d3 := d2 - 1461 * n4).
  assert (H3 : 0 <= d3 < 1461) by (subst d3 n4; dlia).
  set (n1 := d3 / 365).
  assert (Hn1 : 0 <= n1 <= 4) by (subst n1; dlia).
  set (n1' := n1 - n1 / 4).
  assert (Hn1' : (n1 <= 3 /\ n1' = n1) \/ (n1 = 4 /\ n1' = 3)) by (subst n1'; dlia).
  set (d4 := d3 - 365 * n1').
  assert (H4 : 0 <= d4 <= 365 /\ (d4 = 365 -> n1' = 3 /\ d3 = 1460))
    by (subst d4 n1; dlia).
  set (year := 400 * n400 + 100 * n100' + 4 * n4 + n1' + 1).
  replace (year - 1) with (400 * n400 + (100 * n100' + 4 * n4 + n1')) by (subst year; dlia).
  assert (Hy1 : 0 <= 100 * n100' + 4 * n4 + n1' < 400) by dlia.
  assert (Hq400 : (400 * n400 + (100 * n100' + 4 * n4 + n1')) / 400 = n400).
  { symmetry. apply (Z.div_unique _ _ _ (100 * n100' + 4 * n4 + n1')); dlia. }
  rewrite Hq400.
  replace (400 * n400 + (100 * n100' + 4 * n4 + n1') - 400 * n400)
    with (100 * n100' + (4 * n4 + n1')) by dlia.
  assert (Hy2 : 0 <= 4 * n4 + n1' < 100) by dlia.
  assert (Hq100 : (100 * n100' + (4 * n4 + n1')) / 100 = n100').
  { symmetry. apply (Z.div_unique _ _ _ (4 * n4 + n1')); dlia. }
  rewrite Hq100.
  replace (100 * n100' + (4 * n4 + n1') - 100 * n100') with (4 * n4 + n1') by dlia.
  assert (Hq4 : (4 * n4 + n1') / 4 = n4).
  { symmetry. apply (Z.div_unique _ _ _ n1'); dlia. }
  rewrite Hq4.
  split; [subst d4 d3 d2 d1; dlia|].
  destruct (isLeap year) eqn:Hleap; [dlia|].
  assert (d4 <> 365); [|dlia].
  intros Hd4. destruct H4 as [_ H4]. destruct (H4 Hd4) as [Hn1'3 Hd3].
  assert (Hl : isLeap year = true); [|congruence].
  apply isLeap_spec.
  assert (Hyear : year = 400 * n400 + 100 * n100' + 4 * (n4 + 1)) by (subst year; dlia).
  split; [rewrite Hyear; dlia|].
  destruct (Z.eq_dec n4 24) as [Hn24 | Hn24].
  - right. assert (d2 = 36524) by (subst d3; dlia).
    assert (n100' = 3) by dlia. rewrite Hyear. subst n4.
    replace (400 * n400 + 100 * n100' + 4 * (24 + 1)) with (400 * (n400 + 1)) by dlia.
    dlia.
  - left. rewrite Hyear . dlia.
Qed.

Lemma monthDay_checked (leap : bool) :
  forallb (monthDayOK leap) (map Z.of_nat (seq 0 (if leap then 366 else 365))) = true.
Proof. destruct leap; vm_compute; reflexivity. Qed.

(** The month and the day of a day of the year, and back. *)
Lemma monthDay_spec (leap : bool) (yday : Z) :
  0 <= yday < (if leap then 366 else 365) ->
  let '(m, d) := monthDay leap yday in
  1 <= m <= 12 /\
  1 <= d <= (if (m =? 2) && leap then 29 else daysBefore m - daysBefore (m - 1)) /\
  daysBefore (m - 1) + (if leap && (m >=? 3) then 1 else 0) + (d - 1) = yday.
Proof.
  intros Hyday.
  pose proof (monthDay_checked leap) as Hall. rewrite forallb_forall in Hall.
  specialize (Hall yday). unfold monthDayOK in Hall.
  destruct (monthDay leap yday) as [m d].
  rewrite !andb_true_iff, !Z.leb_le, Z.eqb_eq in Hall.
  assert (Hin : In yday (map Z.of_nat (seq 0 (if leap then 366 else 365)))).
  { apply in_map_iff. exists (Z.to_nat yday). split; [lia|].
    apply in_seq. destruct leap; lia. }
  specialize (Hall Hin). lia.
Qed.

(** [Date] undoes [absDate]. *)
Lemma Date_absDate (days hour min sec nsec : Z) :
  let '(year, month, day) := absDate days in
  0 <= year <= 9999 ->
  (1 <= month <= 12 /\ 1 <= day <= daysIn month year) /\
  Date year month day hour min sec nsec
  = (days * secondsPerDay + (hour * 3600 + min * 60 + sec)) * 1000000000 + nsec.
Proof.
  unfold absDate. pose proof (absYearDay_spec days) as Hyd.
  destruct (absYearDay days) as [year yday]. destruct Hyd as [Hdays Hyday].
  pose proof (monthDay_spec (isLeap year) yday Hyday) as Hmd.
  destruct (monthDay (isLeap year) yday) as [month day]. cbn [fst snd].
  destruct Hmd as (Hm & Hd & Hback). intros _.
  split.
  - split; [assumption|]. unfold daysIn. exact Hd.
  - unfold Date. cbv zeta.
    replace (if isLeap year && (month >=? 3) then daysSinceEpoch year + daysBefore (month - 1) + 1
             else daysSinceEpoch year + daysBefore (month - 1))
      with (daysSinceEpoch year + daysBefore (month - 1)
            + (if isLeap year && (month >=? 3) then 1 else 0))
      by (destruct (isLeap year && (month >=? 3)); lia).
    f_equal. f_equal. f_equal. lia.
Qed.

(** *** Digits *)

Lemma digit_spec (k : Z) :
  0 <= k < 10 ->
  isDigit (digit k) = true /\ Z.of_N (N_of_ascii (digit k)) - 48 = k /\
  Ascii.eqb (digit k) "0" = (k =? 0).
Proof.
  intros Hk.
  assert (Hcases : k = 0 \/ k = 1 \/ k = 2 \/ k = 3 \/ k = 4 \/ k = 5 \/ k = 6 \/ k = 7
                   \/ k = 8 \/ k = 9) by lia.
  repeat (destruct Hcases as [-> | Hcases]; [repeat split|]). subst. repeat split.
Qed.

Lemma atoi_digit (k : Z) (rest : string) (x : Z) :
  0 <= k < 10 -> atoi (String (digit k) rest) x = atoi rest (x * 10 + k).
Proof.
  intros Hk. destruct (digit_spec k Hk) as (Hd & Hv & _).
  cbn [atoi]. now rewrite Hd, Hv.
Qed.

Lemma parseUint_2 (x lo hi : Z) :
  0 <= x < 100 -> lo <= x <= hi ->
  parseUint (appendInt x 2) lo hi = Some x.
Proof.
  intros Hx Hr. unfold parseUint. cbn [appendInt]. 
  change (10 ^ Z.of_nat 1) with 10. change (10 ^ Z.of_nat 0) with 1.
  rewrite !atoi_digit by dlia. cbn [atoi].
  replace (_ + _) with x by dlia.
  destruct (Z.ltb_spec x lo); [lia|]. destruct (Z.ltb_spec hi x); [lia|]. reflexivity.
Qed.

Lemma parseUint_4 (x lo hi : Z) :
  0 <= x < 10000 -> lo <= x <= hi ->
  parseUint (appendInt x 4) lo hi = Some x.
Proof.
  intros Hx Hr. unfold parseUint. cbn [appendInt].
  change (10 ^ Z.of_nat 3) with 1000. change (10 ^ Z.of_nat 2) with 100.
  change (10 ^ Z.of_nat 1) with 10. change (10 ^ Z.of_nat 0) with 1.
  rewrite !atoi_digit by dlia. cbn [atoi].
  replace (_ + _) with x by dlia.
  destruct (Z.ltb_spec x lo); [lia|]. destruct (Z.ltb_spec hi x); [lia|]. reflexivity.
Qed.


Lemma append_nil_l (s : string) : String.append EmptyString s = s.
Proof. reflexivity. Qed.

Lemma append_nil_r (s : string) : String.append s EmptyString = s.
Proof.
  induction s as [|c s IH]; [reflexivity|]. now rewrite append_cons, IH.
Qed.

Lemma substring_0_0 (s : string) : String.substring 0 0 s = EmptyString.
Proof. now destruct s. Qed.

Lemma substring_all (s : string) (n : nat) :
  (String.length s <= n)%nat -> String.substring 0 n s = s.
Proof.
  revert n. induction s as [|c s IH]; intros n Hn.
  - now destruct n.
  - destruct n as [|n]; [simpl in Hn; lia|]. cbn [String.substring].
    rewrite IH; [reflexivity|]. simpl in Hn. lia.
Qed.

Lemma mod_pow10_succ (x : Z) (w : nat) :
  x mod 10 ^ Z.of_nat (S w) = ((x / 10 ^ Z.of_nat w) mod 10) * 10 ^ Z.of_nat w
                              + x mod 10 ^ Z.of_nat w.
Proof.
  rewrite Nat2Z.inj_succ, Z.pow_succ_r by lia.
  assert (Hpos : 0 < 10 ^ Z.of_nat w) by (apply Z.pow_pos_nonneg; lia).
  rewrite (Z.mul_comm 10), Z.rem_mul_r by lia. lia.
Qed.

(** The digits of the nanoseconds without the zeros at their end: what
    they spell, and where they end. *)
Lemma trimZeros_appendInt (x : Z) (w : nat) :
  let kept := trimZeros (appendInt x w) in
  (String.length kept <= w)%nat /\
  (kept = EmptyString -> x mod 10 ^ Z.of_nat w = 0) /\
  (forall acc, exists v,
     atoi kept acc = Some v /\
     v * 10 ^ Z.of_nat (w - String.length kept)
     = acc * 10 ^ Z.of_nat w + x mod 10 ^ Z.of_nat w) /\
  (forall rest, (forall c r, rest = String c r -> isDigit c = false) ->
     digitsOf (String.append kept rest) = (kept, rest)).
Proof.
  induction w as [|w (Hlen & Hnil & Hval & Hdigits)].
  - cbn. split; [lia|]. split; [intros _; apply Z.mod_1_r|]. split.
    + intros acc. exists acc. split; [reflexivity|]. rewrite Z.mod_1_r. lia.
    + intros rest Hrest. rewrite append_nil_l.
      destruct rest as [|c r]; [reflexivity|]. cbn [digitsOf].
      now rewrite (Hrest c r eq_refl).
  - cbn [appendInt trimZeros]. cbv zeta in *.
    set (a := (x / 10 ^ Z.of_nat w) mod 10).
    assert (Ha : 0 <= a < 10) by (subst a; dlia).
    destruct (digit_spec a Ha) as (Hd & Hv & Hz).
    pose proof (mod_pow10_succ x w) as Hmod. fold a in Hmod.
    assert (Hpow : 10 ^ Z.of_nat (S w) = 10 * 10 ^ Z.of_nat w)
      by (rewrite Nat2Z.inj_succ, Z.pow_succ_r by lia; reflexivity).
    assert (Hpos : 0 < 10 ^ Z.of_nat w) by (apply Z.pow_pos_nonneg; lia).
    destruct (trimZeros (appendInt x w)) as [|k kept] eqn:Hkept.
    + specialize (Hnil eq_refl). rewrite Hz.
      destruct (Z.eqb_spec a 0) as [Ha0 | Ha0].
      * cbn [String.length]. split; [lia|]. split; [intros _; lia|]. split.
        -- intros acc. exists acc. split; [reflexivity|].
           rewrite Nat.sub_0_r. lia.
        -- intros rest Hrest. rewrite append_nil_l.
           destruct rest as [|c r]; [reflexivity|]. cbn [digitsOf].
           now rewrite (Hrest c r eq_refl).
      * cbn [String.length]. split; [lia|]. split; [discriminate|]. split.
        -- intros acc. exists (acc * 10 + a). split; [now rewrite atoi_digit|].
           replace (S w - 1)%nat with w by lia. lia.
        -- intros rest Hrest. rewrite append_cons, append_nil_l. cbn [digitsOf].
           rewrite Hd. destruct rest as [|c r]; [reflexivity|]. cbn [digitsOf].
           now rewrite (Hrest c r eq_refl).
    + cbn [String.length] in *. split; [lia|]. split; [discriminate|]. split.
      * intros acc. destruct (Hval (acc * 10 + a)) as (v & Hv1 & Hv2).
        exists v. split; [now rewrite atoi_digit|].
        cbn [Nat.sub]. lia.
      * intros rest Hrest. rewrite append_cons. cbn [digitsOf]. rewrite Hd.
        now rewrite (Hdigits rest Hrest).
Qed.

Lemma appendInt_2_shape (x : Z) :
  exists c1 c2, appendInt x 2 = String c1 (String c2 EmptyString).
Proof. now eexists _, _. Qed.

Lemma appendInt_4_shape (x : Z) :
  exists c1 c2 c3 c4,
    appendInt x 4 = String c1 (String c2 (String c3 (String c4 EmptyString))).
Proof. now eexists _, _, _, _. Qed.

Lemma daysIn_le (month year : Z) : 1 <= month <= 12 -> daysIn month year <= 31.
Proof.
  intros Hm. unfold daysIn. destruct ((month =? 2) && isLeap year); [lia|].
  assert (Hcases : month = 1 \/ month = 2 \/ month = 3 \/ month = 4 \/ month = 5
                   \/ month = 6 \/ month = 7 \/ month = 8 \/ month = 9
                   \/ month = 10 \/ month = 11 \/ month = 12) by lia.
  repeat (destruct Hcases as [-> | Hcases]; [now apply Z.leb_le|]). subst.
  now apply Z.leb_le.
Qed.

(** The text of a time whose year has four digits is read back as that
    time. *)
Lemma parseRFC3339_appendFormatRFC3339 (t : time.Time) :
  0 <= Year t <= 9999 ->
  parseRFC3339 (appendFormatRFC3339 t) = Some t.
Proof.
  intros Hyear.
  assert (Hfields :
    (1 <= Month t <= 12 /\ 1 <= Day t <= daysIn (Month t) (Year t)) /\
    Date (Year t) (Month t) (Day t) (Hour t) (Minute t) (Second t) (Nanosecond t) = t).
  { pose proof (Date_absDate (abs t / secondsPerDay) (Hour t) (Minute t) (Second t)
                  (Nanosecond t)) as H.
    unfold Year, Month, Day in *.
    destruct (absDate (abs t / secondsPerDay)) as [[y m] d]. cbn [fst snd] in *.
    destruct (H Hyear) as [Hr ->]. split; [exact Hr|].
    unfold Hour, Minute, Second, Nanosecond, abs, secondsPerDay. dlia. }
  destruct Hfields as [[Hmonth Hday] Hdate].
  assert (Hhour : 0 <= Hour t <= 23) by (unfold Hour, secondsPerDay; dlia).
  assert (Hmin : 0 <= Minute t <= 59) by (unfold Minute; dlia).
  assert (Hsec : 0 <= Second t <= 59) by (unfold Second; dlia).
  assert (Hns : 0 <= Nanosecond t < 1000000000) by (unfold Nanosecond; dlia).
  assert (Hdayle : Day t < 100)
    by (pose proof (daysIn_le (Month t) (Year t) Hmonth); lia).
  pose proof (parseUint_4 (Year t) 0 9999 ltac:(lia) ltac:(lia)) as Py.
  pose proof (parseUint_2 (Month t) 1 12 ltac:(lia) ltac:(lia)) as Pmo.
  pose proof (parseUint_2 (Day t) 1 (daysIn (Month t) (Year t)) ltac:(lia) ltac:(lia)) as Pd.
  pose proof (parseUint_2 (Hour t) 0 23 ltac:(lia) ltac:(lia)) as Ph.
  pose proof (parseUint_2 (Minute t) 0 59 ltac:(lia) ltac:(lia)) as Pmi.
  pose proof (parseUint_2 (Second t) 0 59 ltac:(lia) ltac:(lia)) as Ps.
  unfold appendFormatRFC3339.
  destruct (appendInt_4_shape (Year t)) as (y1 & y2 & y3 & y4 & Ey).
  destruct (appendInt_2_shape (Month t)) as (o1 & o2 & Eo).
  destruct (appendInt_2_shape (Day t)) as (d1 & d2 & Ed).
  destruct (appendInt_2_shape (Hour t)) as (h1 & h2 & Eh).
  destruct (appendInt_2_shape (Minute t)) as (m1 & m2 & Em).
  destruct (appendInt_2_shape (Second t)) as (s1 & s2 & Es).
  rewrite Ey, Eo, Ed, Eh, Em, Es in *.
  set (frac := appendNano (Nanosecond t)).
  cbn [String.concat]. rewrite !append_cons, !append_nil_l.
  unfold parseRFC3339.
  cbn [String.length Nat.ltb Nat.leb String.substring isAt String.get Nat.sub].
  rewrite Py. cbn [mbind option_bind]. rewrite Pmo. cbn [mbind option_bind].
  rewrite Pd. cbn [mbind option_bind]. rewrite Ph. cbn [mbind option_bind].
  rewrite Pmi. cbn [mbind option_bind]. rewrite substring_0_0, Ps. cbn [mbind option_bind].
  rewrite !Ascii.eqb_refl. cbn [andb negb].
  rewrite substring_all by lia.
  subst frac. unfold appendNano.
  destruct (Z.eqb_spec (Nanosecond t) 0) as [Hzero | Hnonzero].
  - rewrite append_nil_l. cbv beta iota zeta. change (String.eqb "Z" "Z") with true.
    cbv iota. rewrite Hzero in Hdate. now rewrite Hdate.
  - destruct (trimZeros_appendInt (Nanosecond t) 9) as (Hlen & Hnil & Hval & Hdigits).
    cbv zeta in *.
    destruct (trimZeros (appendInt (Nanosecond t) 9)) as [|c kept] eqn:Hkept.
    { specialize (Hnil eq_refl). change (10 ^ Z.of_nat 9) with 1000000000 in Hnil. dlia. }
    specialize (Hdigits "Z"%string).
    rewrite append_cons in *.
    assert (HZ : forall c r, "Z"%string = String c r -> isDigit c = false)
      by (intros ? ? [= <- <-]; reflexivity).
    specialize (Hdigits HZ).
    assert (Hc : isDigit c = true).
    { cbn [digitsOf] in Hdigits. destruct (isDigit c); [reflexivity|discriminate]. }
    rewrite append_cons, Hc. rewrite Hdigits. cbn [fst snd].
    unfold parseNanoseconds. rewrite substring_all by exact Hlen.
    destruct (Hval 0) as (v & Hv1 & Hv2). rewrite Hv1.
    change (10 ^ Z.of_nat 9) with 1000000000 in Hv2.
    rewrite Hv2. rewrite Z.mod_small by lia. cbn [String.eqb Ascii.eqb].
    change (String.eqb "Z" "Z") with true. cbv iota.
    change (0 * 1000000000 + Nanosecond t) with (Nanosecond t). now rewrite Hdate.
Qed.

End TimeProofs.

(** ** UTF-8 *)

Section Utf8Proofs.
Import utf8.
Local Open Scope N_scope.

Ltac nlia := zify; Z.to_euclidean_division_equations; lia.

(** The classes of a first byte. *)
Lemma first_cases (b : N) :
  b < 256 ->
  (b < 0x80 /\ first b = as') \/
  (0x80 <= b /\ first b = xx) \/
  (0xC2 <= b <= 0xDF /\ first b = 0x02) \/
  (b = 0xE0 /\ first b = 0x13) \/
  ((0xE1 <= b <= 0xEC \/ 0xEE <= b <= 0xEF) /\ first b = 0x03) \/
  (b = 0xED /\ first b = 0x23) \/
  (b = 0xF0 /\ first b = 0x34) \/
  (0xF1 <= b <= 0xF3 /\ first b = 0x04) \/
  (b = 0xF4 /\ first b = 0x44).
Proof.
  intros Hb. unfold first.
  repeat match goal with
         | |- context [N.ltb ?x ?y] => destruct (N.ltb_spec x y)
         | |- context [N.eqb ?x ?y] => destruct (N.eqb_spec x y)
         end; lia.
Qed.

Lemma within_spec (lo hi : N) (c : ascii) :
  within (lo, hi) c = true <-> lo <= N_of_ascii c <= hi.
Proof.
  unfold within. cbn [fst snd].
  destruct (N.ltb_spec (N_of_ascii c) lo), (N.ltb_spec hi (N_of_ascii c)); cbn; split;
    (lia || discriminate || auto).
Qed.

Lemma land_low (b k q : N) :
  q * 2 ^ k <= b < q * 2 ^ k + 2 ^ k -> N.land b (N.ones k) = b - q * 2 ^ k.
Proof.
  intros Hb. rewrite N.land_ones.
  replace b with ((b - q * 2 ^ k) + q * 2 ^ k) at 1 by lia.
  rewrite N.Div0.mod_add. apply N.mod_small. lia.
Qed.

Lemma byte_ascii (n : N) : n < 256 -> N_of_ascii (ascii_of_N n) = n.
Proof. apply N_ascii_embedding. Qed.

Lemma ascii_byte (c : ascii) : ascii_of_N (N_of_ascii c) = c.
Proof. apply ascii_N_embedding. Qed.

(** *** Sequences of two bytes *)

Lemma rune2_value (c0 c1 : ascii) :
  0xC2 <= N_of_ascii c0 <= 0xDF -> 0x80 <= N_of_ascii c1 <= 0xBF ->
  rune2 c0 c1 = (N_of_ascii c0 - 0xC0) * 64 + (N_of_ascii c1 - 0x80).
Proof.
  intros H0 H1. unfold rune2, mask2, maskx.
  change 0x1F with (N.ones 5). change 0x3F with (N.ones 6).
  rewrite (land_low _ 5 6) by (change (2 ^ 5) with 32; lia).
  rewrite (land_low _ 6 2) by (change (2 ^ 6) with 64; lia).
  rewrite N.shiftl_mul_pow2. change (6 * 2 ^ 5) with 0xC0. change (2 * 2 ^ 6) with 0x80.
  apply lor_add_low. change (2 ^ 6) with 64. lia.
Qed.

Lemma decode2 (c0 c1 : ascii) (tail : string) :
  0xC2 <= N_of_ascii c0 <= 0xDF -> 0x80 <= N_of_ascii c1 <= 0xBF ->
  DecodeRuneInString (String c0 (String c1 tail)) = (rune2 c0 c1, 2%nat).
Proof.
  intros H0 H1.
  destruct (first_cases (N_of_ascii c0) (N_ascii_bounded c0))
    as [[? _]|[[_ Hf]|[[_ Hf]|[[? _]|[[? _]|[[? _]|[[? _]|[[? _]|[? _]]]]]]]]]; try lia.
  { exfalso. revert Hf. unfold first.
    repeat match goal with
           | |- context [N.ltb ?x ?y] => destruct (N.ltb_spec x y)
           | |- context [N.eqb ?x ?y] => destruct (N.eqb_spec x y)
           end; try lia; discriminate. }
  unfold DecodeRuneInString. cbn [String.length Nat.ltb Nat.leb at' String.get].
  rewrite Hf. cbn [as' N.leb N.compare Pos.compare Pos.compare_cont].
  change (as' <=? 2) with false. cbv iota.
  change (N.to_nat (N.land 2 7)) with 2%nat. change (acceptRanges (N.shiftr 2 4)) with (locb, hicb).
  cbn [Nat.ltb Nat.leb fst snd]. unfold locb, hicb.
  destruct (N.ltb_spec (N_of_ascii c1) 0x80); [lia|].
  destruct (N.ltb_spec 0xBF (N_of_ascii c1)); [lia|]. reflexivity.
Qed.

Lemma encode2 (c0 c1 : ascii) :
  0xC2 <= N_of_ascii c0 <= 0xDF -> 0x80 <= N_of_ascii c1 <= 0xBF ->
  AppendRune (rune2 c0 c1) = String c0 (String c1 EmptyString).
Proof.
  intros H0 H1. rewrite (rune2_value c0 c1 H0 H1).
  set (a := N_of_ascii c0 - 0xC0). set (b := N_of_ascii c1 - 0x80).
  assert (Ha : 2 <= a < 32) by (subst a; lia). assert (Hb : b < 64) by (subst b; lia).
  unfold AppendRune, rune1Max, rune2Max.
  destruct (N.leb_spec (a * 64 + b) 0x7F); [lia|].
  destruct (N.leb_spec (a * 64 + b) 0x7FF); [|lia].
  unfold bytes, byte, t2, tx, maskx. cbn [map string_of_list_ascii].
  rewrite N.shiftr_div_pow2. change (2 ^ 6) with 64. change 0x3F with (N.ones 6).
  rewrite N.land_ones. change (2 ^ 6) with 64.
  replace ((a * 64 + b) / 64 mod 256) with a by nlia.
  replace (((a * 64 + b) mod 256) mod 64) with b by nlia.
  change 0xC0 with (3 * 2 ^ 6). rewrite lor_add_low by (change (2 ^ 6) with 64; lia).
  change 0x80 with (2 * 2 ^ 6). rewrite lor_add_low by (change (2 ^ 6) with 64; lia).
  change (2 ^ 6) with 64.
  replace (3 * 64 + a) with (N_of_ascii c0) by (subst a; lia).
  replace (2 * 64 + b) with (N_of_ascii c1) by (subst b; lia).
  now rewrite !ascii_byte.
Qed.


Ltac first_by_range :=
  unfold first;
  repeat match goal with
         | |- context [N.ltb ?x ?y] => destruct (N.ltb_spec x y)
         | |- context [N.eqb ?x ?y] => destruct (N.eqb_spec x y)
         end; (reflexivity || lia).

(** *** Sequences of three bytes *)

Lemma rune3_value (c0 c1 c2 : ascii) :
  second3 c0 c1 -> 0x80 <= N_of_ascii c2 <= 0xBF ->
  rune3 c0 c1 c2 = (N_of_ascii c0 - 0xE0) * 4096 + (N_of_ascii c1 - 0x80) * 64
                   + (N_of_ascii c2 - 0x80) /\
  0x800 <= rune3 c0 c1 c2 <= 0xFFFF /\
  (rune3 c0 c1 c2 < 0xD800 \/ 0xDFFF < rune3 c0 c1 c2).
Proof.
  intros H01 H2.
  assert (H0 : 0xE0 <= N_of_ascii c0 <= 0xEF) by (unfold second3 in H01; lia).
  assert (H1 : 0x80 <= N_of_ascii c1 <= 0xBF) by (unfold second3 in H01; lia).
  assert (Hv : rune3 c0 c1 c2 = (N_of_ascii c0 - 0xE0) * 4096 + (N_of_ascii c1 - 0x80) * 64
                                + (N_of_ascii c2 - 0x80)).
  { unfold rune3, mask3, maskx.
    change 0x0F with (N.ones 4). change 0x3F with (N.ones 6).
    rewrite (land_low _ 4 14) by (change (2 ^ 4) with 16; lia).
    rewrite !(land_low _ 6 2) by (change (2 ^ 6) with 64; lia).
    change (14 * 2 ^ 4) with 0xE0. change (2 * 2 ^ 6) with 0x80.
    rewrite !N.shiftl_mul_pow2.
    rewrite (lor_add_low _ _ 12) by (change (2 ^ 12) with 4096; change (2 ^ 6) with 64; lia).
    replace ((N_of_ascii c0 - 0xE0) * 2 ^ 12 + (N_of_ascii c1 - 0x80) * 2 ^ 6)
      with (((N_of_ascii c0 - 0xE0) * 64 + (N_of_ascii c1 - 0x80)) * 2 ^ 6)
      by (change (2 ^ 12) with 4096; change (2 ^ 6) with 64; lia).
    rewrite lor_add_low by (change (2 ^ 6) with 64; lia).
    change (2 ^ 6) with 64. lia. }
  split; [exact Hv|]. rewrite Hv. unfold second3 in H01. lia.
Qed.

Lemma decode3 (c0 c1 c2 : ascii) (tail : string) :
  second3 c0 c1 -> 0x80 <= N_of_ascii c2 <= 0xBF ->
  DecodeRuneInString (String c0 (String c1 (String c2 tail))) = (rune3 c0 c1 c2, 3%nat).
Proof.
  intros H01 H2.
  unfold DecodeRuneInString. cbn [String.length Nat.ltb Nat.leb at' String.get].
  fold (rune3 c0 c1 c2).
  destruct H01 as [[H0 H1] | [[H0 H1] | [H0 H1]]].
  - replace (first (N_of_ascii c0)) with 0x13 by (rewrite H0; reflexivity).
    change (as' <=? 0x13) with false. cbv iota.
    change (N.to_nat (N.land 0x13 7)) with 3%nat.
    change (acceptRanges (N.shiftr 0x13 4)) with (0xA0, hicb).
    cbn [Nat.ltb Nat.leb fst snd]. unfold locb, hicb.
    destruct (N.ltb_spec (N_of_ascii c1) 0xA0); [lia|].
    destruct (N.ltb_spec 0xBF (N_of_ascii c1)); [lia|].
    destruct (N.ltb_spec (N_of_ascii c2) 0x80); [lia|].
    destruct (N.ltb_spec 0xBF (N_of_ascii c2)); [lia|]. reflexivity.
  - replace (first (N_of_ascii c0)) with 0x03 by (symmetry; first_by_range).
    change (as' <=? 0x03) with false. cbv iota.
    change (N.to_nat (N.land 0x03 7)) with 3%nat.
    change (acceptRanges (N.shiftr 0x03 4)) with (locb, hicb).
    cbn [Nat.ltb Nat.leb fst snd]. unfold locb, hicb.
    destruct (N.ltb_spec (N_of_ascii c1) 0x80); [lia|].
    destruct (N.ltb_spec 0xBF (N_of_ascii c1)); [lia|].
    destruct (N.ltb_spec (N_of_ascii c2) 0x80); [lia|].
    destruct (N.ltb_spec 0xBF (N_of_ascii c2)); [lia|]. reflexivity.
  - replace (first (N_of_ascii c0)) with 0x23 by (rewrite H0; reflexivity).
    change (as' <=? 0x23) with false. cbv iota.
    change (N.to_nat (N.land 0x23 7)) with 3%nat.
    change (acceptRanges (N.shiftr 0x23 4)) with (locb, 0x9F).
    cbn [Nat.ltb Nat.leb fst snd]. unfold locb, hicb.
    destruct (N.ltb_spec (N_of_ascii c1) 0x80); [lia|].
    destruct (N.ltb_spec 0x9F (N_of_ascii c1)); [lia|].
    destruct (N.ltb_spec (N_of_ascii c2) 0x80); [lia|].
    destruct (N.ltb_spec 0xBF (N_of_ascii c2)); [lia|]. reflexivity.
Qed.

Lemma encode3 (c0 c1 c2 : ascii) :
  second3 c0 c1 -> 0x80 <= N_of_ascii c2 <= 0xBF ->
  AppendRune (rune3 c0 c1 c2) = String c0 (String c1 (String c2 EmptyString)).
Proof.
  intros H01 H2. destruct (rune3_value c0 c1 c2 H01 H2) as (Hv & Hr & Hs).
  assert (H0 : 0xE0 <= N_of_ascii c0 <= 0xEF) by (unfold second3 in H01; lia).
  assert (H1 : 0x80 <= N_of_ascii c1 <= 0xBF) by (unfold second3 in H01; lia).
  revert Hr Hs. rewrite Hv.
  set (a := N_of_ascii c0 - 0xE0). set (b := N_of_ascii c1 - 0x80).
  set (c := N_of_ascii c2 - 0x80). intros Hr Hs.
  assert (Ha : a < 16) by (subst a; lia). assert (Hb : b < 64) by (subst b; lia).
  assert (Hc : c < 64) by (subst c; lia).
  unfold AppendRune, rune1Max, rune2Max, rune3Max, MaxRune, surrogateMin, surrogateMax.
  destruct (N.leb_spec (a * 4096 + b * 64 + c) 0x7F); [lia|].
  destruct (N.leb_spec (a * 4096 + b * 64 + c) 0x7FF); [lia|].
  destruct (N.ltb_spec 0x10FFFF (a * 4096 + b * 64 + c)); [lia|].
  replace ((0xD800 <=? a * 4096 + b * 64 + c) && (a * 4096 + b * 64 + c <=? 0xDFFF))
    with false
    by (destruct (N.leb_spec 0xD800 (a * 4096 + b * 64 + c)),
                 (N.leb_spec (a * 4096 + b * 64 + c) 0xDFFF); (reflexivity || lia)).
  cbn [orb]. cbv iota.
  destruct (N.leb_spec (a * 4096 + b * 64 + c) 0xFFFF); [|lia].
  unfold bytes, byte, t3, tx, maskx. cbn [map string_of_list_ascii].
  rewrite !N.shiftr_div_pow2. change (2 ^ 6) with 64. change (2 ^ 12) with 4096.
  change 0x3F with (N.ones 6). rewrite !N.land_ones. change (2 ^ 6) with 64.
  replace ((a * 4096 + b * 64 + c) / 4096 mod 256) with a by nlia.
  replace ((((a * 4096 + b * 64 + c) / 64) mod 256) mod 64) with b by nlia.
  replace (((a * 4096 + b * 64 + c) mod 256) mod 64) with c by nlia.
  change 0xE0 with (7 * 2 ^ 5). rewrite lor_add_low by (change (2 ^ 5) with 32; lia).
  change 0x80 with (2 * 2 ^ 6). rewrite !lor_add_low by (change (2 ^ 6) with 64; lia).
  change (2 ^ 6) with 64. change (2 ^ 5) with 32.
  replace (7 * 32 + a) with (N_of_ascii c0) by (subst a; lia).
  replace (2 * 64 + b) with (N_of_ascii c1) by (subst b; lia).
  replace (2 * 64 + c) with (N_of_ascii c2) by (subst c; lia).
  now rewrite !ascii_byte.
Qed.

(** *** Sequences of four bytes *)

Lemma rune4_value (c0 c1 c2 c3 : ascii) :
  second4 c0 c1 -> 0x80 <= N_of_ascii c2 <= 0xBF -> 0x80 <= N_of_ascii c3 <= 0xBF ->
  rune4 c0 c1 c2 c3 = (N_of_ascii c0 - 0xF0) * 262144 + (N_of_ascii c1 - 0x80) * 4096
                      + (N_of_ascii c2 - 0x80) * 64 + (N_of_ascii c3 - 0x80) /\
  0x10000 <= rune4 c0 c1 c2 c3 <= 0x10FFFF.
Proof.
  intros H01 H2 H3.
  assert (H0 : 0xF0 <= N_of_ascii c0 <= 0xF4) by (unfold second4 in H01; lia).
  assert (H1 : 0x80 <= N_of_ascii c1 <= 0xBF) by (unfold second4 in H01; lia).
  assert (Hv : rune4 c0 c1 c2 c3
               = (N_of_ascii c0 - 0xF0) * 262144 + (N_of_ascii c1 - 0x80) * 4096
                 + (N_of_ascii c2 - 0x80) * 64 + (N_of_ascii c3 - 0x80)).
  { unfold rune4, mask4, maskx.
    change 0x07 with (N.ones 3). change 0x3F with (N.ones 6).
    rewrite (land_low _ 3 30) by (change (2 ^ 3) with 8; lia).
    rewrite !(land_low _ 6 2) by (change (2 ^ 6) with 64; lia).
    change (30 * 2 ^ 3) with 0xF0. change (2 * 2 ^ 6) with 0x80.
    rewrite !N.shiftl_mul_pow2.
    rewrite (lor_add_low _ _ 18)
      by (change (2 ^ 18) with 262144; change (2 ^ 12) with 4096; lia).
    replace ((N_of_ascii c0 - 0xF0) * 2 ^ 18 + (N_of_ascii c1 - 0x80) * 2 ^ 12)
      with (((N_of_ascii c0 - 0xF0) * 64 + (N_of_ascii c1 - 0x80)) * 2 ^ 12)
      by (change (2 ^ 18) with 262144; change (2 ^ 12) with 4096; lia).
    rewrite (lor_add_low _ _ 12) by (change (2 ^ 12) with 4096; change (2 ^ 6) with 64; lia).
    replace (((N_of_ascii c0 - 0xF0) * 64 + (N_of_ascii c1 - 0x80)) * 2 ^ 12
             + (N_of_ascii c2 - 0x80) * 2 ^ 6)
      with ((((N_of_ascii c0 - 0xF0) * 64 + (N_of_ascii c1 - 0x80)) * 64
             + (N_of_ascii c2 - 0x80)) * 2 ^ 6)
      by (change (2 ^ 12) with 4096; change (2 ^ 6) with 64; lia).
    rewrite lor_add_low by (change (2 ^ 6) with 64; lia).
    change (2 ^ 6) with 64. lia. }
  split; [exact Hv|]. rewrite Hv. unfold second4 in H01. lia.
Qed.

Lemma decode4 (c0 c1 c2 c3 : ascii) (tail : string) :
  second4 c0 c1 -> 0x80 <= N_of_ascii c2 <= 0xBF -> 0x80 <= N_of_ascii c3 <= 0xBF ->
  DecodeRuneInString (String c0 (String c1 (String c2 (String c3 tail))))
  = (rune4 c0 c1 c2 c3, 4%nat).
Proof.
  intros H01 H2 H3.
  unfold DecodeRuneInString. cbn [String.length Nat.ltb Nat.leb at' String.get].
  fold (rune4 c0 c1 c2 c3).
  destruct H01 as [[H0 H1] | [[H0 H1] | [H0 H1]]].
  - replace (first (N_of_ascii c0)) with 0x34 by (rewrite H0; reflexivity).
    change (as' <=? 0x34) with false. cbv iota.
    change (N.to_nat (N.land 0x34 7)) with 4%nat.
    change (acceptRanges (N.shiftr 0x34 4)) with (0x90, hicb).
    cbn [Nat.ltb Nat.leb fst snd]. unfold locb, hicb.
    destruct (N.ltb_spec (N_of_ascii c1) 0x90); [lia|].
    destruct (N.ltb_spec 0xBF (N_of_ascii c1)); [lia|].
    destruct (N.ltb_spec (N_of_ascii c2) 0x80); [lia|].
    destruct (N.ltb_spec 0xBF (N_of_ascii c2)); [lia|].
    destruct (N.ltb_spec (N_of_ascii c3) 0x80); [lia|].
    destruct (N.ltb_spec 0xBF (N_of_ascii c3)); [lia|]. reflexivity.
  - replace (first (N_of_ascii c0)) with 0x04 by (symmetry; first_by_range).
    change (as' <=? 0x04) with false. cbv iota.
    change (N.to_nat (N.land 0x04 7)) with 4%nat.
    change (acceptRanges (N.shiftr 0x04 4)) with (locb, hicb).
    cbn [Nat.ltb Nat.leb fst snd]. unfold locb, hicb.
    destruct (N.ltb_spec (N_of_ascii c1) 0x80); [lia|].
    destruct (N.ltb_spec 0xBF (N_of_ascii c1)); [lia|].
    destruct (N.ltb_spec (N_of_ascii c2) 0x80); [lia|].
    destruct (N.ltb_spec 0xBF (N_of_ascii c2)); [lia|].
    destruct (N.ltb_spec (N_of_ascii c3) 0x80); [lia|].
    destruct (N.ltb_spec 0xBF (N_of_ascii c3)); [lia|]. reflexivity.
  - replace (first (N_of_ascii c0)) with 0x44 by (rewrite H0; reflexivity).
    change (as' <=? 0x44) with false. cbv iota.
    change (N.to_nat (N.land 0x44 7)) with 4%nat.
    change (acceptRanges (N.shiftr 0x44 4)) with (locb, 0x8F).
    cbn [Nat.ltb Nat.leb fst snd]. unfold locb, hicb.
    destruct (N.ltb_spec (N_of_ascii c1) 0x80); [lia|].
    destruct (N.ltb_spec 0x8F (N_of_ascii c1)); [lia|].
    destruct (N.ltb_spec (N_of_ascii c2) 0x80); [lia|].
    destruct (N.ltb_spec 0xBF (N_of_ascii c2)); [lia|].
    destruct (N.ltb_spec (N_of_ascii c3) 0x80); [lia|].
    destruct (N.ltb_spec 0xBF (N_of_ascii c3)); [lia|]. reflexivity.
Qed.

Lemma encode4 (c0 c1 c2 c3 : ascii) :
  second4 c0 c1 -> 0x80 <= N_of_ascii c2 <= 0xBF -> 0x80 <= N_of_ascii c3 <= 0xBF ->
  AppendRune (rune4 c0 c1 c2 c3)
  = String c0 (String c1 (String c2 (String c3 EmptyString))).
Proof.
  intros H01 H2 H3. destruct (rune4_value c0 c1 c2 c3 H01 H2 H3) as (Hv & Hr).
  assert (H0 : 0xF0 <= N_of_ascii c0 <= 0xF4) by (unfold second4 in H01; lia).
  assert (H1 : 0x80 <= N_of_ascii c1 <= 0xBF) by (unfold second4 in H01; lia).
  revert Hr. rewrite Hv.
  set (a := N_of_ascii c0 - 0xF0). set (b := N_of_ascii c1 - 0x80).
  set (c := N_of_ascii c2 - 0x80). set (d := N_of_ascii c3 - 0x80). intros Hr.
  assert (Ha : a < 8) by (subst a; lia). assert (Hb : b < 64) by (subst b; lia).
  assert (Hc : c < 64) by (subst c; lia). assert (Hd : d < 64) by (subst d; lia).
  set (r := a * 262144 + b * 4096 + c * 64 + d) in *.
  unfold AppendRune, rune1Max, rune2Max, rune3Max, MaxRune, surrogateMin, surrogateMax.
  destruct (N.leb_spec r 0x7F); [lia|].
  destruct (N.leb_spec r 0x7FF); [lia|].
  destruct (N.ltb_spec 0x10FFFF r); [lia|].
  replace ((0xD800 <=? r) && (r <=? 0xDFFF)) with false
    by (destruct (N.leb_spec 0xD800 r), (N.leb_spec r 0xDFFF); (reflexivity || lia)).
  cbn [orb]. cbv iota.
  destruct (N.leb_spec r 0xFFFF); [lia|].
  unfold bytes, byte, t4, tx, maskx. cbn [map string_of_list_ascii].
  rewrite !N.shiftr_div_pow2. change (2 ^ 6) with 64. change (2 ^ 12) with 4096.
  change (2 ^ 18) with 262144.
  change 0x3F with (N.ones 6). rewrite !N.land_ones. change (2 ^ 6) with 64.
  replace (r / 262144 mod 256) with a by (subst r; nlia).
  replace (((r / 4096) mod 256) mod 64) with b by (subst r; nlia).
  replace (((r / 64) mod 256) mod 64) with c by (subst r; nlia).
  replace ((r mod 256) mod 64) with d by (subst r; nlia).
  change 0xF0 with (15 * 2 ^ 4). rewrite lor_add_low by (change (2 ^ 4) with 16; lia).
  change 0x80 with (2 * 2 ^ 6). rewrite !lor_add_low by (change (2 ^ 6) with 64; lia).
  change (2 ^ 6) with 64. change (2 ^ 4) with 16.
  replace (15 * 16 + a) with (N_of_ascii c0) by (subst a; lia).
  replace (2 * 64 + b) with (N_of_ascii c1) by (subst b; lia).
  replace (2 * 64 + c) with (N_of_ascii c2) by (subst c; lia).
  replace (2 * 64 + d) with (N_of_ascii c3) by (subst d; lia).
  now rewrite !ascii_byte.
Qed.


(** Induction along the sequences of a string that is valid UTF-8. *)
Lemma ValidString_sequences (P : string -> Prop) :
  P EmptyString ->
  (forall c rest,
     N_of_ascii c < 0x80 -> ValidString rest = true -> P rest -> P (String c rest)) ->
  (forall c0 c1 rest,
     0xC2 <= N_of_ascii c0 <= 0xDF -> 0x80 <= N_of_ascii c1 <= 0xBF ->
     ValidString rest = true -> P rest -> P (String c0 (String c1 rest))) ->
  (forall c0 c1 c2 rest,
     second3 c0 c1 -> 0x80 <= N_of_ascii c2 <= 0xBF ->
     ValidString rest = true -> P rest -> P (String c0 (String c1 (String c2 rest)))) ->
  (forall c0 c1 c2 c3 rest,
     second4 c0 c1 -> 0x80 <= N_of_ascii c2 <= 0xBF -> 0x80 <= N_of_ascii c3 <= 0xBF ->
     ValidString rest = true -> P rest ->
     P (String c0 (String c1 (String c2 (String c3 rest))))) ->
  forall s, ValidString s = true -> P s.
Proof.
  intros Hnil H1 H2 H3 H4 s.
  remember (String.length s) as n eqn:Hn.
  assert (Hle : (String.length s <= n)%nat) by lia. clear Hn.
  revert s Hle. induction n as [|n IH]; intros s Hle Hvalid.
  { destruct s; [exact Hnil|]. cbn in Hle. lia. }
  destruct s as [|c0 rest]; [exact Hnil|]. cbn [String.length] in Hle.
  cbn [ValidString] in Hvalid. unfold RuneSelf in Hvalid.
  destruct (N.ltb_spec (N_of_ascii c0) 0x80) as [Hascii | Hhigh].
  { apply H1; [assumption..|]. apply IH; [lia|assumption]. }
  destruct (first_cases (N_of_ascii c0) (N_ascii_bounded c0))
    as [[? _]|[[_ Hf]|[[Hr Hf]|[[Hr Hf]|[[Hr Hf]|[[Hr Hf]|[[Hr Hf]|[[Hr Hf]|[Hr Hf]]]]]]]]];
    [lia|rewrite Hf in Hvalid..].
  - discriminate.
  - change (0x02 =? xx) with false in Hvalid. cbv iota in Hvalid.
    change (N.land 0x02 7) with 2 in Hvalid.
    change (acceptRanges (N.shiftr 0x02 4)) with (locb, hicb) in Hvalid.
    destruct rest as [|c1 rest]; [discriminate|].
    apply andb_true_iff in Hvalid as [Hc1 Hrest]. apply within_spec in Hc1.
    unfold locb, hicb in Hc1. cbn [String.length] in Hle.
    apply H2; [assumption..|]. apply IH; [lia|assumption].
  - change (0x13 =? xx) with false in Hvalid. cbv iota in Hvalid.
    change (N.land 0x13 7) with 3 in Hvalid.
    change (acceptRanges (N.shiftr 0x13 4)) with (0xA0, hicb) in Hvalid.
    destruct rest as [|c1 [|c2 rest]]; [discriminate..|].
    apply andb_true_iff in Hvalid as [Hvalid Hrest].
    apply andb_true_iff in Hvalid as [Hc1 Hc2].
    apply within_spec in Hc1, Hc2. unfold locb, hicb in *. cbn [String.length] in Hle.
    apply H3; [unfold second3; lia|assumption..|]. apply IH; [lia|assumption].
  - change (0x03 =? xx) with false in Hvalid. cbv iota in Hvalid.
    change (N.land 0x03 7) with 3 in Hvalid.
    change (acceptRanges (N.shiftr 0x03 4)) with (locb, hicb) in Hvalid.
    destruct rest as [|c1 [|c2 rest]]; [discriminate..|].
    apply andb_true_iff in Hvalid as [Hvalid Hrest].
    apply andb_true_iff in Hvalid as [Hc1 Hc2].
    apply within_spec in Hc1, Hc2. unfold locb, hicb in *. cbn [String.length] in Hle.
    apply H3; [unfold second3; lia|assumption..|]. apply IH; [lia|assumption].
  - change (0x23 =? xx) with false in Hvalid. cbv iota in Hvalid.
    change (N.land 0x23 7) with 3 in Hvalid.
    change (acceptRanges (N.shiftr 0x23 4)) with (locb, 0x9F) in Hvalid.
    destruct rest as [|c1 [|c2 rest]]; [discriminate..|].
    apply andb_true_iff in Hvalid as [Hvalid Hrest].
    apply andb_true_iff in Hvalid as [Hc1 Hc2].
    apply within_spec in Hc1, Hc2. unfold locb, hicb in *. cbn [String.length] in Hle.
    apply H3; [unfold second3; lia|assumption..|]. apply IH; [lia|assumption].
  - change (0x34 =? xx) with false in Hvalid. cbv iota in Hvalid.
    change (N.land 0x34 7) with 4 in Hvalid.
    change (acceptRanges (N.shiftr 0x34 4)) with (0x90, hicb) in Hvalid.
    destruct rest as [|c1 [|c2 [|c3 rest]]]; [discriminate..|].
    apply andb_true_iff in Hvalid as [Hvalid Hrest].
    apply andb_true_iff in Hvalid as [Hvalid Hc3].
    apply andb_true_iff in Hvalid as [Hc1 Hc2].
    apply within_spec in Hc1, Hc2, Hc3. unfold locb, hicb in *.
    cbn [String.length] in Hle.
    apply H4; [unfold second4; lia|assumption..|]. apply IH; [lia|assumption].
  - change (0x04 =? xx) with false in Hvalid. cbv iota in Hvalid.
    change (N.land 0x04 7) with 4 in Hvalid.
    change (acceptRanges (N.shiftr 0x04 4)) with (locb, hicb) in Hvalid.
    destruct rest as [|c1 [|c2 [|c3 rest]]]; [discriminate..|].
    apply andb_true_iff in Hvalid as [Hvalid Hrest].
    apply andb_true_iff in Hvalid as [Hvalid Hc3].
    apply andb_true_iff in Hvalid as [Hc1 Hc2].
    apply within_spec in Hc1, Hc2, Hc3. unfold locb, hicb in *.
    cbn [String.length] in Hle.
    apply H4; [unfold second4; lia|assumption..|]. apply IH; [lia|assumption].
  - change (0x44 =? xx) with false in Hvalid. cbv iota in Hvalid.
    change (N.land 0x44 7) with 4 in Hvalid.
    change (acceptRanges (N.shiftr 0x44 4)) with (locb, 0x8F) in Hvalid.
    destruct rest as [|c1 [|c2 [|c3 rest]]]; [discriminate..|].
    apply andb_true_iff in Hvalid as [Hvalid Hrest].
    apply andb_true_iff in Hvalid as [Hvalid Hc3].
    apply andb_true_iff in Hvalid as [Hc1 Hc2].
    apply within_spec in Hc1, Hc2, Hc3. unfold locb, hicb in *.
    cbn [String.length] in Hle.
    apply H4; [unfold second4; lia|assumption..|]. apply IH; [lia|assumption].
Qed.

End Utf8Proofs.

(** ** Strings, numbers and the scanner *)

Section JsonStrings.
Import encjson.

Lemma high_byte (c : ascii) :
  (0x80 <= N_of_ascii c)%N ->
  Ascii.eqb c quote = false /\ Ascii.eqb c backslash = false /\
  (N_of_ascii c <? 0x20)%N = false /\ (N_of_ascii c <? utf8.RuneSelf)%N = false.
Proof.
  intros Hc. repeat split.
  - destruct (Ascii.eqb_spec c quote) as [-> |]; [|reflexivity]. vm_compute in Hc. now destruct Hc.
  - destruct (Ascii.eqb_spec c backslash) as [-> |]; [|reflexivity].
    vm_compute in Hc. now destruct Hc.
  - apply N.ltb_ge. lia.
  - apply N.ltb_ge. exact Hc.
Qed.

Lemma ascii_step (c : ascii) :
  (N_of_ascii c < 0x80)%N ->
  (forall f rest, appendStringFrom (S f) (String c rest)
                  = String.append (written c) (appendStringFrom f rest)) /\
  (forall tail, scanString (String.append (written c) tail)
                = prepend (written c) (scanString tail)) /\
  (forall f tail, unquoteFrom (S f) (String.append (written c) tail)
                  = consTo c (unquoteFrom f tail)) /\
  (1 <= String.length (written c))%nat.
Proof.
  destruct c as [[] [] [] [] [] [] [] []]; intros Hc;
    first [ exfalso; vm_compute in Hc; discriminate
          | split; [intros; reflexivity|]; split; [intros; reflexivity|];
            split; [intros; reflexivity|]; vm_compute; lia ].
Qed.


Lemma scan_high (c : ascii) (tail : string) :
  (0x80 <= N_of_ascii c)%N ->
  scanString (String c tail) = prepend (String c EmptyString) (scanString tail).
Proof.
  intros Hc. destruct (high_byte c Hc) as (Hq & Hb & Hl & _).
  cbn [scanString]. now rewrite Hq, Hb, Hl.
Qed.

Lemma prepend_prepend (a b : string) (r : option (string * string)) :
  prepend a (prepend b r) = prepend (String.append a b) r.
Proof.
  destruct r as [[body rest]|]; [|reflexivity]. cbn.
  f_equal. f_equal. induction a as [|c a IH]; [reflexivity|].
  now rewrite !append_cons, IH.
Qed.

Lemma length_append (a b : string) :
  String.length (String.append a b) = (String.length a + String.length b)%nat.
Proof.
  induction a as [|x a IH]; [reflexivity|]. rewrite append_cons. cbn. now rewrite IH.
Qed.

(** The steps of the three loops on a sequence of two bytes. *)
Lemma step2 (c0 c1 : ascii) :
  (0xC2 <= N_of_ascii c0 <= 0xDF)%N -> (0x80 <= N_of_ascii c1 <= 0xBF)%N ->
  (forall f rest, appendStringFrom (S f) (String c0 (String c1 rest))
                  = String c0 (String c1 (appendStringFrom f rest))) /\
  (forall tail, scanString (String c0 (String c1 tail))
                = prepend (String c0 (String c1 EmptyString)) (scanString tail)) /\
  (forall f tail, unquoteFrom (S f) (String c0 (String c1 tail))
                  = appendTo (String c0 (String c1 EmptyString)) (unquoteFrom f tail)).
Proof.
  intros H0 H1.
  destruct (high_byte c0 ltac:(lia)) as (Hq0 & Hb0 & Hl0 & Hs0).
  pose proof (rune2_value c0 c1 H0 H1) as Hv.
  split; [|split].
  - intros f rest. cbn [appendStringFrom String.substring]. rewrite Hs0.
    rewrite decode2 by assumption.
    rewrite andb_false_r.
    replace ((utf8.rune2 c0 c1 =? 0x2028)%N || (utf8.rune2 c0 c1 =? 0x2029)%N) with false
      by (destruct (N.eqb_spec (utf8.rune2 c0 c1) 0x2028), (N.eqb_spec (utf8.rune2 c0 c1) 0x2029);
          (reflexivity || lia)).
    cbn [from]. now rewrite substring_0_0, !append_cons, append_nil_l.
  - intros tail. rewrite !scan_high by lia. now rewrite prepend_prepend.
  - intros f tail. cbn [unquoteFrom]. rewrite Hb0, Hq0, Hl0, Hs0. cbn [orb].
    rewrite decode2 by assumption. rewrite encode2 by assumption. reflexivity.
Qed.

(** The steps on a sequence of three bytes; the line and the paragraph
    separator are written as escapes. *)
Lemma step3 (c0 c1 c2 : ascii) :
  utf8.second3 c0 c1 -> (0x80 <= N_of_ascii c2 <= 0xBF)%N ->
  exists e,
    (1 <= String.length e)%nat /\
    (forall f rest, appendStringFrom (S f) (String c0 (String c1 (String c2 rest)))
                    = String.append e (appendStringFrom f rest)) /\
    (forall tail, scanString (String.append e tail) = prepend e (scanString tail)) /\
    (forall f tail, unquoteFrom (S f) (String.append e tail)
                    = appendTo (String c0 (String c1 (String c2 EmptyString)))
                               (unquoteFrom f tail)).
Proof.
  intros H01 H2.
  assert (H0 : (0xE0 <= N_of_ascii c0 <= 0xEF)%N) by (unfold utf8.second3 in H01; lia).
  assert (H1 : (0x80 <= N_of_ascii c1 <= 0xBF)%N) by (unfold utf8.second3 in H01; lia).
  destruct (high_byte c0 ltac:(lia)) as (Hq0 & Hb0 & Hl0 & Hs0).
  destruct (rune3_value c0 c1 c2 H01 H2) as (Hv & Hr & Hsur).
  pose proof (encode3 c0 c1 c2 H01 H2) as Henc.
  assert (Hstep : forall f rest,
    appendStringFrom (S f) (String c0 (String c1 (String c2 rest)))
    = if ((utf8.rune3 c0 c1 c2 =? 0x2028)%N || (utf8.rune3 c0 c1 c2 =? 0x2029)%N)
      then String backslash
             (String.append "u202"
                (String (hex (N.land (utf8.rune3 c0 c1 c2) 0xF)) (appendStringFrom f rest)))
      else String c0 (String c1 (String c2 (appendStringFrom f rest)))).
  { intros f rest. cbn [appendStringFrom String.substring]. rewrite Hs0.
    rewrite decode3 by assumption. rewrite andb_false_r. cbn [from].
    destruct ((utf8.rune3 c0 c1 c2 =? 0x2028)%N || (utf8.rune3 c0 c1 c2 =? 0x2029)%N);
      [reflexivity|].
    now rewrite substring_0_0, !append_cons, append_nil_l. }
  destruct (N.eqb_spec (utf8.rune3 c0 c1 c2) 0x2028) as [E28 | N28];
    [|destruct (N.eqb_spec (utf8.rune3 c0 c1 c2) 0x2029) as [E29 | N29]].
  - exists (String backslash "u2028"). split; [cbn; lia|]. split; [|split].
    + intros f rest. rewrite Hstep, E28. reflexivity.
    + intros tail. reflexivity.
    + intros f tail. rewrite <- Henc, E28. reflexivity.
  - exists (String backslash "u2029"). split; [cbn; lia|]. split; [|split].
    + intros f rest. rewrite Hstep, E29. reflexivity.
    + intros tail. reflexivity.
    + intros f tail. rewrite <- Henc, E29. reflexivity.
  - exists (String c0 (String c1 (String c2 EmptyString))). split; [cbn; lia|].
    split; [|split].
    + intros f rest. rewrite Hstep. reflexivity.
    + intros tail. rewrite !append_cons, append_nil_l. rewrite !scan_high by lia.
      now rewrite !prepend_prepend.
    + intros f tail. rewrite !append_cons, append_nil_l.
      cbn [unquoteFrom]. rewrite Hb0, Hq0, Hl0, Hs0. cbn [orb].
      rewrite decode3 by assumption. rewrite Henc. reflexivity.
Qed.

Lemma step4 (c0 c1 c2 c3 : ascii) :
  utf8.second4 c0 c1 -> (0x80 <= N_of_ascii c2 <= 0xBF)%N ->
  (0x80 <= N_of_ascii c3 <= 0xBF)%N ->
  (forall f rest, appendStringFrom (S f) (String c0 (String c1 (String c2 (String c3 rest))))
                  = String c0 (String c1 (String c2 (String c3 (appendStringFrom f rest))))) /\
  (forall tail, scanString (String c0 (String c1 (String c2 (String c3 tail))))
                = prepend (String c0 (String c1 (String c2 (String c3 EmptyString))))
                          (scanString tail)) /\
  (forall f tail, unquoteFrom (S f) (String c0 (String c1 (String c2 (String c3 tail))))
                  = appendTo (String c0 (String c1 (String c2 (String c3 EmptyString))))
                             (unquoteFrom f tail)).
Proof.
  intros H01 H2 H3.
  assert (H0 : (0xF0 <= N_of_ascii c0 <= 0xF4)%N) by (unfold utf8.second4 in H01; lia).
  assert (H1 : (0x80 <= N_of_ascii c1 <= 0xBF)%N) by (unfold utf8.second4 in H01; lia).
  destruct (high_byte c0 ltac:(lia)) as (Hq0 & Hb0 & Hl0 & Hs0).
  destruct (rune4_value c0 c1 c2 c3 H01 H2 H3) as (Hv & Hr).
  split; [|split].
  - intros f rest. cbn [appendStringFrom String.substring]. rewrite Hs0.
    rewrite substring_0_0. rewrite decode4 by assumption.
    rewrite andb_false_r.
    replace ((utf8.rune4 c0 c1 c2 c3 =? 0x2028)%N || (utf8.rune4 c0 c1 c2 c3 =? 0x2029)%N) with false
      by (destruct (N.eqb_spec (utf8.rune4 c0 c1 c2 c3) 0x2028),
                   (N.eqb_spec (utf8.rune4 c0 c1 c2 c3) 0x2029); (reflexivity || lia)).
    cbn [from String.substring]. now rewrite ?append_cons, ?substring_0_0, ?append_nil_l.
  - intros tail. rewrite !scan_high by lia. now rewrite !prepend_prepend.
  - intros f tail. cbn [unquoteFrom]. rewrite Hb0, Hq0, Hl0, Hs0. cbn [orb].
    rewrite decode4 by assumption. rewrite encode4 by assumption. reflexivity.
Qed.

(** A string that is valid UTF-8 is delimited by the scanner as it was
    written, and unquoted to itself. *)
Lemma string_round_trip (s : string) :
  utf8.ValidString s = true ->
  forall f, (String.length s <= f)%nat ->
    (forall rest, scanString (String.append (appendStringFrom f s) (String quote rest))
                  = Some (appendStringFrom f s, rest)) /\
    (forall f', (String.length (appendStringFrom f s) <= f')%nat ->
                unquoteFrom f' (appendStringFrom f s) = Some s).
Proof.
  intros Hvalid. pattern s. revert s Hvalid. apply ValidString_sequences.
  - intros f _. split.
    + intros rest. destruct f; cbn [appendStringFrom]; rewrite append_nil_l;
        cbn [scanString]; now rewrite Ascii.eqb_refl.
    + intros f' _. now destruct f, f'.
  - intros c rest Hc _ IH f Hf. cbn [String.length] in Hf.
    destruct f as [|f]; [lia|]. destruct (IH f ltac:(lia)) as [IHscan IHunq].
    destruct (ascii_step c Hc) as (Hw & Hscan & Hunq & Hlen).
    rewrite Hw. split.
    + intros rest'. rewrite append_assoc, Hscan, IHscan. reflexivity.
    + intros f' Hf'. rewrite length_append in Hf'.
      destruct f' as [|f']; [lia|]. rewrite Hunq, IHunq by lia. reflexivity.
  - intros c0 c1 rest H0 H1 _ IH f Hf. cbn [String.length] in Hf.
    destruct f as [|f]; [lia|]. destruct (IH f ltac:(lia)) as [IHscan IHunq].
    destruct (step2 c0 c1 H0 H1) as (Hw & Hscan & Hunq).
    rewrite Hw. split.
    + intros rest'. rewrite !append_cons, Hscan, IHscan. reflexivity.
    + intros f' Hf'. cbn [String.length] in Hf'.
      destruct f' as [|f']; [lia|]. rewrite Hunq, IHunq by lia. reflexivity.
  - intros c0 c1 c2 rest H01 H2 _ IH f Hf. cbn [String.length] in Hf.
    destruct f as [|f]; [lia|]. destruct (IH f ltac:(lia)) as [IHscan IHunq].
    destruct (step3 c0 c1 c2 H01 H2) as (e & Hlen & Hw & Hscan & Hunq).
    rewrite Hw. split.
    + intros rest'. rewrite append_assoc, Hscan, IHscan. reflexivity.
    + intros f' Hf'. rewrite length_append in Hf'.
      destruct f' as [|f']; [lia|]. rewrite Hunq, IHunq by lia. reflexivity.
  - intros c0 c1 c2 c3 rest H01 H2 H3 _ IH f Hf. cbn [String.length] in Hf.
    destruct f as [|f]; [lia|]. destruct (IH f ltac:(lia)) as [IHscan IHunq].
    destruct (step4 c0 c1 c2 c3 H01 H2 H3) as (Hw & Hscan & Hunq).
    rewrite Hw. split.
    + intros rest'. rewrite !append_cons, Hscan, IHscan. reflexivity.
    + intros f' Hf'. cbn [String.length] in Hf'.
      destruct f' as [|f']; [lia|]. rewrite Hunq, IHunq by lia. reflexivity.
Qed.

End JsonStrings.

Ltac digit_cases k Hk :=
  let H := fresh in
  assert (H : k = 0 \/ k = 1 \/ k = 2 \/ k = 3 \/ k = 4 \/ k = 5 \/ k = 6 \/ k = 7 \/ k = 8
              \/ k = 9) by lia;
  clear Hk;
  repeat (destruct H as [-> | H]); [..|subst k].

Ltac eval_digit :=
  match goal with
  | |- context [rfc3339.digit ?n] =>
      let c := eval vm_compute in (rfc3339.digit n) in change (rfc3339.digit n) with c in *
  end.

Section JsonNumbers.
Import encjson strconv rfc3339.

Lemma formatBits_append (f : nat) (u : Z) (a b : string) :
  String.append (formatBits f u a) b = formatBits f u (String.append a b).
Proof.
  revert u a. induction f as [|f IH]; intros u a; [reflexivity|].
  cbn [formatBits]. destruct (10 <=? u); [now rewrite IH|reflexivity].
Qed.

Lemma atoi_formatBits (f : nat) (u : Z) (a : string) :
  0 <= u < 10 ^ Z.of_nat f -> atoi (formatBits f u a) 0 = atoi a u.
Proof.
  revert u a. induction f as [|f IH]; intros u a Hu.
  - change (10 ^ Z.of_nat 0) with 1 in Hu. now replace u with 0 by lia.
  - cbn [formatBits].
    assert (Hpow : 10 ^ Z.of_nat (S f) = 10 * 10 ^ Z.of_nat f)
      by (rewrite Nat2Z.inj_succ, Z.pow_succ_r by lia; reflexivity).
    destruct (Z.leb_spec 10 u) as [Hbig | Hsmall].
    + rewrite IH by (Z.div_mod_to_equations; nia).
      rewrite atoi_digit by (Z.div_mod_to_equations; lia).
      f_equal. Z.div_mod_to_equations; lia.
    + rewrite atoi_digit by lia. f_equal.
Qed.

Lemma digitsOf_formatBits (f : nat) (u : Z) (a : string) :
  0 <= u ->
  digitsOf (formatBits f u a) = (formatBits f u (fst (digitsOf a)), snd (digitsOf a)).
Proof.
  revert u a. induction f as [|f IH]; intros u a Hu.
  - cbn [formatBits]. now destruct (digitsOf a).
  - cbn [formatBits]. destruct (Z.leb_spec 10 u) as [Hbig | Hsmall].
    + rewrite IH by (Z.div_mod_to_equations; lia). cbn [digitsOf].
      destruct (digit_spec (u mod 10) ltac:(Z.div_mod_to_equations; lia)) as (-> & _).
      reflexivity.
    + cbn [digitsOf]. destruct (digit_spec u ltac:(lia)) as (-> & _). reflexivity.
Qed.

(** The first digit of a number is not a zero, unless the number is 0. *)
Lemma formatBits_head (f : nat) (u : Z) (a : string) :
  0 <= u < 10 ^ Z.of_nat (S f) ->
  exists k tl, formatBits (S f) u a = String (digit k) tl /\
               0 <= k < 10 /\ (u = 0 -> k = 0 /\ tl = a) /\ (0 < u -> 0 < k).
Proof.
  revert u a. induction f as [|f IH]; intros u a Hu.
  - change (10 ^ Z.of_nat 1) with 10 in Hu. cbn [formatBits].
    destruct (Z.leb_spec 10 u); [lia|]. exists u, a. repeat split; lia.
  - assert (Hpow : 10 ^ Z.of_nat (S (S f)) = 10 * 10 ^ Z.of_nat (S f))
      by (rewrite (Nat2Z.inj_succ (S f)), Z.pow_succ_r by lia; reflexivity).
    remember (S f) as f1. cbn [formatBits]. subst f1.
    destruct (Z.leb_spec 10 u) as [Hbig | Hsmall].
    + destruct (IH (u / 10) (String (digit (u mod 10)) a)
                  ltac:(Z.div_mod_to_equations; nia)) as (k & tl & -> & Hk & _ & Hpos).
      exists k, tl. split; [reflexivity|]. split; [assumption|]. split; [lia|].
      intros _. apply Hpos. Z.div_mod_to_equations; lia.
    + exists u, a. repeat split; lia.
Qed.

(** [ParseInt] reads back what [AppendInt] has written. *)
Lemma ParseInt_AppendInt (z : Z) :
  - 2 ^ 63 <= z <= 2 ^ 63 - 1 -> ParseInt (AppendInt z) = Some z.
Proof.
  intros Hz. unfold AppendInt.
  assert (H20 : 2 ^ 63 < 10 ^ Z.of_nat 20) by reflexivity.
  destruct (Z.ltb_spec z 0) as [Hneg | Hpos].
  - unfold ParseInt.
    destruct (formatBits_head 19 (- z) EmptyString ltac:(lia)) as (k & tl & E & Hk & _).
    cbv beta iota zeta. rewrite E at 1.
    rewrite atoi_formatBits by lia. cbn [atoi].
    replace (- - z) with z by lia.
    destruct (Z.ltb_spec z (- 2 ^ 63)); [lia|]. destruct (Z.ltb_spec (2 ^ 63 - 1) z); [lia|].
    reflexivity.
  - unfold ParseInt.
    destruct (formatBits_head 19 z EmptyString ltac:(lia)) as (k & tl & E & Hk & _).
    pose proof (atoi_formatBits 20 z EmptyString ltac:(lia)) as Hatoi.
    rewrite E in *.
    digit_cases k Hk; eval_digit; cbv beta iota zeta; rewrite Hatoi; cbn [atoi];
      (destruct (Z.ltb_spec z (- 2 ^ 63)); [lia|]);
      (destruct (Z.ltb_spec (2 ^ 63 - 1) z); [lia|]); reflexivity.
Qed.

End JsonNumbers.

Section JsonSyntax.
Import encjson strconv rfc3339.

Lemma quoted_append (body rest : string) :
  String.append (quoted body) rest = String quote (String.append body (String quote rest)).
Proof. unfold quoted. now rewrite append_cons, append_assoc, append_cons, append_nil_l. Qed.

Lemma reads_quoted (body : string) (f : nat) (d : N) :
  (forall rest, scanString (String.append body (String quote rest)) = Some (body, rest)) ->
  reads (S f) d (quoted body) (Str body).
Proof.
  intros Hscan more _. rewrite quoted_append. split; [reflexivity|].
  cbn [value]. change (Ascii.eqb quote "{") with false. change (Ascii.eqb quote "[") with false.
  rewrite Ascii.eqb_refl. cbv iota. now rewrite Hscan.
Qed.

Lemma reads_string (s : string) (f : nat) (d : N) :
  utf8.ValidString s = true -> reads (S f) d (appendString s) (Str (escaped s)).
Proof.
  intros Hvalid. apply reads_quoted. intros rest.
  apply (string_round_trip s Hvalid (String.length s) (le_n _)).
Qed.

Lemma reads_bool (b : bool) (f : nat) (d : N) :
  reads (S f) d (encodeBool b) (Bool b).
Proof. intros more _. destruct b; split; reflexivity. Qed.

Lemma reads_null (f : nat) (d : N) : reads (S f) d "null" Null.
Proof. intros more _. split; reflexivity. Qed.

Lemma digits1_formatBits (u : Z) (more : string) :
  0 < u < 10 ^ Z.of_nat 20 -> delimited more ->
  digits1 (formatBits 20 u more) = Some (formatBits 20 u EmptyString, more).
Proof.
  intros Hu (r & Hmore). unfold digits1. rewrite digitsOf_formatBits by lia.
  assert (Hd : digitsOf more = (EmptyString, more))
    by (destruct Hmore as [-> | [-> | ->]]; reflexivity).
  rewrite Hd. cbn [fst snd].
  destruct (formatBits_head 19 u EmptyString ltac:(lia)) as (k & tl & -> & _).
  reflexivity.
Qed.

Lemma scanNumber_AppendInt (z : Z) (more : string) :
  - 2 ^ 63 <= z <= 2 ^ 63 - 1 -> delimited more ->
  scanNumber (String.append (AppendInt z) more) = Some (AppendInt z, more).
Proof.
  intros Hz Hmore.
  assert (H20 : 2 ^ 63 < 10 ^ Z.of_nat 20) by reflexivity.
  assert (Htail : forall lit : string -> string,
    (fraction ←
       match more with
       | String "." rest => prepend "." (digits1 rest)
       | _ => Some (EmptyString, more)
       end;
     exponent ←
       match snd fraction with
       | String e rest =>
           if Ascii.eqb e "e" || Ascii.eqb e "E" then
             match rest with
             | String sg rest' =>
                 if Ascii.eqb sg "+" || Ascii.eqb sg "-"
                 then prepend (String e (String sg EmptyString)) (digits1 rest')
                 else prepend (String e EmptyString) (digits1 rest)
             | EmptyString => None
             end
           else Some (EmptyString, snd fraction)
       | EmptyString => Some (EmptyString, snd fraction)
       end;
     Some (lit (String.append (fst fraction) (fst exponent)), snd exponent))
    = Some (lit EmptyString, more)).
  { intros lit. destruct Hmore as (r & [-> | [-> | ->]]); reflexivity. }
  unfold AppendInt. destruct (Z.ltb_spec z 0) as [Hneg | Hpos].
  - rewrite append_cons, formatBits_append, append_nil_l. unfold scanNumber.
    cbv beta iota zeta.
    destruct (formatBits_head 19 (- z) more ltac:(lia)) as (k & tl & E & Hk & _ & Hk0).
    specialize (Hk0 ltac:(lia)).
    pose proof (digits1_formatBits (- z) more ltac:(lia) Hmore) as Hd.
    rewrite E in *.
    assert (Hwhole : match String (digit k) tl with
                     | String "0" rest => Some ("0"%string, rest)
                     | _ => digits1 (String (digit k) tl)
                     end = Some (formatBits 20 (- z) EmptyString, more)).
    { rewrite <- Hd. digit_cases k Hk; try lia; reflexivity. }
    rewrite Hwhole. cbn [mbind option_bind fst snd].
    rewrite (Htail (fun t => String.append "-" (String.append (formatBits 20 (- z) "") t))).
    now rewrite append_nil_r.
  - destruct (Z.eq_dec z 0) as [-> | Hnz].
    + destruct Hmore as (r & [-> | [-> | ->]]); reflexivity.
    + rewrite formatBits_append, append_nil_l. unfold scanNumber.
      destruct (formatBits_head 19 z more ltac:(lia)) as (k & tl & E & Hk & _ & Hk0).
      specialize (Hk0 ltac:(lia)).
      pose proof (digits1_formatBits z more ltac:(lia) Hmore) as Hd.
      rewrite E in *.
      assert (Hsign : match String (digit k) tl with
                      | String "-" rest => ("-"%string, rest)
                      | _ => (EmptyString, String (digit k) tl)
                      end = (EmptyString, String (digit k) tl))
        by (digit_cases k Hk; reflexivity).
      rewrite Hsign.
      assert (Hwhole : match String (digit k) tl with
                       | String "0" rest => Some ("0"%string, rest)
                       | _ => digits1 (String (digit k) tl)
                       end = Some (formatBits 20 z EmptyString, more)).
      { rewrite <- Hd. digit_cases k Hk; try lia; reflexivity. }
      rewrite Hwhole. cbn [mbind option_bind fst snd].
      rewrite (Htail (fun t => String.append "" (String.append (formatBits 20 z "") t))).
      now rewrite append_nil_l, append_nil_r.
Qed.

Lemma AppendInt_head (z : Z) (more : string) :
  - 2 ^ 63 <= z <= 2 ^ 63 - 1 ->
  exists c tl, String.append (AppendInt z) more = String c tl /\
               (Ascii.eqb c "-" || isDigit c) = true /\ isSpace c = false /\
               Ascii.eqb c "{" = false /\ Ascii.eqb c "[" = false /\
               Ascii.eqb c quote = false.
Proof.
  intros Hz. assert (H20 : 2 ^ 63 < 10 ^ Z.of_nat 20) by reflexivity.
  unfold AppendInt. destruct (Z.ltb_spec z 0).
  - rewrite append_cons. eexists _, _. split; [reflexivity|]. repeat split.
  - rewrite formatBits_append.
    destruct (formatBits_head 19 z (String.append "" more) ltac:(lia))
      as (k & tl & -> & Hk & _).
    eexists _, _. split; [reflexivity|]. digit_cases k Hk; repeat split.
Qed.

Lemma reads_int (z : Z) (f : nat) (d : N) :
  - 2 ^ 63 <= z <= 2 ^ 63 - 1 -> reads (S f) d (AppendInt z) (Number (AppendInt z)).
Proof.
  intros Hz more Hmore.
  pose proof (scanNumber_AppendInt z more Hz Hmore) as Hscan.
  destruct (AppendInt_head z more Hz) as (c & tl & E & Hnum & Hsp & Ho & Ha & Hq).
  rewrite E in *. split.
  - cbn [skipSpace]. now rewrite Hsp.
  - cbn [value]. rewrite Ho, Ha, Hq, Hnum, Hscan. reflexivity.
Qed.


Lemma scanString_plain (s rest : string) :
  plain s = true -> scanString (String.append s (String quote rest)) = Some (s, rest).
Proof.
  induction s as [|c s IH]; intros Hplain.
  - rewrite append_nil_l. cbn [scanString]. now rewrite Ascii.eqb_refl.
  - cbn [plain] in Hplain. apply andb_true_iff in Hplain as [Hc Hs].
    unfold plainChar in Hc. rewrite !andb_true_iff, !negb_true_iff in Hc.
    destruct Hc as [[Hq Hb] Hl].
    rewrite append_cons. cbn [scanString]. rewrite Hq, Hb, Hl, (IH Hs). reflexivity.
Qed.

Lemma plain_append (a b : string) :
  plain (String.append a b) = plain a && plain b.
Proof.
  induction a as [|c a IH]; [reflexivity|]. rewrite append_cons. cbn [plain].
  now rewrite IH, andb_assoc.
Qed.

Lemma plain_digit (k : Z) : 0 <= k < 10 -> plainChar (digit k) = true.
Proof. intros Hk. digit_cases k Hk; reflexivity. Qed.

Lemma plain_appendInt (x : Z) (w : nat) : plain (appendInt x w) = true.
Proof.
  induction w as [|w IH]; [reflexivity|]. cbn [appendInt plain].
  rewrite IH, plain_digit; [reflexivity|]. Z.div_mod_to_equations; lia.
Qed.

Lemma plain_trimZeros (s : string) : plain s = true -> plain (trimZeros s) = true.
Proof.
  induction s as [|c s IH]; [reflexivity|]. cbn [plain trimZeros].
  intros [Hc Hs]%andb_true_iff. specialize (IH Hs).
  destruct (trimZeros s) as [|k kept].
  - destruct (Ascii.eqb c "0"); [reflexivity|]. cbn [plain]. now rewrite Hc.
  - cbn [plain] in *. now rewrite Hc, IH.
Qed.

Lemma plain_time (t : time.Time) : plain (appendFormatRFC3339 t) = true.
Proof.
  unfold appendFormatRFC3339. cbn [String.concat].
  rewrite !plain_append, !plain_appendInt. unfold appendNano.
  destruct (calendar.Nanosecond t =? 0); [reflexivity|].
  cbn [plain]. rewrite plain_trimZeros by apply plain_appendInt. reflexivity.
Qed.

Lemma reads_time (t : time.Time) (text : string) (f : nat) (d : N) :
  MarshalJSON t = inr text ->
  text = quoted (appendFormatRFC3339 t) /\
  reads (S f) d text (Str (appendFormatRFC3339 t)) /\
  parseRFC3339 (appendFormatRFC3339 t) = Some t.
Proof.
  unfold MarshalJSON, appendStrictRFC3339.
  destruct (Z.ltb_spec (calendar.Year t) 0) as [|Hlo]; [discriminate|].
  destruct (Z.ltb_spec 9999 (calendar.Year t)) as [|Hhi]; [discriminate|].
  cbn [orb]. intros [= <-]. split; [reflexivity|]. split.
  - apply reads_quoted. intros rest. apply scanString_plain, plain_time.
  - apply parseRFC3339_appendFormatRFC3339. lia.
Qed.

(** *** Arrays and objects *)

Lemma delimited_comma (r : string) : delimited (String.append "," r).
Proof. exists r. now left. Qed.

Lemma delimited_brace (r : string) : delimited (String.append "}" r).
Proof. exists r. right. now left. Qed.

Lemma delimited_bracket (r : string) : delimited (String.append "]" r).
Proof. exists r. right. now right. Qed.

(** The elements of an array of strings. *)
Lemma elements_strings (l : list string) (s0 : string) (rest : string) (f : nat) (d : N) :
  Forall (fun s => utf8.ValidString s = true) (s0 :: l) ->
  (length l + 1 <= f)%nat ->
  elements (S f) d
    (String.append (String.concat "," (map appendString (s0 :: l))) (String.append "]" rest))
  = Some (map (fun s => Str (escaped s)) (s0 :: l), rest).
Proof.
  revert s0 f. induction l as [|s1 l IH]; intros s0 f Hvalid Hf.
  - apply Forall_cons in Hvalid as [H0 _].
    destruct f as [|f]; [cbn in Hf; lia|].
    cbn [map String.concat elements].
    destruct (reads_string s0 f d H0 _ (delimited_bracket rest)) as [_ ->].
    reflexivity.
  - apply Forall_cons in Hvalid as [H0 Hvalid].
    destruct f as [|f]; [cbn in Hf; lia|].
    change (String.concat "," (map appendString (s0 :: s1 :: l)))
      with (String.append (appendString s0)
              (String.append "," (String.concat "," (map appendString (s1 :: l))))).
    rewrite !append_assoc.
    remember (S f) as f1. cbn [elements]. subst f1.
    destruct (reads_string s0 f d H0 _ (delimited_comma
               (String.append (String.concat "," (map appendString (s1 :: l)))
                              (String.append "]" rest)))) as [_ ->].
    rewrite append_cons, append_nil_l.
    cbn [skipSpace isSpace]. change (isSpace ",") with false. cbv iota.
    assert (Hnext : skipSpace (String.append (String.concat "," (map appendString (s1 :: l)))
                                             (String.append "]" rest))
                    = String.append (String.concat "," (map appendString (s1 :: l)))
                                    (String.append "]" rest)).
    { destruct l; cbn [map String.concat]; unfold appendString;
        rewrite ?append_assoc, quoted_append; reflexivity. }
    rewrite Hnext, IH; [reflexivity|assumption|cbn in Hf; lia].
Qed.

Lemma reads_strings (l : list string) (f : nat) (d : N) :
  Forall (fun s => utf8.ValidString s = true) l ->
  (d < 9000)%N ->
  reads (S (S (length l + f))) d (encodeStrings l) (stringsValue l).
Proof.
  intros Hvalid Hd more Hmore. destruct l as [|s0 l].
  - split; reflexivity.
  - unfold encodeStrings. rewrite append_cons, append_assoc. split; [reflexivity|].
    remember (S (length (s0 :: l) + f)) as f1. cbn [value]. subst f1.
    change (Ascii.eqb "[" "{") with false. rewrite Ascii.eqb_refl. cbv iota.
    unfold maxNestingDepth. destruct (N.ltb_spec 10000 (d + 1)); [lia|].
    assert (Hhead : exists tl,
              String.append (String.concat "," (map appendString (s0 :: l)))
                            (String.append "]" more) = String quote tl).
    { destruct l; cbn [map String.concat]; unfold appendString;
        rewrite ?append_assoc, quoted_append; eexists; reflexivity. }
    destruct Hhead as [tl Ehead].
    pose proof (elements_strings l s0 more (length (s0 :: l) + f) (d + 1) Hvalid
                  ltac:(cbn [length]; lia)) as Helements.
    rewrite Ehead in *. cbn [skipSpace]. change (isSpace quote) with false. cbv iota.
    rewrite Helements. reflexivity.
Qed.


Lemma member_head (key vtext rest : string) :
  exists tl, String.append (member key vtext) rest = String quote tl.
Proof. unfold member. rewrite append_assoc, quoted_append. now eexists. Qed.

Lemma members_more (key vtext : string) (v : Value) (f : nat) (d : N) (next : string)
    (ms : list (string * Value)) (r : string) :
  (forall rest, scanString (String.append key (String quote rest)) = Some (key, rest)) ->
  reads f d vtext v ->
  skipSpace next = next ->
  members f d next = Some (ms, r) ->
  members (S f) d (String.append (member key vtext) (String.append "," next))
  = Some ((key, v) :: ms, r).
Proof.
  intros Hkey Hv Hskip Hnext. unfold member.
  rewrite append_assoc, quoted_append, append_cons.
  cbn [members]. rewrite Hkey. cbn [skipSpace]. change (isSpace ":") with false. cbv iota.
  destruct (Hv _ (delimited_comma next)) as [-> ->].
  rewrite append_cons, append_nil_l. cbn [skipSpace]. change (isSpace ",") with false.
  cbv iota. now rewrite Hskip, Hnext.
Qed.

Lemma members_last (key vtext : string) (v : Value) (f : nat) (d : N) (rest : string) :
  (forall rest, scanString (String.append key (String quote rest)) = Some (key, rest)) ->
  reads f d vtext v ->
  members (S f) d (String.append (member key vtext) (String.append "}" rest))
  = Some ([(key, v)], rest).
Proof.
  intros Hkey Hv. unfold member.
  rewrite append_assoc, quoted_append, append_cons.
  cbn [members]. rewrite Hkey. cbn [skipSpace]. change (isSpace ":") with false. cbv iota.
  destruct (Hv _ (delimited_brace rest)) as [-> ->].
  rewrite append_cons, append_nil_l. cbn [skipSpace]. change (isSpace "}") with false.
  reflexivity.
Qed.

Lemma value_object (f : nat) (d : N) (body : string) (ms : list (string * Value))
    (rest : string) :
  (d < 10000)%N ->
  (exists tl, body = String quote tl) ->
  members f (d + 1) body = Some (ms, rest) ->
  value (S f) d (String "{" body) = Some (Object ms, rest).
Proof.
  intros Hd [tl ->] Hms. cbn [value]. rewrite Ascii.eqb_refl. cbv iota.
  unfold maxNestingDepth. destruct (N.ltb_spec 10000 (d + 1)); [lia|].
  cbn [skipSpace]. change (isSpace quote) with false. cbv iota. now rewrite Hms.
Qed.

Lemma skipSpace_member (key vtext rest : string) :
  skipSpace (String.append (member key vtext) rest) = String.append (member key vtext) rest.
Proof. destruct (member_head key vtext rest) as [tl ->]. reflexivity. Qed.

Lemma representable_spec (c : http.Cookie) :
  representable c = true ->
  utf8.ValidString (http.Name c) = true /\ utf8.ValidString (http.Value c) = true /\
  utf8.ValidString (http.Path c) = true /\ utf8.ValidString (http.Domain c) = true /\
  utf8.ValidString (http.RawExpires c) = true /\ utf8.ValidString (http.Raw c) = true /\
  Forall (fun s => utf8.ValidString s = true) (http.Unparsed c) /\
  - 2 ^ 63 <= http.MaxAge c <= 2 ^ 63 - 1 /\ - 2 ^ 63 <= http.SameSite c <= 2 ^ 63 - 1.
Proof.
  unfold representable, int64. rewrite !andb_true_iff, !Z.leb_le, forallb_forall.
  intros ((((((((H1 & H2) & H3) & H4) & H5) & H6) & H7) & H8) & H9).
  repeat (split; [assumption|]). split; [|split; assumption].
  apply Forall_forall. intros s Hs. apply H7. now apply list_elem_of_In.
Qed.

(** What [encodeCookie] writes for a representable cookie is read by the
    scanner as the object of its twelve members. *)
Lemma reads_cookie (c : http.Cookie) (text : string) (f : nat) (d : N) :
  representable c = true -> encodeCookie c = inr text -> (d < 8000)%N ->
  parseRFC3339 (appendFormatRFC3339 (http.Expires c)) = Some (http.Expires c) /\
  reads (15 + length (http.Unparsed c) + f) d text (Object (cookieMembers c)).
Proof.
  intros Hrep Henc Hd.
  apply representable_spec in Hrep
    as (HName & HValue & HPath & HDomain & HRawExpires & HRaw & HUnparsed & HMaxAge
        & HSameSite).
  unfold encodeCookie in Henc.
  destruct (MarshalJSON (http.Expires c)) as [e | expires] eqn:Hexpires; [discriminate|].
  injection Henc as <-.
  set (g := (length (http.Unparsed c) + f)%nat).
  destruct (reads_time (http.Expires c) expires (S (S (S (S (S (S (S (S g))))))))
              (d + 1)%N Hexpires) as (-> & Hreads & Hparse).
  split; [exact Hparse|]. intros more Hmore.
  change (15 + length (http.Unparsed c) + f)%nat with (S (S (S (S (S (S (S (S (S (S (S (S (S (S (S g))))))))))))))).
  cbn [String.concat]. rewrite append_cons, !append_assoc. split; [reflexivity|].
  assert (Hplain : forall key rest, plain key = true ->
             scanString (String.append key (String quote rest)) = Some (key, rest))
    by (intros; now apply scanString_plain).
  apply value_object; [lia|apply member_head|].
  apply members_more;
    [intros; now apply scanString_plain|apply reads_string, HName|apply skipSpace_member|].
  apply members_more;
    [intros; now apply scanString_plain|apply reads_string, HValue|apply skipSpace_member|].
  apply members_more;
    [intros; now apply scanString_plain|apply reads_string, HPath|apply skipSpace_member|].
  apply members_more;
    [intros; now apply scanString_plain|apply reads_string, HDomain|apply skipSpace_member|].
  apply members_more;
    [intros; now apply scanString_plain|exact Hreads|apply skipSpace_member|].
  apply members_more;
    [intros; now apply scanString_plain|apply reads_string, HRawExpires
    |apply skipSpace_member|].
  apply members_more;
    [intros; now apply scanString_plain|apply reads_int, HMaxAge|apply skipSpace_member|].
  apply members_more;
    [intros; now apply scanString_plain|apply reads_bool|apply skipSpace_member|].
  apply members_more;
    [intros; now apply scanString_plain|apply reads_bool|apply skipSpace_member|].
  apply members_more;
    [intros; now apply scanString_plain|apply reads_int, HSameSite|apply skipSpace_member|].
  apply members_more;
    [intros; now apply scanString_plain|apply reads_string, HRaw|apply skipSpace_member|].
  apply (members_last "Unparsed");
    [intros; now apply scanString_plain|].
  subst g. apply reads_strings; [exact HUnparsed|lia].
Qed.


Lemma encodeStrings_length (l : list string) :
  (length l <= String.length (encodeStrings l))%nat.
Proof.
  destruct l as [|s0 l]; [cbn; lia|]. unfold encodeStrings. cbn [String.length].
  rewrite length_append.
  enough (length (s0 :: l) <= String.length (String.concat "," (map appendString (s0 :: l))))%nat
    by lia.
  revert s0. induction l as [|s1 l IH]; intros s0.
  - cbn [map String.concat length]. unfold appendString, quoted. cbn [String.length]. lia.
  - change (String.concat "," (map appendString (s0 :: s1 :: l)))
      with (String.append (appendString s0)
              (String.append "," (String.concat "," (map appendString (s1 :: l))))).
    rewrite !length_append. specialize (IH s1). cbn [length String.length] in *. lia.
Qed.

Lemma encodeCookie_length (c : http.Cookie) (text : string) :
  encodeCookie c = inr text ->
  (16 + length (http.Unparsed c) <= String.length text)%nat.
Proof.
  unfold encodeCookie. destruct (MarshalJSON (http.Expires c)); [discriminate|].
  intros [= <-]. cbn [String.concat String.length]. unfold member, quoted.
  rewrite !length_append. cbn [String.length]. rewrite !length_append.
  cbn [String.length]. pose proof (encodeStrings_length (http.Unparsed c)). lia.
Qed.

(** What [Encode] writes for the entries of a map is read by the scanner
    as their members. *)
Lemma members_entries (l : list (string * http.Cookie)) (entry : string * http.Cookie)
    (texts : list string) (f : nat) (rest : string) :
  Forall (fun e => representableEntry e = true) (entry :: l) ->
  encodeEntries (entry :: l) = inr texts ->
  (entriesFuel (entry :: l) <= f)%nat ->
  (entriesFuel (entry :: l) <= String.length (String.concat "," texts))%nat /\
  (exists tl, String.append (String.concat "," texts) (String.append "}" rest)
              = String quote tl) /\
  members f 1 (String.append (String.concat "," texts) (String.append "}" rest))
  = Some (map entryMember (entry :: l), rest).
Proof.
  revert entry texts f. induction l as [|next l IH]; intros [key c] texts f Hrep Henc Hf.
  - apply Forall_cons in Hrep as [Hrep _].
    unfold representableEntry in Hrep. cbn [fst snd] in Hrep.
    apply andb_true_iff in Hrep as [Hkey Hc].
    cbn [encodeEntries] in Henc.
    destruct (encodeCookie c) as [e | text] eqn:Htext; [discriminate|].
    injection Henc as <-. cbn [String.concat].
    pose proof (encodeCookie_length c text Htext) as Hlen.
    cbn [entriesFuel snd] in Hf |- *.
    split; [unfold member; rewrite length_append; cbn [String.length]; lia|].
    split; [apply member_head|].
    destruct f as [|f]; [lia|].
    destruct (reads_cookie c text (f - 15 - length (http.Unparsed c)) 1 Hc Htext
                ltac:(lia)) as [_ Hreads].
    replace (15 + length (http.Unparsed c) + (f - 15 - length (http.Unparsed c)))%nat
      with f in Hreads by lia.
    apply (members_last (escaped key)); [|exact Hreads].
    intros rest'. apply (string_round_trip key Hkey (String.length key) (le_n _)).
  - apply Forall_cons in Hrep as [Hrep Hreps].
    unfold representableEntry in Hrep. cbn [fst snd] in Hrep.
    apply andb_true_iff in Hrep as [Hkey Hc].
    remember (next :: l) as l1. cbn [encodeEntries] in Henc.
    destruct (encodeCookie c) as [e | text] eqn:Htext; [discriminate|].
    destruct (encodeEntries l1) as [e | texts1] eqn:Htexts; [discriminate|].
    injection Henc as <-.
    pose proof (encodeCookie_length c text Htext) as Hlen.
    cbn [entriesFuel snd] in Hf |- *.
    destruct f as [|f]; [lia|].
    subst l1.
    destruct (IH next texts1 f Hreps Htexts ltac:(lia)) as (Hlen1 & Hhead1 & Hms1).
    assert (Hconcat : String.concat "," (member (escaped key) text :: texts1)
                      = String.append (member (escaped key) text)
                          (String.append "," (String.concat "," texts1))).
    { destruct texts1 as [|t1 texts1]; [|reflexivity].
      destruct next as [k1 c1]. cbn [encodeEntries] in Htexts.
      destruct (encodeCookie c1); [discriminate|].
      destruct (encodeEntries l); discriminate. }
    rewrite Hconcat. split; [|split].
    + unfold member at 1. rewrite !length_append. cbn [String.length]. lia.
    + rewrite append_assoc. apply member_head.
    + rewrite !append_assoc.
      destruct (reads_cookie c text (f - 15 - length (http.Unparsed c)) 1 Hc Htext
                  ltac:(lia)) as [_ Hreads].
      replace (15 + length (http.Unparsed c) + (f - 15 - length (http.Unparsed c)))%nat
        with f in Hreads by lia.
      change (map entryMember ((key, c) :: next :: l))
        with ((escaped key, Object (cookieMembers c)) :: map entryMember (next :: l)).
      apply members_more; [|exact Hreads| |exact Hms1].
      * intros rest'. apply (string_round_trip key Hkey (String.length key) (le_n _)).
      * destruct Hhead1 as [tl ->]. reflexivity.
Qed.

End JsonSyntax.

Section JsonStore.
Import encjson strconv rfc3339.

Lemma unquote_escaped (s : string) :
  utf8.ValidString s = true -> unquote (escaped s) = Some s.
Proof.
  intros Hvalid. unfold unquote, escaped.
  apply (string_round_trip s Hvalid (String.length s) (le_n _)). lia.
Qed.

Lemma storeString_escaped (s old : string) :
  utf8.ValidString s = true -> storeString (Str (escaped s)) old = (s, None).
Proof. intros Hvalid. cbn [storeString]. now rewrite unquote_escaped. Qed.

Lemma storeInt_AppendInt (z old : Z) :
  - 2 ^ 63 <= z <= 2 ^ 63 - 1 -> storeInt (Number (AppendInt z)) old = (z, None).
Proof. intros Hz. cbn [storeInt]. now rewrite ParseInt_AppendInt. Qed.

Lemma storeStrings_stringsValue (l : list string) :
  Forall (fun s => utf8.ValidString s = true) l ->
  storeStrings (stringsValue l) [] = (l, None).
Proof.
  intros Hvalid. destruct l as [|s0 l]; [reflexivity|].
  unfold stringsValue, storeStrings.
  induction Hvalid as [|s l' Hs Hl IH]; [reflexivity|].
  cbn [map storeItems]. rewrite (storeString_escaped s EmptyString Hs), IH. reflexivity.
Qed.

Lemma storeMembers_cons (key key' : string) (f : Field) (v : Value)
    (rest : list (string * Value)) (c : http.Cookie) :
  unquote key = Some key' -> fieldFor key' = Some f ->
  storeMembers ((key, v) :: rest) c =
    (let '(c, e1) := store f v c in
     let '(c, e2) := storeMembers rest c in (c, firstError e1 e2)).
Proof. intros Hkey Hfield. cbn [storeMembers]. now rewrite Hkey, Hfield. Qed.

(** The members of a cookie, stored into a new cookie, give the cookie. *)
Lemma storeMembers_cookieMembers (c : http.Cookie) :
  representable c = true ->
  parseRFC3339 (appendFormatRFC3339 (http.Expires c)) = Some (http.Expires c) ->
  storeMembers (cookieMembers c) zero = (c, None).
Proof.
  intros Hrep Hparse.
  apply representable_spec in Hrep
    as (HName & HValue & HPath & HDomain & HRawExpires & HRaw & HUnparsed & HMaxAge
        & HSameSite).
  unfold cookieMembers, zero.
  rewrite (storeMembers_cons "Name" "Name" FName) by reflexivity.
  cbn [store]. rewrite storeString_escaped by assumption.
  rewrite (storeMembers_cons "Value" "Value" FValue) by reflexivity.
  cbn [store]. rewrite storeString_escaped by assumption.
  rewrite (storeMembers_cons "Path" "Path" FPath) by reflexivity.
  cbn [store]. rewrite storeString_escaped by assumption.
  rewrite (storeMembers_cons "Domain" "Domain" FDomain) by reflexivity.
  cbn [store]. rewrite storeString_escaped by assumption.
  rewrite (storeMembers_cons "Expires" "Expires" FExpires) by reflexivity.
  cbn [store UnmarshalJSON]. rewrite Hparse.
  rewrite (storeMembers_cons "RawExpires" "RawExpires" FRawExpires) by reflexivity.
  cbn [store]. rewrite storeString_escaped by assumption.
  rewrite (storeMembers_cons "MaxAge" "MaxAge" FMaxAge) by reflexivity.
  cbn [store]. rewrite storeInt_AppendInt by assumption.
  rewrite (storeMembers_cons "Secure" "Secure" FSecure) by reflexivity.
  cbn [store storeBool].
  rewrite (storeMembers_cons "HttpOnly" "HttpOnly" FHttpOnly) by reflexivity.
  cbn [store storeBool].
  rewrite (storeMembers_cons "SameSite" "SameSite" FSameSite) by reflexivity.
  cbn [store]. rewrite storeInt_AppendInt by assumption.
  rewrite (storeMembers_cons "Raw" "Raw" FRaw) by reflexivity.
  cbn [store]. rewrite storeString_escaped by assumption.
  rewrite (storeMembers_cons "Unparsed" "Unparsed" FUnparsed) by reflexivity.
  cbn [store]. rewrite storeStrings_stringsValue by assumption.
  cbn [storeMembers firstError]. now destruct c.
Qed.

(** The members of the entries of a map, stored one after the other. *)
Lemma storeEntries_entryMembers (l : list (string * http.Cookie))
    (m0 : gmap string http.Cookie) :
  Forall (fun e => representableEntry e = true) l ->
  Forall (fun e => parseRFC3339 (appendFormatRFC3339 (http.Expires (snd e)))
                   = Some (http.Expires (snd e))) l ->
  NoDup (map fst l) ->
  storeEntries (map entryMember l) m0 = (list_to_map l ∪ m0, None).
Proof.
  revert m0. induction l as [|[key c] l IH]; intros m0 Hrep Htime Hnodup.
  - cbn. now rewrite (left_id ∅ (∪)).
  - apply Forall_cons in Hrep as [Hrep Hreps]. apply Forall_cons in Htime as [Ht Hts].
    cbn [map fst] in Hnodup. apply NoDup_cons in Hnodup as [Hnew Hnodup].
    unfold representableEntry in Hrep. cbn [fst snd] in Hrep, Ht.
    apply andb_true_iff in Hrep as [Hkey Hc].
    cbn [map storeEntries entryMember fst snd]. rewrite (unquote_escaped key Hkey).
    cbn [storeCookie]. rewrite (storeMembers_cookieMembers c Hc Ht).
    rewrite (IH _ Hreps Hts Hnodup). cbn [firstError].
    f_equal. rewrite list_to_map_cons, <- insert_union_l. symmetry. apply insert_union_r.
    apply not_elem_of_list_to_map_1.
    intros Hin. apply Hnew. now apply list_elem_of_In.
Qed.

(** [Encode] writes every entry, so the times of all cookies have years of
    four digits. *)
Lemma encodeEntries_times (l : list (string * http.Cookie)) (texts : list string) :
  Forall (fun e => representableEntry e = true) l ->
  encodeEntries l = inr texts ->
  Forall (fun e => parseRFC3339 (appendFormatRFC3339 (http.Expires (snd e)))
                   = Some (http.Expires (snd e))) l.
Proof.
  revert texts. induction l as [|[key c] l IH]; intros texts Hrep Henc; [constructor|].
  apply Forall_cons in Hrep as [Hrep Hreps].
  cbn [encodeEntries] in Henc.
  destruct (encodeCookie c) as [e | text] eqn:Htext; [discriminate|].
  destruct (encodeEntries l) as [e | texts1] eqn:Htexts; [discriminate|].
  constructor; [|now apply (IH texts1)].
  unfold representableEntry in Hrep. apply andb_true_iff in Hrep as [_ Hc].
  apply (reads_cookie c text 0 0 Hc Htext). lia.
Qed.

(** The codec gives back what it has written: decoding the text that
    [Encode] has written for a map of representable cookies stores exactly
    the entries of this map, without error. *)
Lemma Decode_Encode (m m0 : gmap string http.Cookie) (data : string) :
  allRepresentable m -> Encode m = inr data -> Decode data m0 = (m ∪ m0, None).
Proof.
  intros Hrep Henc. unfold Encode in Henc.
  destruct (encodeEntries (sortedEntries m)) as [e | texts] eqn:Htexts; [discriminate|].
  injection Henc as <-.
  assert (Hperm : sortedEntries m ≡ₚ map_to_list m) by apply merge_sort_Permutation.
  assert (Hall : Forall (fun e => representableEntry e = true) (sortedEntries m)).
  { apply Forall_forall. intros [key c] Hin. apply Hrep.
    apply elem_of_map_to_list. now rewrite <- Hperm. }
  assert (Hnodup : NoDup (map fst (sortedEntries m))).
  { change (map fst (sortedEntries m)) with ((sortedEntries m).*1).
    rewrite Hperm. apply NoDup_fst_map_to_list. }
  assert (Hmap : list_to_map (sortedEntries m) = m).
  { rewrite <- (list_to_map_to_list m) at 2.
    apply list_to_map_proper; [exact Hnodup|exact Hperm]. }
  pose proof (encodeEntries_times _ _ Hall Htexts) as Htimes.
  unfold Decode. cbn [skipSpace]. change (isSpace "{") with false. cbv iota.
  destruct (sortedEntries m) as [|entry l] eqn:Hentries.
  - cbn [encodeEntries] in Htexts. injection Htexts as <-.
    cbn in Hmap. subst m. cbn. now rewrite (left_id ∅ (∪)).
  - destruct (members_entries l entry texts
                (S (String.length (String.append (String.concat "," texts)
                                     (String "}" (String "010" EmptyString)))))
                (String "010" EmptyString) Hall Htexts) as (Hlen & Hhead & Hms).
    { pose proof (members_entries l entry texts (entriesFuel (entry :: l)) EmptyString
                    Hall Htexts (le_n _)) as [Hlen _].
      rewrite length_append. lia. }
    assert (Hvalue :
      value (S (S (String.length (String.append (String.concat "," texts)
                                    (String "}" (String "010" EmptyString))))))
            0 (String "{" (String.append (String.concat "," texts)
                             (String "}" (String "010" EmptyString))))
      = Some (Object (map entryMember (entry :: l)), String "010" EmptyString)).
    { apply value_object; [lia|exact Hhead|exact Hms]. }
    cbn [String.length]. rewrite Hvalue.
    rewrite (storeEntries_entryMembers _ m0 Hall Htimes Hnodup). now rewrite Hmap.
Qed.

End JsonStore.

(** ** Saving and loading *)

Section RoundTrip.
Import os auth.

Lemma Decode_after_Encode (m : gmap string http.Cookie) (bytes : string) :
  encjson.allRepresentable m ->
  json.Encode (Codec := encjson.codec) m = inr bytes ->
  json.Decode (Codec := encjson.codec) bytes ∅ = (m, None).
Proof.
  intros Hrep Hbytes. cbn [json.Encode json.Decode encjson.codec] in *.
  rewrite (Decode_Encode m ∅ bytes Hrep Hbytes). now rewrite (right_id ∅ (∪)).
Qed.

(** C6: the cookie file goes through Go's encoding/json.  For every cookie
    set whose names and texts are valid UTF-8 (and whose numbers are in the
    range of Go's int): when [saveCookiesToFile] has written the set
    without error, then loading from the same path, as [NewClient] does for
    the same configuration with nothing refused by the system, succeeds
    and gives a client whose cookie set is equal to the saved one; the file
    is left as it was written. *)
Theorem save_load_round_trip (c : Client) (w w1 : World) :
  encjson.allRepresentable (cookies c) ->
  saveCookiesToFile (codec := encjson.codec) c w = (None, w1) ->
  calm w1 ->
  let '(e, loaded, w2) := loadCookies (codec := encjson.codec) (unloaded (config c)) w1 in
  e = None /\
  cookies loaded = cookies c /\
  files w2 = files w1 /\
  fst (NewClient (codec := encjson.codec) (config c) w1) = loaded.
Proof.
  intros Hrep. apply (load_after_save (codec := encjson.codec)).
  intros bytes. now apply Decode_after_Encode.
Qed.

Lemma sample_representable : encjson.allRepresentable (cookies sample.loggedIn).
Proof.
  intros key c Hlookup. unfold sample.loggedIn in Hlookup. cbn [cookies] in Hlookup.
  apply lookup_singleton_Some in Hlookup as [<- <-]. reflexivity.
Qed.

Lemma save_load_round_trip_witness :
  let c := sample.loggedIn in
  let w := sample.world None [] in
  let w1 := snd (saveCookiesToFile (codec := encjson.codec) c w) in
  (encjson.allRepresentable (cookies c) /\
   saveCookiesToFile (codec := encjson.codec) c w = (None, w1) /\
   calm w1) /\
  cookies (fst (NewClient (codec := encjson.codec) (config c) w1)) = cookies c.
Proof.
  intros c w w1.
  assert (Hrep : encjson.allRepresentable (cookies c)) by apply sample_representable.
  assert (Hsave : saveCookiesToFile (codec := encjson.codec) c w = (None, w1))
    by (vm_compute; reflexivity).
  assert (Hcalm : calm w1) by (vm_compute; constructor).
  split; [auto|].
  pose proof (save_load_round_trip c w w1 Hrep Hsave Hcalm) as Hrt.
  destruct (loadCookies (unloaded (config c)) w1) as [[e loaded] w2].
  destruct Hrt as (_ & Hcookies & _ & ->). exact Hcookies.
Defined.

(** C6, counterexample: a cookie as net/http makes it from the header line
    [auth=tok; Comment=caf\xE9], whose last byte is not valid UTF-8 (an
    attribute that is not understood is kept as it is in [Unparsed], the
    whole line in [Raw]).  Saving succeeds, and so does loading; but the
    byte has been written as the escape of U+FFFD, and the loaded cookie
    holds the three bytes of U+FFFD in its place: the loaded set is not
    the saved one. *)
Theorem invalid_utf8_is_not_restored :
  let comment := String.append "Comment=caf" (String "233" EmptyString) in
  let line := String.append "auth=tok; " comment in
  let cookie := http.mkCookie "auth" "tok" "" "" 0 "" 0 false false 0 line [comment] in
  let c := mkClient sample.cfg (httpClient (unloaded sample.cfg)) {["auth"%string := cookie]} in
  let w := sample.world None [] in
  let w1 := snd (saveCookiesToFile (codec := encjson.codec) c w) in
  let loaded := snd (fst (loadCookies (codec := encjson.codec) (unloaded sample.cfg) w1)) in
  saveCookiesToFile (codec := encjson.codec) c w = (None, w1) /\
  calm w1 /\
  fst (fst (loadCookies (codec := encjson.codec) (unloaded sample.cfg) w1)) = None /\
  option_map http.Unparsed (cookies loaded !! "auth"%string)
    = Some [String.append "Comment=caf" (String "239" (String "191" (String "189" EmptyString)))] /\
  cookies loaded <> cookies c.
Proof.
  intros comment line cookie c w w1 loaded.
  split; [vm_compute; reflexivity|]. split; [vm_compute; constructor|].
  split; [vm_compute; reflexivity|]. split; [vm_compute; reflexivity|].
  intros Heq. apply (f_equal (fun m => option_map http.Unparsed (m !! "auth"%string))) in Heq.
  vm_compute in Heq. discriminate.
Qed.

(** X12: a saved session is found again at the next start.  When
    [saveCookiesToFile] has succeeded for a client whose cookies have names
    and texts that are valid UTF-8, and nothing is refused while loading,
    the client that [NewClient] builds for the same configuration answers
    [IsAuthenticated] as the first one did, and every cookie of its map has
    been handed to its transport. *)
Theorem session_survives_restart (c : Client) (w w1 : World) (now : time.Time) :
  encjson.allRepresentable (cookies c) ->
  saveCookiesToFile (codec := encjson.codec) c w = (None, w1) ->
  calm w1 ->
  let restarted := fst (NewClient (codec := encjson.codec) (config c) w1) in
  IsAuthenticated restarted now = IsAuthenticated c now /\
  (forall name cookie, cookies restarted !! name = Some cookie ->
                       cookie ∈ resty.Cookies (httpClient restarted)).
Proof.
  intros Hrep. apply (restart_after_save (codec := encjson.codec)).
  intros bytes. now apply Decode_after_Encode.
Qed.

Lemma session_survives_restart_witness :
  let c := sample.loggedIn in
  let w := sample.world None [] in
  let w1 := snd (saveCookiesToFile (codec := encjson.codec) c w) in
  (encjson.allRepresentable (cookies c) /\
   saveCookiesToFile (codec := encjson.codec) c w = (None, w1) /\
   calm w1) /\
  IsAuthenticated (fst (NewClient (codec := encjson.codec) (config c) w1)) 0
    = IsAuthenticated c 0.
Proof.
  intros c w w1.
  assert (Hrep : encjson.allRepresentable (cookies c)) by apply sample_representable.
  assert (Hsave : saveCookiesToFile (codec := encjson.codec) c w = (None, w1))
    by (vm_compute; reflexivity).
  assert (Hcalm : calm w1) by (vm_compute; constructor).
  split; [auto|].
  apply (session_survives_restart c w w1 0 Hrep Hsave Hcalm).
Defined.

End RoundTrip.
